(** * TranscriptClean: the per-record correction engine

    A shallow embedding of the correction functions of [TranscriptClean.py]
    (mismatch, insertion, deletion and noncanonical splice junction
    correction, the CIGAR helpers and the per-record orchestrator), with the
    properties its specification states about them.

    Conventions.
    - Python [int] is [Z]; Python [str] is [string], read as a sequence of
      code points below 256 (SAM text is ASCII).
    - A Python call that can raise returns an [option]: [None] is "raised".
    - Objects that are mutated in place and reachable from more than one
      name (the log struct, the list of splice junction objects that every
      shallow copy of a transcript shares) live in an explicit [World] that
      is threaded through the calls and survives a raised exception. *)

From Stdlib Require Import ZArith Ascii String List Bool Lia DecimalString.
From Stdlib Require DecimalPos.
From stdpp Require Import base option list strings gmap.

Local Open Scope Z_scope.

(** * Part I: the program *)

(** ** The Python primitives the program uses *)

Module Py.

(** [str(n)] for an [int]. *)
Definition str (n : Z) : string := NilZero.string_of_int (Z.to_int n).

(** The value of a decimal digit. *)
Definition digit (c : ascii) : option Z :=
  let n := Z.of_nat (nat_of_ascii c) in
  if (48 <=? n) && (n <=? 57) then Some (n - 48) else None.

(** The digits of an [int()] argument: decimal digits, single underscores
    allowed between two digits. [after_digit] tells whether the previous
    character was a digit. *)
Fixpoint int_digits (acc : Z) (after_digit : bool) (s : string) : option Z :=
  match s with
  | EmptyString => if after_digit then Some acc else None
  | String c s' =>
      match digit c with
      | Some d => int_digits (10 * acc + d) true s'
      | None =>
          if Ascii.eqb c "_" && after_digit then int_digits acc false s'
          else None
      end
  end.

(** White space as [str.split()] and [int()] see it, for code points
    below 256. *)
Definition is_space (c : ascii) : bool :=
  let n := nat_of_ascii c in
  ((9 <=? n) && (n <=? 13) || (28 <=? n) && (n <=? 32)
   || (n =? 133) || (n =? 160))%nat.

Fixpoint lstrip (s : string) : string :=
  match s with
  | String c s' => if is_space c then lstrip s' else s
  | EmptyString => EmptyString
  end.

Definition reverse (s : string) : string :=
  string_of_list_ascii (rev (list_ascii_of_string s)).

(** [s.strip()]. *)
Definition strip (s : string) : string :=
  reverse (lstrip (reverse (lstrip s))).

(** [int(s)]; [None] is [ValueError]. *)
Definition int (s : string) : option Z :=
  match strip s with
  | String "-" s' => Z.opp <$> int_digits 0 false s'
  | String "+" s' => int_digits 0 false s'
  | s' => int_digits 0 false s'
  end.

Definition is_digit (c : ascii) : bool :=
  let n := nat_of_ascii c in ((48 <=? n) && (n <=? 57))%nat.

Definition is_upper (c : ascii) : bool :=
  let n := nat_of_ascii c in ((65 <=? n) && (n <=? 90))%nat.

(** [re.sub('[...]', " ", s)] for a one-character class. *)
Fixpoint sub_class (cls : ascii -> bool) (s : string) : string :=
  match s with
  | EmptyString => EmptyString
  | String c s' => String (if cls c then " "%char else c) (sub_class cls s')
  end.

(** [s.split()]: the maximal runs of characters that are not white space.
    [tok] is the run being read, last character first. *)
Fixpoint split_from (tok : list ascii) (s : string) : list string :=
  match s with
  | EmptyString =>
      match tok with
      | [] => []
      | _ => [string_of_list_ascii (rev tok)]
      end
  | String c s' =>
      if is_space c then
        match tok with
        | [] => split_from [] s'
        | _ => string_of_list_ascii (rev tok) :: split_from [] s'
        end
      else split_from (c :: tok) s'
  end.

Definition split (s : string) : list string := split_from [] s.

(** [s.split(sep)] for a one-character separator: every separator ends a
    field, empty fields are kept. *)
Fixpoint split_on_from (sep : ascii) (tok : list ascii) (s : string)
  : list string :=
  match s with
  | EmptyString => [string_of_list_ascii (rev tok)]
  | String c s' =>
      if Ascii.eqb c sep
      then string_of_list_ascii (rev tok) :: split_on_from sep [] s'
      else split_on_from sep (c :: tok) s'
  end.

Definition split_on (sep : ascii) (s : string) : list string :=
  split_on_from sep [] s.

(** [len(s)]. *)
Definition len (s : string) : Z := Z.of_nat (String.length s).

(** A slice bound brought into [0 .. len(s)], the way Python does it. *)
Definition clamp (n k : Z) : Z :=
  if k <? 0 then Z.max 0 (k + n) else Z.min k n.

(** [s[i:j]]. *)
Definition slice (s : string) (i j : Z) : string :=
  let a := clamp (len s) i in
  let b := clamp (len s) j in
  substring (Z.to_nat a) (Z.to_nat (b - a)) s.

(** [s[i:]]. *)
Definition slice_from (s : string) (i : Z) : string := slice s i (len s).

(** [s[i]]; [None] is [IndexError]. *)
Definition index (s : string) (i : Z) : option string :=
  let k := if i <? 0 then i + len s else i in
  if (0 <=? k) && (k <? len s)
  then (fun c => String c EmptyString) <$> String.get (Z.to_nat k) s
  else None.

(** [c in s] for a one-character [c]. *)
Fixpoint char_in (c : ascii) (s : string) : bool :=
  match s with
  | EmptyString => false
  | String c' s' => Ascii.eqb c c' || char_in c s'
  end.

(** [x in l] for a list of strings. *)
Definition str_in (x : string) (l : list string) : bool :=
  existsb (String.eqb x) l.

(** [sep.join(l)]. *)
Definition join (sep : string) (l : list string) : string :=
  String.concat sep l.

(** [s.upper()], on ASCII letters. *)
Definition upper_char (c : ascii) : ascii :=
  let n := nat_of_ascii c in
  if ((97 <=? n) && (n <=? 122))%nat then ascii_of_nat (n - 32) else c.

Fixpoint upper (s : string) : string :=
  match s with
  | EmptyString => EmptyString
  | String c s' => String (upper_char c) (upper s')
  end.

(** [zip(a, b)] of two lists. *)
Fixpoint zip {A B} (a : list A) (b : list B) : list (A * B) :=
  match a, b with
  | x :: a', y :: b' => (x, y) :: zip a' b'
  | _, _ => []
  end.

(** [[f(x) for x in l]] when [f] can raise. *)
Fixpoint map_raise {A B} (f : A -> option B) (l : list A) : option (list B) :=
  match l with
  | [] => Some []
  | x :: l' =>
      match f x with
      | Some y => cons y <$> map_raise f l'
      | None => None
      end
  end.

Definition tab : string := String (ascii_of_nat 9) EmptyString.

End Py.

(** ** Splice junction distances *)

Module Junction.

(** [combinedJunctionDist(dist_0, dist_1)], lines 1220-1247. *)
Definition combinedJunctionDist (dist_0 dist_1 : Z) : Z :=
  if dist_0 * dist_1 <=? 0
  then Z.abs dist_0 + Z.abs dist_1
  else Z.abs (Z.abs dist_0 - Z.abs dist_1).

(** The two sign relations the specification distinguishes. *)
Definition diverging (d0 d1 : Z) : Prop :=
  d0 = 0 \/ d1 = 0 \/ (d0 < 0 /\ 0 < d1) \/ (0 < d0 /\ d1 < 0).

Definition same_sign (d0 d1 : Z) : Prop :=
  (0 < d0 /\ 0 < d1) \/ (d0 < 0 /\ d1 < 0).

End Junction.

(** ** CIGAR strings *)

Module Cigar.

(** [splitCIGAR(CIGAR)], lines 1365-1373. [None] when [int] raises. *)
Definition splitCIGAR (CIGAR : string) : option (list string * list Z) :=
  let matchTypes := Py.split (Py.sub_class Py.is_digit CIGAR) in
  let matchCounts := Py.split (Py.sub_class Py.is_upper CIGAR) in
  match Py.map_raise Py.int matchCounts with
  | Some counts => Some (matchTypes, counts)
  | None => None
  end.

(** The loop of [check_CIGAR_validity], lines 1355-1363: [prev] is the
    previous operation. *)
Fixpoint check_ops (prev : string) (l : list (string * Z)) : bool :=
  match l with
  | [] => true
  | (op, ct) :: l' =>
      if String.eqb prev "N" && negb (String.eqb op "M") then false
      else if String.eqb prev "D" && String.eqb op "N" then false
      else check_ops op l'
  end.

(** [check_CIGAR_validity(CIGAR)], lines 1344-1363. *)
Definition check_CIGAR_validity (CIGAR : string) : option bool :=
  if Py.char_in "-" CIGAR then Some false
  else
    match splitCIGAR CIGAR with
    | Some (operations, counts) =>
        Some (check_ops "" (Py.zip operations counts))
    | None => None
    end.

(** [endMatch(MVal, newCIGAR)], lines 1062-1074. *)
Definition endMatch (MVal : Z) (newCIGAR : string) : Z * string :=
  if 0 <? MVal then (0, newCIGAR +:+ Py.str MVal +:+ "M")
  else (MVal, newCIGAR).

End Cigar.

(** ** The data model *)

(** Modelled from the spec: class [IntronBound] of [intronBound.py], which
    is not among the sources. One boundary of an intron: [bound] is 0 for the
    left (lower coordinate) boundary and 1 for the right one, [pos] its
    reference position; these are the two attributes
    [fix_one_side_of_junction] reads and writes. *)
Module IntronBound.
Record t := { bound : Z; pos : Z }.

Definition shift (d : Z) (b : t) : t :=
  {| bound := bound b; pos := pos b + d |}.
End IntronBound.

Inductive Side := Left | Right.

(** Modelled from the spec: class [SpliceJunction] of [spliceJunction.py],
    which is not among the sources (data model: chromosome, strand, donor
    position, acceptor position, canonical-motif flag). The junction owns
    its two boundary objects; the donor is the 5' boundary, so the left one
    on the forward strand and the right one on the reverse strand. *)
Module SpliceJunction.
Record t := {
  chrom : string;
  start : Z;
  end_ : Z;
  strand : string;
  left : IntronBound.t;
  right : IntronBound.t;
  isCanonical : bool
}.

Definition get_bound (s : Side) (j : t) : IntronBound.t :=
  match s with Left => left j | Right => right j end.

Definition set_bound (s : Side) (b : IntronBound.t) (j : t) : t :=
  match s with
  | Left => {| chrom := chrom j; start := start j; end_ := end_ j;
               strand := strand j; left := b; right := right j;
               isCanonical := isCanonical j |}
  | Right => {| chrom := chrom j; start := start j; end_ := end_ j;
                strand := strand j; left := left j; right := b;
                isCanonical := isCanonical j |}
  end.

(** [get_splice_donor()] and [get_splice_acceptor()] hand out the junction's
    own boundary object; here, which of the two it is. *)
Definition get_splice_donor (j : t) : Side :=
  if String.eqb (strand j) "+" then Left else Right.

Definition get_splice_acceptor (j : t) : Side :=
  if String.eqb (strand j) "+" then Right else Left.

(** [recheckPosition()]: "reassign the position of the junction (based on
    its bounds)". *)
Definition recheckPosition (j : t) : t :=
  {| chrom := chrom j; start := IntronBound.pos (left j);
     end_ := IntronBound.pos (right j); strand := strand j;
     left := left j; right := right j; isCanonical := isCanonical j |}.
End SpliceJunction.

(** Modelled from the spec: class [Transcript] of [transcript.py], which is
    not among the sources (data model: id, chromosome, start position,
    sequence, CIGAR, mismatch tag, edit-distance counter, and the junction
    tags and canonical flag the splice correction assigns). Its attribute
    [spliceJunctions] is a list object that [copy] does not duplicate: it is
    kept in the [World] below. *)
Module Transcript.
Record t := {
  QNAME : string;
  CHROM : string;
  POS : Z;
  SEQ : string;
  CIGAR : string;
  NM : Z;
  MD : string;
  jM : string;
  jI : string;
  isCanonical : bool
}.

Definition set_SEQ_CIGAR (seq cigar : string) (x : t) : t :=
  {| QNAME := QNAME x; CHROM := CHROM x; POS := POS x; SEQ := seq;
     CIGAR := cigar; NM := NM x; MD := MD x; jM := jM x; jI := jI x;
     isCanonical := isCanonical x |}.

Definition set_NM_MD (nm : Z) (md : string) (x : t) : t :=
  {| QNAME := QNAME x; CHROM := CHROM x; POS := POS x; SEQ := SEQ x;
     CIGAR := CIGAR x; NM := nm; MD := md; jM := jM x; jI := jI x;
     isCanonical := isCanonical x |}.

Definition set_jM_jI (m i : string) (x : t) : t :=
  {| QNAME := QNAME x; CHROM := CHROM x; POS := POS x; SEQ := SEQ x;
     CIGAR := CIGAR x; NM := NM x; MD := MD x; jM := m; jI := i;
     isCanonical := isCanonical x |}.

Definition set_isCanonical (b : bool) (x : t) : t :=
  {| QNAME := QNAME x; CHROM := CHROM x; POS := POS x; SEQ := SEQ x;
     CIGAR := CIGAR x; NM := NM x; MD := MD x; jM := jM x; jI := jI x;
     isCanonical := b |}.

(** Modelled from the spec: the method [splitCIGAR()] (the spec's [parse]),
    taken to be the module-level [splitCIGAR] applied to the record's own
    CIGAR. *)
Definition splitCIGAR (x : t) : option (list string * list Z) :=
  Cigar.splitCIGAR (CIGAR x).

(** Modelled from the spec: [recheckCanonical()], "the record's overall
    canonical flag": every junction of the record is canonical. *)
Definition recheckCanonical (sjs : list SpliceJunction.t) : bool :=
  forallb SpliceJunction.isCanonical sjs.
End Transcript.

(** The per-transcript log struct of [init_log_info]: a counter is the
    string "NA" ([None]) until a corrector sets it. *)
Module LogInfo.
Record t := {
  TranscriptID : string;
  Mapping : string;
  corrected_deletions : option Z;
  uncorrected_deletions : option Z;
  variant_deletions : option Z;
  corrected_insertions : option Z;
  uncorrected_insertions : option Z;
  variant_insertions : option Z;
  corrected_mismatches : option Z;
  uncorrected_mismatches : option Z;
  corrected_NC_SJs : option Z;
  uncorrected_NC_SJs : option Z
}.

Inductive counter :=
  | CorrectedDeletions | UncorrectedDeletions | VariantDeletions
  | CorrectedInsertions | UncorrectedInsertions | VariantInsertions
  | CorrectedMismatches | UncorrectedMismatches
  | CorrectedNCSJs | UncorrectedNCSJs.

Definition get (c : counter) (l : t) : option Z :=
  match c with
  | CorrectedDeletions => corrected_deletions l
  | UncorrectedDeletions => uncorrected_deletions l
  | VariantDeletions => variant_deletions l
  | CorrectedInsertions => corrected_insertions l
  | UncorrectedInsertions => uncorrected_insertions l
  | VariantInsertions => variant_insertions l
  | CorrectedMismatches => corrected_mismatches l
  | UncorrectedMismatches => uncorrected_mismatches l
  | CorrectedNCSJs => corrected_NC_SJs l
  | UncorrectedNCSJs => uncorrected_NC_SJs l
  end.

Definition pick (c c' : counter) (v old : option Z) : option Z :=
  match c, c' with
  | CorrectedDeletions, CorrectedDeletions
  | UncorrectedDeletions, UncorrectedDeletions
  | VariantDeletions, VariantDeletions
  | CorrectedInsertions, CorrectedInsertions
  | UncorrectedInsertions, UncorrectedInsertions
  | VariantInsertions, VariantInsertions
  | CorrectedMismatches, CorrectedMismatches
  | UncorrectedMismatches, UncorrectedMismatches
  | CorrectedNCSJs, CorrectedNCSJs
  | UncorrectedNCSJs, UncorrectedNCSJs => v
  | _, _ => old
  end.

(** [logInfo.c = v]. *)
Definition set (c : counter) (v : option Z) (l : t) : t :=
  {| TranscriptID := TranscriptID l; Mapping := Mapping l;
     corrected_deletions := pick c CorrectedDeletions v (corrected_deletions l);
     uncorrected_deletions :=
       pick c UncorrectedDeletions v (uncorrected_deletions l);
     variant_deletions := pick c VariantDeletions v (variant_deletions l);
     corrected_insertions :=
       pick c CorrectedInsertions v (corrected_insertions l);
     uncorrected_insertions :=
       pick c UncorrectedInsertions v (uncorrected_insertions l);
     variant_insertions := pick c VariantInsertions v (variant_insertions l);
     corrected_mismatches :=
       pick c CorrectedMismatches v (corrected_mismatches l);
     uncorrected_mismatches :=
       pick c UncorrectedMismatches v (uncorrected_mismatches l);
     corrected_NC_SJs := pick c CorrectedNCSJs v (corrected_NC_SJs l);
     uncorrected_NC_SJs := pick c UncorrectedNCSJs v (uncorrected_NC_SJs l) |}.

(** [logInfo.c += 1]; every corrector sets its counters to 0 before its
    first increment, so the counter is a number whenever this runs. *)
Definition incr (c : counter) (l : t) : t :=
  set c ((fun n => n + 1) <$> get c l) l.
End LogInfo.

(** ** References, options and the mutable world *)

(** [genome.sequence({'chr': c, 'start': a, 'stop': b}, one_based=True)] of
    pyfasta; [None] when the lookup raises. *)
Definition Genome := string -> Z -> Z -> option string.

(** What [find_closest_bound] keeps of the closest reference boundary. *)
Record Closest := {
  closest_chrom : string;
  closest_start : Z;
  closest_end : Z;
  dist : Z
}.

(** A sorted BedTool of reference boundaries, seen through the one query
    the program makes: the first closest interval on the same strand with
    its signed distance ([closest(ref_bounds, s=True, D="ref", t="first")[0]]);
    [None] when the query or the conversion of its fields raises. *)
Definition BedTool := IntronBound.t -> option Closest.

(** The [refs] struct of [prep_refs]. *)
Record Refs := {
  genome : Genome;
  snps : gmap string (list string);
  insertions : gmap string (list string);
  deletions : gmap string Z;
  donors : BedTool;
  acceptors : BedTool;
  sjAnnot : gset string
}.

(** The fields of [options] the correction reads (after [cleanup_options]). *)
Record Options := {
  mismatchCorrection : string;
  indelCorrection : string;
  sjCorrection : string;
  maxLenIndel : Z;
  maxSJOffset : Z
}.

Inductive Event :=
  | Warn (msg : string)     (* [warnings.warn(msg)] *)
  | PrintException.         (* [print(e)] *)

(** The objects that are mutated in place while one transcript is corrected:
    the log struct and the junction objects in the list that the original
    transcript and all its shallow copies share; and what was written to the
    warning and output streams. *)
Record World := {
  logInfo : LogInfo.t;
  spliceJunctions : list SpliceJunction.t;
  events : list Event
}.

(** A computation that reads and writes the world and can raise; what it
    wrote before raising stays written. *)
Definition M (A : Type) : Type := World -> option A * World.

Definition ret {A} (a : A) : M A := fun w => (Some a, w).

Definition raise {A} : M A := fun w => (None, w).

Definition bind {A B} (f : A -> M B) (m : M A) : M B :=
  fun w => match m w with
           | (Some a, w') => f a w'
           | (None, w') => (None, w')
           end.

#[global] Instance M_ret : MRet M := @ret.
#[global] Instance M_bind : MBind M := @bind.

(** The value of a call that can raise. *)
Definition call {A} (o : option A) : M A := fun w => (o, w).

(** [try: m except: h]. *)
Definition try_except {A} (m : M A) (h : M A) : M A :=
  fun w => match m w with
           | (Some a, w') => (Some a, w')
           | (None, w') => h w'
           end.

(** [for x in l: body], with the loop variables in [st]. *)
Fixpoint for_each {A S} (body : S -> A -> M S) (l : list A) (st : S) : M S :=
  match l with
  | [] => ret st
  | x :: l' => st' ← body st x; for_each body l' st'
  end.

Definition set_counter (c : LogInfo.counter) (v : Z) : M unit :=
  fun w => (Some tt, {| logInfo := LogInfo.set c (Some v) (logInfo w);
                        spliceJunctions := spliceJunctions w;
                        events := events w |}).

Definition incr_counter (c : LogInfo.counter) : M unit :=
  fun w => (Some tt, {| logInfo := LogInfo.incr c (logInfo w);
                        spliceJunctions := spliceJunctions w;
                        events := events w |}).

Definition emit (e : Event) : M unit :=
  fun w => (Some tt, {| logInfo := logInfo w;
                        spliceJunctions := spliceJunctions w;
                        events := events w ++ [e] |}).

(** [transcript.spliceJunctions[n]]; [IndexError] out of range. *)
Definition junction (n : nat) : M SpliceJunction.t :=
  fun w => (spliceJunctions w !! n, w).

(** Assignment to attributes of the junction object number [n]. *)
Definition update_junction (n : nat) (f : SpliceJunction.t -> SpliceJunction.t)
  : M unit :=
  fun w => (Some tt, {| logInfo := logInfo w;
                        spliceJunctions := alter f n (spliceJunctions w);
                        events := events w |}).

(** A boundary object is named by the junction that owns it and its side. *)
Definition BoundRef : Type := nat * Side.

Definition read_bound (r : BoundRef) : M IntronBound.t :=
  j ← junction (fst r); ret (SpliceJunction.get_bound (snd r) j).

(** [intronBound.pos += d]. *)
Definition shift_bound (r : BoundRef) (d : Z) : M unit :=
  update_junction (fst r)
    (fun j => SpliceJunction.set_bound (snd r)
                (IntronBound.shift d (SpliceJunction.get_bound (snd r) j)) j).

(** The methods of [Transcript] and [SpliceJunction] whose code is not among
    the sources and that the specification does not pin down; each can
    raise. *)
Class Methods := {
  (** [Transcript(sam_fields, genome, sjAnnot)]: the record and its junction
      objects. *)
  Transcript_new :
    list string -> Genome -> gset string ->
    option (Transcript.t * list SpliceJunction.t);
  (** [transcript.getNMandMDFlags(genome)]. *)
  getNMandMDFlags : Transcript.t -> Genome -> option (Z * string);
  (** [transcript.mergeMDwithCIGAR()]. *)
  mergeMDwithCIGAR : Transcript.t -> option (list string * list Z);
  (** [junction.checkSpliceMotif(genome, sjAnnot)]: the junction with its
      motif and canonical flag recomputed. *)
  checkSpliceMotif :
    SpliceJunction.t -> Genome -> gset string -> option SpliceJunction.t;
  (** [transcript.get_jM_jI_tags_from_sjs()]. *)
  get_jM_jI_tags_from_sjs :
    Transcript.t -> list SpliceJunction.t -> option (string * string)
}.

(** ** Mismatch and indel correction *)

(** The variables of a corrector's loop over the CIGAR operations. *)
Record Loop := {
  newCIGAR : string;
  newSeq : string;
  MVal : Z;
  seqPos : Z;
  genomePos : Z;
  TE_entries : list string
}.

(** [ID = "_".join([chrom, str(genomePos), str(genomePos + ct - 1)])]. *)
Definition span_ID (chrom : string) (genomePos ct : Z) : string :=
  Py.join "_" [chrom; Py.str genomePos; Py.str (genomePos + ct - 1)].

(** One line of the transcript error log. *)
Definition errorEntry (transcript_ID ID kind : string) (ct : Z)
    (status reason : string) : string :=
  Py.join Py.tab [transcript_ID; ID; kind; Py.str ct; status; reason].

(** The [if op == "M":] block the three correctors share:
    copy the bases, extend the ongoing match. *)
Definition match_op (origSeq : string) (ct : Z) (st : Loop) : Loop :=
  {| newCIGAR := newCIGAR st;
     newSeq := newSeq st +:+ Py.slice origSeq (seqPos st) (seqPos st + ct);
     MVal := MVal st + ct;
     seqPos := seqPos st + ct;
     genomePos := genomePos st + ct;
     TE_entries := TE_entries st |}.

(** End the ongoing match, copy the [ct] bases and write the operation:
    an operation whose bases are in the read and not in the reference. *)
Definition read_only_op (origSeq op : string) (ct : Z) (st : Loop) : Loop :=
  let '(MVal', newCIGAR') := Cigar.endMatch (MVal st) (newCIGAR st) in
  {| newCIGAR := newCIGAR' +:+ Py.str ct +:+ op;
     newSeq := newSeq st +:+ Py.slice origSeq (seqPos st) (seqPos st + ct);
     MVal := MVal';
     seqPos := seqPos st + ct;
     genomePos := genomePos st;
     TE_entries := TE_entries st |}.

(** End the ongoing match, advance in the genome and write the operation:
    an operation whose bases are in the reference and not in the read. *)
Definition reference_only_op (op : string) (ct : Z) (st : Loop) : Loop :=
  let '(MVal', newCIGAR') := Cigar.endMatch (MVal st) (newCIGAR st) in
  {| newCIGAR := newCIGAR' +:+ Py.str ct +:+ op;
     newSeq := newSeq st;
     MVal := MVal';
     seqPos := seqPos st;
     genomePos := genomePos st + ct;
     TE_entries := TE_entries st |}.

Definition log_entry (e : string) (st : Loop) : Loop :=
  {| newCIGAR := newCIGAR st; newSeq := newSeq st; MVal := MVal st;
     seqPos := seqPos st; genomePos := genomePos st;
     TE_entries := TE_entries st ++ [e] |}.

Definition skip_bases (ct : Z) (st : Loop) : Loop :=
  {| newCIGAR := newCIGAR st; newSeq := newSeq st; MVal := MVal st;
     seqPos := seqPos st + ct; genomePos := genomePos st;
     TE_entries := TE_entries st |}.

(** Append reference bases in place of [ct] reference positions and count
    them as matched. *)
Definition fill_bases (refBases : string) (ct : Z) (st : Loop) : Loop :=
  {| newCIGAR := newCIGAR st; newSeq := newSeq st +:+ refBases;
     MVal := MVal st + ct; seqPos := seqPos st;
     genomePos := genomePos st + ct; TE_entries := TE_entries st |}.

Definition loop_start (POS : Z) : Loop :=
  {| newCIGAR := ""; newSeq := ""; MVal := 0; seqPos := 0;
     genomePos := POS; TE_entries := [] |}.

(** After the loop: end any ongoing match. *)
Definition loop_end (st : Loop) : string * string :=
  let '(_, newCIGAR') := Cigar.endMatch (MVal st) (newCIGAR st) in
  (newSeq st, newCIGAR').

Section Correctors.
Context {methods : Methods}.

(** The trailing [if op == "S":] and [if op in ["N", "H", "D"]:] blocks of
    the loop of [correctInsertions], lines 842-855. *)
Definition insertions_rest (origSeq op : string) (ct : Z) (st : Loop) : Loop :=
  let st := if String.eqb op "S" then read_only_op origSeq op ct st else st in
  if Py.str_in op ["N"; "H"; "D"] then reference_only_op op ct st else st.

(** The body of the loop of [correctInsertions], lines 787-855. The variant
    branch ends in [continue]; the others fall through to the blocks for the
    other operations. *)
Definition insertions_body (transcript : Transcript.t)
    (variants : gmap string (list string)) (maxLen : Z)
    (st : Loop) (x : string * Z) : M Loop :=
  let '(op, ct) := x in
  let origSeq := Transcript.SEQ transcript in
  let transcript_ID := Transcript.QNAME transcript in
  let st := if String.eqb op "M" then match_op origSeq ct st else st in
  if String.eqb op "I" then
    let ID := span_ID (Transcript.CHROM transcript) (genomePos st) ct in
    if ct <=? maxLen then
      let currSeq := Py.slice origSeq (seqPos st) (seqPos st + ct) in
      match variants !! ID with
      | Some alleles =>
          if Py.str_in currSeq alleles then
            incr_counter LogInfo.VariantInsertions;;
            ret (read_only_op origSeq op ct
                   (log_entry (errorEntry transcript_ID ID "Insertion" ct
                                 "Uncorrected" "VariantMatch") st))
          else
            incr_counter LogInfo.CorrectedInsertions;;
            ret (insertions_rest origSeq op ct
                   (skip_bases ct
                      (log_entry (errorEntry transcript_ID ID "Insertion" ct
                                    "Corrected" "NA") st)))
      | None =>
          incr_counter LogInfo.CorrectedInsertions;;
          ret (insertions_rest origSeq op ct
                 (skip_bases ct
                    (log_entry (errorEntry transcript_ID ID "Insertion" ct
                                  "Corrected" "NA") st)))
      end
    else
      incr_counter LogInfo.UncorrectedInsertions;;
      ret (insertions_rest origSeq op ct
             (read_only_op origSeq op ct
                (log_entry (errorEntry transcript_ID ID "Insertion" ct
                              "Uncorrected" "TooLarge") st)))
  else ret (insertions_rest origSeq op ct st).

(** [correctInsertions(transcript, genome, variants, maxLen, logInfo)],
    lines 759-864: the transcript as the call leaves it, and the returned
    log lines. *)
Definition correctInsertions (transcript : Transcript.t) (genome : Genome)
    (variants : gmap string (list string)) (maxLen : Z)
  : M (Transcript.t * list string) :=
  set_counter LogInfo.UncorrectedInsertions 0;;
  set_counter LogInfo.CorrectedInsertions 0;;
  set_counter LogInfo.VariantInsertions 0;;
  '(cigarOps, cigarCounts) ← call (Transcript.splitCIGAR transcript);
  if negb (Py.char_in "I" (Transcript.CIGAR transcript)) then
    ret (transcript, [])
  else
    st ← for_each (insertions_body transcript variants maxLen)
           (Py.zip cigarOps cigarCounts)
           (loop_start (Transcript.POS transcript));
    let '(newSeq, newCIGAR) := loop_end st in
    ret (Transcript.set_SEQ_CIGAR newSeq newCIGAR transcript, TE_entries st).

(** The trailing [if op in ["S", "I"]:] and [if op in ["N", "H"]:] blocks of
    the loop of [correctDeletions], lines 945-958. *)
Definition deletions_rest (origSeq op : string) (ct : Z) (st : Loop) : Loop :=
  let st :=
    if Py.str_in op ["S"; "I"] then read_only_op origSeq op ct st else st in
  if Py.str_in op ["N"; "H"] then reference_only_op op ct st else st.

(** The body of the loop of [correctDeletions], lines 895-958. *)
Definition deletions_body (transcript : Transcript.t) (genome : Genome)
    (variants : gmap string Z) (maxLen : Z)
    (st : Loop) (x : string * Z) : M Loop :=
  let '(op, ct) := x in
  let origSeq := Transcript.SEQ transcript in
  let transcript_ID := Transcript.QNAME transcript in
  let chrom := Transcript.CHROM transcript in
  let st := if String.eqb op "M" then match_op origSeq ct st else st in
  if String.eqb op "D" then
    let ID := span_ID chrom (genomePos st) ct in
    if ct <=? maxLen then
      if decide (is_Some (variants !! ID)) then
        currSeq ← call (genome chrom (genomePos st) (genomePos st + ct - 1));
        incr_counter LogInfo.VariantDeletions;;
        ret (reference_only_op op ct
               (log_entry (errorEntry transcript_ID ID "Deletion" ct
                             "Uncorrected" "VariantMatch") st))
      else
        incr_counter LogInfo.CorrectedDeletions;;
        refBases ← call (genome chrom (genomePos st) (genomePos st + ct - 1));
        ret (deletions_rest origSeq op ct
               (fill_bases refBases ct
                  (log_entry (errorEntry transcript_ID ID "Deletion" ct
                                "Corrected" "NA") st)))
    else
      incr_counter LogInfo.UncorrectedDeletions;;
      ret (deletions_rest origSeq op ct
             (reference_only_op op ct
                (log_entry (errorEntry transcript_ID ID "Deletion" ct
                              "Uncorrected" "TooLarge") st)))
  else ret (deletions_rest origSeq op ct st).

(** [correctDeletions(transcript, genome, variants, maxLen, logInfo)],
    lines 866-966. *)
Definition correctDeletions (transcript : Transcript.t) (genome : Genome)
    (variants : gmap string Z) (maxLen : Z)
  : M (Transcript.t * list string) :=
  set_counter LogInfo.UncorrectedDeletions 0;;
  set_counter LogInfo.CorrectedDeletions 0;;
  set_counter LogInfo.VariantDeletions 0;;
  '(cigarOps, cigarCounts) ← call (Transcript.splitCIGAR transcript);
  if negb (Py.char_in "D" (Transcript.CIGAR transcript)) then
    ret (transcript, [])
  else
    st ← for_each (deletions_body transcript genome variants maxLen)
           (Py.zip cigarOps cigarCounts)
           (loop_start (Transcript.POS transcript));
    let '(newSeq, newCIGAR) := loop_end st in
    let transcript := Transcript.set_SEQ_CIGAR newSeq newCIGAR transcript in
    '(nm, md) ← call (getNMandMDFlags transcript genome);
    ret (Transcript.set_NM_MD nm md transcript, TE_entries st).

(** Replace [ct] read bases by reference bases and count them as matched. *)
Definition replace_bases (refBases : string) (ct : Z) (st : Loop) : Loop :=
  {| newCIGAR := newCIGAR st; newSeq := newSeq st +:+ refBases;
     MVal := MVal st + ct; seqPos := seqPos st + ct;
     genomePos := genomePos st + ct; TE_entries := TE_entries st |}.

(** The trailing blocks of the loop of [correctMismatches],
    lines 1038-1049. *)
Definition mismatches_rest (origSeq op : string) (ct : Z) (st : Loop) : Loop :=
  let st :=
    if Py.str_in op ["S"; "I"] then read_only_op origSeq op ct st else st in
  if Py.str_in op ["N"; "H"; "D"] then reference_only_op op ct st else st.

(** "Otherwise, correct the mismatch to reference base", lines 1023-1036. *)
Definition mismatch_to_reference (transcript : Transcript.t) (genome : Genome)
    (ID op : string) (ct : Z) (st : Loop) : M Loop :=
  incr_counter LogInfo.CorrectedMismatches;;
  refBases ← call (genome (Transcript.CHROM transcript) (genomePos st)
                      (genomePos st + ct - 1));
  ret (mismatches_rest (Transcript.SEQ transcript) op ct
         (replace_bases refBases ct
            (log_entry (errorEntry (Transcript.QNAME transcript) ID "Mismatch"
                          ct "Corrected" "NA") st))).

(** The body of the loop of [correctMismatches], lines 996-1049. *)
Definition mismatches_body (transcript : Transcript.t) (genome : Genome)
    (variants : gmap string (list string))
    (st : Loop) (x : string * Z) : M Loop :=
  let '(op, ct) := x in
  let origSeq := Transcript.SEQ transcript in
  let st := if String.eqb op "M" then match_op origSeq ct st else st in
  if String.eqb op "X" then
    let ID := Transcript.CHROM transcript +:+ "_" +:+ Py.str (genomePos st) in
    match variants !! ID with
    | Some alleles =>
        currBase ← call (Py.index origSeq (seqPos st));
        if Py.str_in currBase alleles then
          incr_counter LogInfo.UncorrectedMismatches;;
          ret (match_op origSeq ct
                 (log_entry (errorEntry (Transcript.QNAME transcript) ID
                               "Mismatch" ct "Uncorrected" "VariantMatch") st))
        else mismatch_to_reference transcript genome ID op ct st
    | None => mismatch_to_reference transcript genome ID op ct st
    end
  else ret (mismatches_rest origSeq op ct st).

(** [any(i in origMD.upper() for i in 'ACTGN')]. *)
Definition has_mismatch_bases (origMD : string) : bool :=
  existsb (fun i => Py.char_in i (Py.upper origMD))
    (list_ascii_of_string "ACTGN").

(** [correctMismatches(transcript, genome, variants, logInfo)],
    lines 969-1059. *)
Definition correctMismatches (transcript : Transcript.t) (genome : Genome)
    (variants : gmap string (list string))
  : M (Transcript.t * list string) :=
  set_counter LogInfo.UncorrectedMismatches 0;;
  set_counter LogInfo.CorrectedMismatches 0;;
  if negb (has_mismatch_bases (Transcript.MD transcript)) then
    ret (transcript, [])
  else
    '(mergeOperations, mergeCounts) ← call (mergeMDwithCIGAR transcript);
    st ← for_each (mismatches_body transcript genome variants)
           (Py.zip mergeOperations mergeCounts)
           (loop_start (Transcript.POS transcript));
    let '(newSeq, newCIGAR) := loop_end st in
    let transcript := Transcript.set_SEQ_CIGAR newSeq newCIGAR transcript in
    '(nm, md) ← call (getNMandMDFlags transcript genome);
    ret (Transcript.set_NM_MD nm md transcript, TE_entries st).

End Correctors.

(** ** Editing a CIGAR around a splice junction *)

(** The variables of the loop of [group_CIGAR_by_exon_and_intron]. *)
Record Grouping := {
  currExonStr : string;
  currExonCIGAR : string;
  currSeqIndex : Z;
  exonSeqs : list string;
  exonCIGARs : list string;
  intronCIGARs : list Z
}.

(** The body of the loop of [group_CIGAR_by_exon_and_intron],
    lines 1266-1278. *)
Definition grouping_body (seq : string) (g : Grouping) (x : string * Z)
  : Grouping :=
  let '(op, ct) := x in
  if String.eqb op "N" then
    {| currExonStr := ""; currExonCIGAR := "";
       currSeqIndex := currSeqIndex g;
       exonSeqs := exonSeqs g ++ [currExonStr g];
       exonCIGARs := exonCIGARs g ++ [currExonCIGAR g];
       intronCIGARs := intronCIGARs g ++ [ct] |}
  else if Py.str_in op ["M"; "S"; "I"] then
    {| currExonStr :=
         currExonStr g
         +:+ Py.slice seq (currSeqIndex g) (currSeqIndex g + ct);
       currExonCIGAR := currExonCIGAR g +:+ Py.str ct +:+ op;
       currSeqIndex := currSeqIndex g + ct;
       exonSeqs := exonSeqs g; exonCIGARs := exonCIGARs g;
       intronCIGARs := intronCIGARs g |}
  else
    {| currExonStr := currExonStr g;
       currExonCIGAR := currExonCIGAR g +:+ Py.str ct +:+ op;
       currSeqIndex := currSeqIndex g;
       exonSeqs := exonSeqs g; exonCIGARs := exonCIGARs g;
       intronCIGARs := intronCIGARs g |}.

(** [group_CIGAR_by_exon_and_intron(CIGAR, seq)], lines 1250-1283:
    [(exonCIGARs, intronCIGARs, exonSeqs)]. *)
Definition group_CIGAR_by_exon_and_intron (CIGAR seq : string)
  : option (list string * list Z * list string) :=
  '(operations, counts) ← Cigar.splitCIGAR CIGAR;
  let g := fold_left (grouping_body seq) (Py.zip operations counts)
             {| currExonStr := ""; currExonCIGAR := ""; currSeqIndex := 0;
                exonSeqs := []; exonCIGARs := []; intronCIGARs := [] |} in
  Some (exonCIGARs g ++ [currExonCIGAR g], intronCIGARs g,
        exonSeqs g ++ [currExonStr g]).

(** The loop of [editExonCIGAR] that takes [abs(nBases)] bases away,
    lines 1393-1406, from the operation it has reached on. A count that the
    loop has not reached is still a number and is written with [str]; one it
    has used up is the empty string, like its operation. *)
Fixpoint take_bases (nBases : Z) (operations : list string) (counts : list Z)
  : option (list string * list string) :=
  match counts with
  | [] => Some (operations, [])
  | ct :: counts' =>
      let remainder := ct - Z.abs nBases in
      if 0 <? remainder then
        Some (operations, Py.str remainder :: map Py.str counts')
      else
        match operations with
        | [] => None
        | _ :: operations' =>
            if remainder =? 0 then
              Some ("" :: operations', "" :: map Py.str counts')
            else
              '(ops, cts) ← take_bases remainder operations' counts';
              Some ("" :: ops, "" :: cts)
        end
  end.

(** [editExonCIGAR(exon, side, nBases)], lines 1375-1415. *)
Definition editExonCIGAR (exon : string) (side nBases : Z) : option string :=
  '(operations, counts) ← Cigar.splitCIGAR exon;
  let operations := if side =? -1 then rev operations else operations in
  let counts := if side =? -1 then rev counts else counts in
  '(operations, counts) ←
    (if 0 <=? nBases then
       op0 ← head operations;
       if String.eqb op0 "M" then
         match counts with
         | [] => None
         | ct0 :: counts' =>
             Some (operations, map Py.str ((ct0 + nBases) :: counts'))
         end
       else Some ("M" :: operations, map Py.str (nBases :: counts))
     else take_bases nBases operations counts);
  let operations := if side =? -1 then rev operations else operations in
  let counts := if side =? -1 then rev counts else counts in
  Some (String.concat ""
          (map (fun '(op, ct) => ct +:+ op) (Py.zip operations counts))).

(** "Paste together the new CIGAR string", lines 1336-1339. *)
Definition paste_CIGAR (exonCIGARs : list string) (intronCIGARs : list Z)
  : option string :=
  parts ← Py.map_raise
            (fun i => e ← exonCIGARs !! i;
                      n ← intronCIGARs !! i;
                      Some (e +:+ Py.str n +:+ "N"))
            (seq 0 (length intronCIGARs));
  e ← last exonCIGARs;
  Some (String.concat "" parts +:+ e).

(** ** Noncanonical splice junction correction *)

(** [fix_one_side_of_junction(chrom, transcript_start, jn_number,
    intronBound, d, genome, seq, oldCIGAR)], lines 1285-1341:
    [(newSeq, newCIGAR)]. The boundary object is shifted in place as soon as
    the exon sequence has been edited, before the CIGAR pieces are. *)
Definition fix_one_side_of_junction (chrom : string) (transcript_start : Z)
    (jn_number : nat) (intronBound : BoundRef) (d : Z) (genome : Genome)
    (seq oldCIGAR : string) : M (string * string) :=
  if d =? 0 then ret (seq, oldCIGAR)
  else
    '(exonCIGARs, intronCIGARs, exonSeqs) ←
      call (group_CIGAR_by_exon_and_intron oldCIGAR seq);
    b ← read_bound intronBound;
    '(exonCIGARs, intronCIGARs, exonSeqs) ←
      (if IntronBound.bound b =? 0 then
         let targetExon := jn_number in
         exon ← call (exonSeqs !! targetExon);
         exonSeqs ←
           (if 0 <? d then
              b ← read_bound intronBound;
              let exonEnd := IntronBound.pos b - 1 in
              refAdd ← call (genome chrom (exonEnd + 1) (exonEnd + d));
              shift_bound intronBound d;;
              ret (<[targetExon := exon +:+ refAdd]> exonSeqs)
            else ret exonSeqs);
         exonSeqs ←
           (if d <? 0 then
              shift_bound intronBound d;;
              ret (<[targetExon := Py.slice exon 0 d]> exonSeqs)
            else ret exonSeqs);
         n ← call (intronCIGARs !! jn_number);
         let intronCIGARs := <[jn_number := n - d]> intronCIGARs in
         e ← call (exonCIGARs !! targetExon);
         e' ← call (editExonCIGAR e (-1) d);
         ret (<[targetExon := e']> exonCIGARs, intronCIGARs, exonSeqs)
       else
         let targetExon := S jn_number in
         exon ← call (exonSeqs !! targetExon);
         exonSeqs ←
           (if d <? 0 then
              b ← read_bound intronBound;
              let exonStart := IntronBound.pos b + 1 in
              refAdd ← call (genome chrom (exonStart - Z.abs d)
                               (exonStart - 1));
              shift_bound intronBound d;;
              ret (<[targetExon := refAdd +:+ exon]> exonSeqs)
            else ret exonSeqs);
         exonSeqs ←
           (if 0 <? d then
              shift_bound intronBound d;;
              ret (<[targetExon := Py.slice_from exon d]> exonSeqs)
            else ret exonSeqs);
         e ← call (exonCIGARs !! targetExon);
         e' ← call (editExonCIGAR e 0 (- d));
         let exonCIGARs := <[targetExon := e']> exonCIGARs in
         n ← call (intronCIGARs !! jn_number);
         ret (exonCIGARs, <[jn_number := n + d]> intronCIGARs, exonSeqs));
    let newSeq := String.concat "" exonSeqs in
    newCIGAR ← call (paste_CIGAR exonCIGARs intronCIGARs);
    ret (newSeq, newCIGAR).

(** [find_closest_bound(sj_bound, ref_bounds)], lines 1122-1139. *)
Definition find_closest_bound (sj_bound : IntronBound.t) (ref_bounds : BedTool)
  : option Closest :=
  ref_bounds sj_bound.

(** [find_closest_ref_junction(junction, ref_donors, ref_acceptors)],
    lines 1141-1153. *)
Definition find_closest_ref_junction (junction : SpliceJunction.t)
    (ref_donors ref_acceptors : BedTool) : option (Closest * Closest) :=
  let donor :=
    SpliceJunction.get_bound (SpliceJunction.get_splice_donor junction)
      junction in
  let acceptor :=
    SpliceJunction.get_bound (SpliceJunction.get_splice_acceptor junction)
      junction in
  closest_ref_donor ← find_closest_bound donor ref_donors;
  closest_ref_acceptor ← find_closest_bound acceptor ref_acceptors;
  Some (closest_ref_donor, closest_ref_acceptor).

Definition all_junctions : M (list SpliceJunction.t) :=
  fun w => (Some (spliceJunctions w), w).

Section SpliceJunctions.
Context {methods : Methods}.

(** [update_post_ncsj_correction(transcript, splice_jn_num, genome,
    sjAnnot)], lines 1156-1169: the junction object is updated in place,
    the transcript it was called on is returned with its new tags. *)
Definition update_post_ncsj_correction (transcript : Transcript.t)
    (splice_jn_num : nat) (genome : Genome) (sjAnnot : gset string)
  : M Transcript.t :=
  _ ← junction splice_jn_num;
  update_junction splice_jn_num SpliceJunction.recheckPosition;;
  j ← junction splice_jn_num;
  j' ← call (checkSpliceMotif j genome sjAnnot);
  update_junction splice_jn_num (fun _ => j');;
  '(nm, md) ← call (getNMandMDFlags transcript genome);
  let transcript := Transcript.set_NM_MD nm md transcript in
  sjs ← all_junctions;
  '(m, i) ← call (get_jM_jI_tags_from_sjs transcript sjs);
  let transcript := Transcript.set_jM_jI m i transcript in
  ret (Transcript.set_isCanonical (Transcript.recheckCanonical sjs)
         transcript).

(** [attempt_jn_correction(transcript, splice_jn_num, genome, ref_donors,
    ref_acceptors, sjAnnot, maxDist)], lines 1171-1217:
    [(Corrected, reason, CombinedDist)], and the transcript object it was
    given as the call leaves it when the junction was corrected (the caller
    drops that object otherwise). *)
Definition attempt_jn_correction (transcript : Transcript.t)
    (splice_jn_num : nat) (genome : Genome) (ref_donors ref_acceptors : BedTool)
    (sjAnnot : gset string) (maxDist : Z)
  : M (Transcript.t * (bool * string * Z)) :=
  junction ← junction splice_jn_num;
  '(ref_donor, ref_acceptor) ←
    call (find_closest_ref_junction junction ref_donors ref_acceptors);
  let combined_dist :=
    Junction.combinedJunctionDist (dist ref_donor) (dist ref_acceptor) in
  if (maxDist <? combined_dist) || (2 * maxDist <? Z.abs (dist ref_donor))
     || (2 * maxDist <? Z.abs (dist ref_acceptor))
  then ret (transcript, (false, "TooFarFromAnnotJn", combined_dist))
  else
    try_except
      (let donor := (splice_jn_num, SpliceJunction.get_splice_donor junction) in
       '(seq, cigar) ←
         fix_one_side_of_junction (Transcript.CHROM transcript)
           (Transcript.POS transcript) splice_jn_num donor (dist ref_donor)
           genome (Transcript.SEQ transcript) (Transcript.CIGAR transcript);
       let transcript := Transcript.set_SEQ_CIGAR seq cigar transcript in
       let acceptor :=
         (splice_jn_num, SpliceJunction.get_splice_acceptor junction) in
       '(seq, cigar) ←
         fix_one_side_of_junction (Transcript.CHROM transcript)
           (Transcript.POS transcript) splice_jn_num acceptor
           (dist ref_acceptor) genome (Transcript.SEQ transcript)
           (Transcript.CIGAR transcript);
       let transcript := Transcript.set_SEQ_CIGAR seq cigar transcript in
       transcript ←
         update_post_ncsj_correction transcript splice_jn_num genome sjAnnot;
       ret (transcript, (true, "NA", combined_dist)))
      (ret (transcript, (false, "Other", combined_dist))).

(** The body of the loop of [cleanNoncanonical], lines 1090-1118; the loop
    variables are the current transcript object and the log lines. *)
Definition cleanNoncanonical_body (refs : Refs) (maxDist : Z)
    (st : Transcript.t * list string) (splice_jn_num : nat)
  : M (Transcript.t * list string) :=
  let '(transcript, TE_entries) := st in
  junction ← junction splice_jn_num;
  if SpliceJunction.isCanonical junction then ret (transcript, TE_entries)
  else
    let temp_transcript := transcript in
    let ID := Py.join "_" [SpliceJunction.chrom junction;
                           Py.str (SpliceJunction.start junction);
                           Py.str (SpliceJunction.end_ junction)] in
    '(temp_transcript, (correction_status, reason, dist)) ←
      attempt_jn_correction temp_transcript splice_jn_num (genome refs)
        (donors refs) (acceptors refs) (sjAnnot refs) maxDist;
    '(transcript, status) ←
      (if (correction_status : bool) then
         incr_counter LogInfo.CorrectedNCSJs;;
         ret (temp_transcript, "Corrected")
       else
         incr_counter LogInfo.UncorrectedNCSJs;;
         ret (transcript, "Uncorrected") : M (Transcript.t * string));
    ret (transcript,
         TE_entries ++ [errorEntry (Transcript.QNAME transcript) ID
                          "NC_SJ_boundary" dist status reason]).

(** [cleanNoncanonical(transcript, refs, maxDist, logInfo)],
    lines 1076-1120. *)
Definition cleanNoncanonical (transcript : Transcript.t) (refs : Refs)
    (maxDist : Z) : M (Transcript.t * list string) :=
  set_counter LogInfo.CorrectedNCSJs 0;;
  set_counter LogInfo.UncorrectedNCSJs 0;;
  if Transcript.isCanonical transcript then ret (transcript, [])
  else
    sjs ← all_junctions;
    for_each (cleanNoncanonical_body refs maxDist) (seq 0 (length sjs))
      (transcript, []).

End SpliceJunctions.

(** ** The per-record orchestrator *)

(** [init_log_info(sam_fields)], lines 1417-1447; [None] when a field is
    missing or the flag is not a number. *)
Definition init_log_info (sam_fields : list string) : option LogInfo.t :=
  transcript_id ← sam_fields !! 0%nat;
  flag ← sam_fields !! 1%nat ≫= Py.int;
  chrom ← sam_fields !! 2%nat;
  let Mapping :=
    if String.eqb chrom "*" || (flag =? 4) then "unmapped"
    else if 16 <? flag then "non-primary"
    else "primary" in
  Some {| LogInfo.TranscriptID := transcript_id;
          LogInfo.Mapping := Mapping;
          LogInfo.corrected_deletions := None;
          LogInfo.uncorrected_deletions := None;
          LogInfo.variant_deletions := None;
          LogInfo.corrected_insertions := None;
          LogInfo.uncorrected_insertions := None;
          LogInfo.variant_insertions := None;
          LogInfo.corrected_mismatches := None;
          LogInfo.uncorrected_mismatches := None;
          LogInfo.corrected_NC_SJs := None;
          LogInfo.uncorrected_NC_SJs := None |}.

Definition problem_parsing (transcript_id : string) : string :=
  "Problem parsing transcript with ID '" +:+ transcript_id +:+ "'".

Definition problem_correcting (qname : string) : string :=
  "Problem encountered while correcting transcript with ID " +:+ qname
  +:+ ". Will output original version.".

Section Orchestrator.
Context {methods : Methods}.

(** [transcript_init(transcript_line, genome, sjAnnot)], lines 263-297: the
    transcript with its junction objects ([None] for the Python [None]), and
    the world the correction starts in. The outer [None] is an exception
    that leaves the function. *)
Definition transcript_init (transcript_line : string) (genome : Genome)
    (sjAnnot : gset string) : option (option Transcript.t * World) :=
  let sam_fields := Py.split_on (ascii_of_nat 9) transcript_line in
  logInfo ← init_log_info sam_fields;
  if negb (String.eqb (LogInfo.Mapping logInfo) "primary") then
    Some (None, {| logInfo := logInfo; spliceJunctions := []; events := [] |})
  else
    match Transcript_new sam_fields genome sjAnnot with
    | Some (transcript, sjs) =>
        Some (Some transcript,
              {| logInfo := logInfo; spliceJunctions := sjs; events := [] |})
    | None =>
        Some (None,
              {| logInfo := logInfo; spliceJunctions := [];
                 events := [Warn (problem_parsing
                                    (LogInfo.TranscriptID logInfo));
                            PrintException] |})
    end.

(** The [try] block of [correct_transcript], lines 373-397: the working
    copy and the log lines gathered. *)
Definition corrections (orig_transcript : Transcript.t) (options : Options)
    (refs : Refs) : M (Transcript.t * list string) :=
  let upd_transcript := orig_transcript in
  let TE_entries : list string := [] in
  '(upd_transcript, TE_entries) ←
    (if String.eqb (mismatchCorrection options) "true" then
       '(upd_transcript, mismatch_TE) ←
         correctMismatches upd_transcript (genome refs) (snps refs);
       ret (upd_transcript, TE_entries ++ mismatch_TE)
     else ret (upd_transcript, TE_entries));
  '(upd_transcript, TE_entries) ←
    (if String.eqb (indelCorrection options) "true" then
       '(upd_transcript, ins_TE) ←
         correctInsertions upd_transcript (genome refs) (insertions refs)
           (maxLenIndel options);
       let TE_entries := TE_entries ++ ins_TE in
       '(upd_transcript, del_TE) ←
         correctDeletions upd_transcript (genome refs) (deletions refs)
           (maxLenIndel options);
       ret (upd_transcript, TE_entries ++ del_TE)
     else ret (upd_transcript, TE_entries));
  if (0 <? Z.of_nat (size (sjAnnot refs)))
     && String.eqb (sjCorrection options) "true"
  then
    '(upd_transcript, ncsj_TE) ←
      cleanNoncanonical upd_transcript refs (maxSJOffset options);
    ret (upd_transcript, TE_entries ++ ncsj_TE)
  else ret (upd_transcript, TE_entries).

(** [correct_transcript(transcript_line, options, refs)], lines 357-409:
    the returned transcript ([None] for the Python [None]) and log lines; the
    returned [logInfo] is the log struct of the final world, which also holds
    the junction objects of the returned transcript and what was written to
    the warning and output streams. [None] is an exception that reaches the
    caller. *)
Definition correct_transcript (transcript_line : string) (options : Options)
    (refs : Refs) : option (option Transcript.t * list string * World) :=
  '(orig_transcript, w) ←
    transcript_init transcript_line (genome refs) (sjAnnot refs);
  match orig_transcript with
  | None => Some (None, [], w)
  | Some orig_transcript =>
      match corrections orig_transcript options refs w with
      | (Some (upd_transcript, TE_entries), w') =>
          Some (Some upd_transcript, TE_entries, w')
      | (None, w') =>
          let w' :=
            snd (emit (Warn (problem_correcting
                               (Transcript.QNAME orig_transcript))) w') in
          let w' := snd (emit PrintException w') in
          Some (Some orig_transcript, [], w')
      end
  end.

End Orchestrator.

(** ** The variant catalog *)

(** The three dictionaries [processVCF] fills. *)
Record Catalog := {
  SNPs : gmap string (list string);
  cat_insertions : gmap string (list string);
  cat_deletions : gmap string Z
}.

(** [d[ID] = [allele]] or [d[ID].append(allele)]. *)
Definition add_allele (ID allele : string) (d : gmap string (list string))
  : gmap string (list string) :=
  match d !! ID with
  | None => <[ID := [allele]]> d
  | Some l => <[ID := l ++ [allele]]> d
  end.

(** The body of the loop over the alternate alleles of one VCF line in
    [processVCF], lines 725-755. *)
Definition processVCF_allele (maxLen : Z) (chrom : string) (pos : Z)
    (ref : string) (c : Catalog) (allele : string) : Catalog :=
  let refLen := Py.len ref in
  let altLen := Py.len allele in
  if (refLen =? altLen) && (altLen =? 1) then
    let ID := chrom +:+ "_" +:+ Py.str pos in
    {| SNPs := add_allele ID allele (SNPs c);
       cat_insertions := cat_insertions c; cat_deletions := cat_deletions c |}
  else
    let size := Z.abs (refLen - altLen) in
    if maxLen <? size then c
    else
      let actPos := pos + 1 in
      let allele := Py.slice_from allele 1 in
      let ID := Py.join "_" [chrom; Py.str actPos;
                             Py.str (actPos + size - 1)] in
      if refLen - altLen <? 0 then
        {| SNPs := SNPs c;
           cat_insertions := add_allele ID allele (cat_insertions c);
           cat_deletions := cat_deletions c |}
      else if 0 <? refLen - altLen then
        {| SNPs := SNPs c; cat_insertions := cat_insertions c;
           cat_deletions := <[ID := 1]> (cat_deletions c) |}
      else c.

(** ** Reading the variant file *)

(** [s.startswith(prefix)]. *)
Definition startswith (s prefix : string) : bool := String.prefix prefix s.

(** One turn of the loop over the lines of the filtered VCF file in
    [processVCF], lines 710-755; [None] when a field is missing or the
    position is not a number. *)
Definition processVCF_line (maxLen : Z) (c : Catalog) (line : string)
  : option Catalog :=
  let line := Py.strip line in
  if startswith line "#" then Some c
  else
    let fields := Py.split line in
    chrom ← fields !! 0%nat;
    pos ← fields !! 1%nat ≫= Py.int;
    ref ← fields !! 3%nat;
    alt ← Py.split_on "," <$> fields !! 4%nat;
    Some (fold_left (processVCF_allele maxLen chrom pos ref) alt c).

(** The loop over the lines of the filtered VCF file, lines 709-757. *)
Fixpoint processVCF_lines (maxLen : Z) (c : Catalog) (lines : list string)
  : option Catalog :=
  match lines with
  | [] => Some c
  | line :: lines' =>
      c' ← processVCF_line maxLen c line;
      processVCF_lines maxLen c' lines'
  end.

(** ** Where a CIGAR operation lies *)

(** The read bases and the reference positions the correctors' loops step
    over at one operation: [seqPos] advances at M, I and S, [genomePos] at
    M, D, N and H. *)
Definition read_step (x : string * Z) : Z :=
  if Py.str_in (fst x) ["M"; "I"; "S"] then snd x else 0.

Definition reference_step (x : string * Z) : Z :=
  if Py.str_in (fst x) ["M"; "D"; "N"; "H"] then snd x else 0.

Definition read_consumed (l : list (string * Z)) : Z :=
  foldr (fun x n => read_step x + n) 0 l.

Definition reference_consumed (l : list (string * Z)) : Z :=
  foldr (fun x n => reference_step x + n) 0 l.

(** The inserted bases at read offset [p] match a cataloged allele of the
    span that starts at genome position [g]. *)
Definition insertion_in_catalog (transcript : Transcript.t)
    (variants : gmap string (list string)) (p g L : Z) : bool :=
  match variants !! span_ID (Transcript.CHROM transcript) g L with
  | Some alleles =>
      Py.str_in (Py.slice (Transcript.SEQ transcript) p (p + L)) alleles
  | None => false
  end.

(** The operation [x], at read offset [p] and genome position [g], is an
    Insertion run within the size bound that is not in the catalog. *)
Definition correctable_insertion (transcript : Transcript.t)
    (variants : gmap string (list string)) (maxLen p g : Z)
    (x : string * Z) : bool :=
  String.eqb (fst x) "I" && (snd x <=? maxLen)
  && negb (insertion_in_catalog transcript variants p g (snd x)).

(** The total length of the Insertion runs of [l] that are within the size
    bound and not in the catalog, [l] starting at read offset [p] and genome
    position [g]. *)
Fixpoint correctable_insertions (transcript : Transcript.t)
    (variants : gmap string (list string)) (maxLen p g : Z)
    (l : list (string * Z)) : Z :=
  match l with
  | [] => 0
  | x :: l' =>
      (if correctable_insertion transcript variants maxLen p g x
       then snd x else 0)
      + correctable_insertions transcript variants maxLen
          (p + read_step x) (g + reference_step x) l'
  end.

(** *** What insertion correction is to produce

    The specification of insertion correction, written over the list of
    operations: an Insertion run that is within the size bound and not in
    the catalog disappears with its bases; every other operation the
    correctors know (M, I, S, N, H, D) stays, adjacent matches run
    together. *)

(** Writing one operation to a CIGAR under construction: a pending match
    length and the text so far. *)
Definition write_op (acc : Z * string) (x : string * Z) : Z * string :=
  if String.eqb (fst x) "M" then (fst acc + snd x, snd acc)
  else
    let '(MVal, text) := Cigar.endMatch (fst acc) (snd acc) in
    (MVal, text +:+ Py.str (snd x) +:+ fst x).

(** The CIGAR string of a list of operations, adjacent matches merged. *)
Definition cigar_of (l : list (string * Z)) : string :=
  let acc := fold_left write_op l (0, "") in
  snd (Cigar.endMatch (fst acc) (snd acc)).

Definition known_op (x : string * Z) : bool :=
  Py.str_in (fst x) ["M"; "I"; "S"; "N"; "H"; "D"].

Definition read_op (x : string * Z) : bool :=
  Py.str_in (fst x) ["M"; "I"; "S"].

(** The operations that are left after insertion correction. *)
Fixpoint insertions_kept_ops (transcript : Transcript.t)
    (variants : gmap string (list string)) (maxLen p g : Z)
    (l : list (string * Z)) : list (string * Z) :=
  match l with
  | [] => []
  | x :: l' =>
      (if known_op x
          && negb (correctable_insertion transcript variants maxLen p g x)
       then [x] else [])
      ++ insertions_kept_ops transcript variants maxLen
           (p + read_step x) (g + reference_step x) l'
  end.

(** The bases that are left after insertion correction. *)
Fixpoint insertions_kept_bases (transcript : Transcript.t)
    (variants : gmap string (list string)) (maxLen p g : Z)
    (l : list (string * Z)) : string :=
  match l with
  | [] => ""
  | x :: l' =>
      (if read_op x
          && negb (correctable_insertion transcript variants maxLen p g x)
       then Py.slice (Transcript.SEQ transcript) p (p + snd x) else "")
      +:+ insertions_kept_bases transcript variants maxLen
            (p + read_step x) (g + reference_step x) l'
  end.

(** The log line of an indel run of length [ct] at genome position [g]. *)
Definition indel_entry (transcript : Transcript.t) (kind : string) (g ct : Z)
    (status reason : string) : string :=
  errorEntry (Transcript.QNAME transcript)
    (span_ID (Transcript.CHROM transcript) g ct) kind ct status reason.

(** The operation [x], at genome position [g], is a Deletion run within the
    size bound whose span is not in the catalog. *)
Definition correctable_deletion (chrom : string) (variants : gmap string Z)
    (maxLen g : Z) (x : string * Z) : bool :=
  String.eqb (fst x) "D" && (snd x <=? maxLen)
  && negb (bool_decide (is_Some (variants !! span_ID chrom g (snd x)))).

(** The total length of the Deletion runs of [l] that are within the size
    bound and not in the catalog, [l] starting at genome position [g]. *)
Fixpoint correctable_deletions (chrom : string) (variants : gmap string Z)
    (maxLen g : Z) (l : list (string * Z)) : Z :=
  match l with
  | [] => 0
  | x :: l' =>
      (if correctable_deletion chrom variants maxLen g x then snd x else 0)
      + correctable_deletions chrom variants maxLen
          (g + reference_step x) l'
  end.

(** The log lines of insertion correction: one per Insertion run. *)
Definition insertion_log_line (transcript : Transcript.t)
    (variants : gmap string (list string)) (maxLen p g : Z)
    (x : string * Z) : list string :=
  if String.eqb (fst x) "I" then
    [if snd x <=? maxLen then
       if insertion_in_catalog transcript variants p g (snd x)
       then indel_entry transcript "Insertion" g (snd x)
              "Uncorrected" "VariantMatch"
       else indel_entry transcript "Insertion" g (snd x) "Corrected" "NA"
     else indel_entry transcript "Insertion" g (snd x)
            "Uncorrected" "TooLarge"]
  else [].

Fixpoint insertions_log (transcript : Transcript.t)
    (variants : gmap string (list string)) (maxLen p g : Z)
    (l : list (string * Z)) : list string :=
  match l with
  | [] => []
  | x :: l' =>
      insertion_log_line transcript variants maxLen p g x
      ++ insertions_log transcript variants maxLen
           (p + read_step x) (g + reference_step x) l'
  end.

(** *** What deletion correction is to produce

    A Deletion run that is within the size bound and not in the catalog
    becomes a Match over the reference bases of its span; every other
    operation the correctors know stays. The reference is read for every
    Deletion run within the size bound (also for one that is in the catalog),
    and the correction raises when that lookup does. *)

Definition deletion_result_op (chrom : string) (variants : gmap string Z)
    (maxLen g : Z) (x : string * Z) : list (string * Z) :=
  if correctable_deletion chrom variants maxLen g x then [("M", snd x)]
  else if known_op x then [x] else [].

Fixpoint deletions_result_ops (chrom : string) (variants : gmap string Z)
    (maxLen g : Z) (l : list (string * Z)) : list (string * Z) :=
  match l with
  | [] => []
  | x :: l' =>
      deletion_result_op chrom variants maxLen g x
      ++ deletions_result_ops chrom variants maxLen (g + reference_step x) l'
  end.

(** The bases one operation contributes; [None] when the reference lookup
    raises. *)
Definition deletion_result_bases (genome : Genome) (transcript : Transcript.t)
    (variants : gmap string Z) (maxLen p g : Z) (x : string * Z)
  : option string :=
  let chrom := Transcript.CHROM transcript in
  if String.eqb (fst x) "D" then
    if snd x <=? maxLen then
      refBases ← genome chrom g (g + snd x - 1);
      Some (if correctable_deletion chrom variants maxLen g x
            then refBases else "")
    else Some ""
  else if read_op x
  then Some (Py.slice (Transcript.SEQ transcript) p (p + snd x))
  else Some "".

Fixpoint deletions_result_bases (genome : Genome) (transcript : Transcript.t)
    (variants : gmap string Z) (maxLen p g : Z) (l : list (string * Z))
  : option string :=
  match l with
  | [] => Some ""
  | x :: l' =>
      b ← deletion_result_bases genome transcript variants maxLen p g x;
      bs ← deletions_result_bases genome transcript variants maxLen
             (p + read_step x) (g + reference_step x) l';
      Some (b +:+ bs)
  end.

(** The log lines of deletion correction: one per Deletion run. *)
Definition deletion_log_line (transcript : Transcript.t)
    (variants : gmap string Z) (maxLen g : Z) (x : string * Z) : list string :=
  if String.eqb (fst x) "D" then
    [if snd x <=? maxLen then
       if bool_decide
            (is_Some (variants
                      !! span_ID (Transcript.CHROM transcript) g (snd x)))
       then indel_entry transcript "Deletion" g (snd x)
              "Uncorrected" "VariantMatch"
       else indel_entry transcript "Deletion" g (snd x) "Corrected" "NA"
     else indel_entry transcript "Deletion" g (snd x)
            "Uncorrected" "TooLarge"]
  else [].

Fixpoint deletions_log (transcript : Transcript.t) (variants : gmap string Z)
    (maxLen g : Z) (l : list (string * Z)) : list string :=
  match l with
  | [] => []
  | x :: l' =>
      deletion_log_line transcript variants maxLen g x
      ++ deletions_log transcript variants maxLen (g + reference_step x) l'
  end.

(** The contract of the genome accessor: a lookup that returns gives the
    bases of the inclusive span asked for. *)
Definition spans (genome : Genome) : Prop :=
  forall chrom a b bases,
    genome chrom a b = Some bases -> Py.len bases = b - a + 1.

(** The closest annotated junction is too far: the combined offset is above
    the maximum, or the magnitude of one offset is above twice the
    maximum. *)
Definition too_far (maxDist d_donor d_acceptor : Z) : Prop :=
  maxDist < Junction.combinedJunctionDist d_donor d_acceptor
  \/ 2 * maxDist < Z.abs d_donor
  \/ 2 * maxDist < Z.abs d_acceptor.

(** A computation that writes to nothing but the log struct: the junction
    objects and the two streams are as before, whether it returns or
    raises. *)
Definition log_only {A} (m : M A) : Prop :=
  forall w, spliceJunctions (snd (m w)) = spliceJunctions w
            /\ events (snd (m w)) = events w.

(** ** Written CIGARs and what a junction attempt may write *)

(** The text of a list of operations, each written as its count and its
    letter, the way the program writes a CIGAR ([str(ct) + op]). *)
Definition cigar_text (l : list (string * Z)) : string :=
  foldr (fun x text => Py.str (snd x) +:+ fst x +:+ text) "" l.

(** An operation as a CIGAR has it: one capital letter and a count that is
    not negative. *)
Definition plain_op (x : string * Z) : bool :=
  match fst x with
  | String c EmptyString => Py.is_upper c && (0 <=? snd x)
  | _ => false
  end.

(** A computation that writes to no object but the junction object number
    [n]: the log struct, the two streams, the number of junction objects and
    every other junction object are as before, whether it returns or
    raises. *)
Definition junction_only {A} (n : nat) (m : M A) : Prop :=
  forall w,
    logInfo (snd (m w)) = logInfo w
    /\ events (snd (m w)) = events w
    /\ length (spliceJunctions (snd (m w))) = length (spliceJunctions w)
    /\ forall k, k <> n ->
         spliceJunctions (snd (m w)) !! k = spliceJunctions w !! k.

(** ** The validator's rules, as the specification words them *)

Module Rules.

(** "Skip immediately preceded by Deletion, or Skip not immediately followed
    by Match", read over the operations in order: a Skip at the end of the
    CIGAR is not followed by a Match. *)
Fixpoint skip_rules_broken (operations : list string) : bool :=
  match operations with
  | [] => false
  | op :: rest =>
      String.eqb op "N" && negb (bool_decide (head rest = Some "M"))
      || String.eqb op "D" && bool_decide (head rest = Some "N")
      || skip_rules_broken rest
  end.

(** The rules over pairs of neighbouring operations only: a Skip followed by
    an operation that is not a Match, or a Deletion followed by a Skip. *)
Fixpoint neighbour_rules_broken (operations : list string) : bool :=
  match operations with
  | [] => false
  | a :: rest =>
      match rest with
      | [] => false
      | b :: _ =>
          String.eqb a "N" && negb (String.eqb b "M")
          || String.eqb a "D" && String.eqb b "N"
          || neighbour_rules_broken rest
      end
  end.

End Rules.

(** ** The line of the transcript log *)

(** [str(x)] of a counter of the log struct: a number, or the string it was
    initialised to. *)
Definition str_counter (c : option Z) : string :=
  match c with
  | Some n => Py.str n
  | None => "NA"
  end.

(** [create_log_string(logInfo)], lines 1449-1462. *)
Definition create_log_string (logInfo : LogInfo.t) : string :=
  let log_strings :=
    [LogInfo.TranscriptID logInfo; LogInfo.Mapping logInfo;
     str_counter (LogInfo.corrected_deletions logInfo);
     str_counter (LogInfo.uncorrected_deletions logInfo);
     str_counter (LogInfo.variant_deletions logInfo);
     str_counter (LogInfo.corrected_insertions logInfo);
     str_counter (LogInfo.uncorrected_insertions logInfo);
     str_counter (LogInfo.variant_insertions logInfo);
     str_counter (LogInfo.corrected_mismatches logInfo);
     str_counter (LogInfo.uncorrected_mismatches logInfo);
     str_counter (LogInfo.corrected_NC_SJs logInfo);
     str_counter (LogInfo.uncorrected_NC_SJs logInfo)] in
  Py.join Py.tab log_strings.

(** ** Splitting the input between processes *)

(** How a call that contains a [while] loop ends: it returns, it raises, or
    it is still running when the steps counted in [fuel] are used up. *)
Inductive Run (A : Type) : Type :=
  | Returned (a : A)
  | Raised
  | Unfinished.
Arguments Returned {A} a.
Arguments Raised {A}.
Arguments Unfinished {A}.

(** [l[i:j]] for a list. *)
Definition list_slice {A} (l : list A) (i j : Z) : list A :=
  let a := Py.clamp (Z.of_nat (length l)) i in
  let b := Py.clamp (Z.of_nat (length l)) j in
  take (Z.to_nat (b - a)) (drop (Z.to_nat a) l).

(** [ceil(a / n)] for two integers, [None] when [n] is zero
    ([ZeroDivisionError]). Python divides in double precision, which gives
    this value for operands below [2^53]. *)
Definition ceil_div (a n : Z) : option Z :=
  if n =? 0 then None else Some (- ((- a) / n)).

(** The [while] loop of [split_input], lines 466-472. The slice cannot
    raise, so the [except] branch is never taken. *)
Fixpoint split_loop {A} (fuel : nat) (my_list : list A) (batch_size index : Z)
    (chunks : list (list A)) : Run (list (list A)) :=
  match fuel with
  | O => Unfinished
  | S fuel' =>
      if index <? Z.of_nat (length my_list) then
        let batch := list_slice my_list index (index + batch_size) in
        split_loop fuel' my_list batch_size (index + batch_size)
          (chunks ++ [batch])
      else Returned chunks
  end.

(** [split_input(my_list, n)], lines 460-474. *)
Definition split_input {A} (fuel : nat) (my_list : list A) (n : Z)
  : Run (list (list A)) :=
  match ceil_div (Z.of_nat (length my_list)) n with
  | None => Raised
  | Some batch_size => split_loop fuel my_list batch_size 0 []
  end.

(** The loop of [main] that starts the processes, lines 41-49, over
    [range(n_cpus)]: process [i] is given [sam_chunks[i]], which raises
    [IndexError] when there is no such chunk. Whether the loop ended, and
    the chunks given to the processes that were started. *)
Fixpoint main_loop {A} (sam_chunks : list (list A)) (range : list nat)
    (processes : list (list A)) : option unit * list (list A) :=
  match range with
  | [] => (Some tt, processes)
  | i :: range' =>
      match sam_chunks !! i with
      | Some chunk => main_loop sam_chunks range' (processes ++ [chunk])
      | None => (None, processes)
      end
  end.

(** [main], lines 36-49, from the transcript lines of [split_SAM] and the
    number of processors on: the chunks are made and the processes
    started. *)
Definition main_start {A} (fuel : nat) (sam_lines : list A) (n_cpus : Z)
  : Run unit * list (list A) :=
  match split_input fuel sam_lines n_cpus with
  | Returned sam_chunks =>
      match main_loop sam_chunks (seq 0 (Z.to_nat n_cpus)) [] with
      | (Some _, processes) => (Returned tt, processes)
      | (None, processes) => (Raised, processes)
      end
  | Raised => (Raised, [])
  | Unfinished => (Unfinished, [])
  end.

(** ** Reading the SAM file *)

(** How [validate_chroms] ends: it returns, a line has no third field
    ([IndexError]), or a chromosome is not in the reference
    ([ValueError]). *)
Inductive ChromCheck := ChromsOk | LineTooShort | ChromsUnknown.

(** The loop of [validate_chroms] over the lines of the SAM file,
    lines 419-425: the set of chromosome names read so far. *)
Fixpoint sam_chromosomes (lines : list string) (sam_chroms : gset string)
  : option (gset string) :=
  match lines with
  | [] => Some sam_chroms
  | line :: lines' =>
      let line := Py.strip line in
      if startswith line "@" then sam_chromosomes lines' sam_chroms
      else
        chrom ← Py.split_on (ascii_of_nat 9) line !! 2%nat;
        sam_chromosomes lines' (sam_chroms ∪ {[chrom]})
  end.

(** [validate_chroms(genome_file, sam)], lines 411-443, on the set of the
    names of the reference and the lines of the SAM file. *)
Definition validate_chroms (fasta_chroms : gset string) (sam : list string)
  : ChromCheck :=
  match sam_chromosomes sam ∅ with
  | None => LineTooShort
  | Some sam_chroms =>
      let sam_chroms :=
        if bool_decide ("*" ∈ sam_chroms) then sam_chroms ∖ {["*"]}
        else sam_chroms in
      if bool_decide (sam_chroms ⊆ fasta_chroms) then ChromsOk
      else ChromsUnknown
  end.

(** [split_SAM(samFile)], lines 445-458, on the lines of the file:
    [(header, transcript_lines)]. *)
Definition split_SAM (samFile : list string) : list string * list string :=
  fold_left
    (fun '(header, transcript_lines) line =>
       let line := Py.strip line in
       if startswith line "@" then (header ++ [line], transcript_lines)
       else (header, transcript_lines ++ [line]))
    samFile ([], []).

Definition newline : string := String (ascii_of_nat 10) EmptyString.

(** The second loop of [create_tmp_sam], lines 225-227: each transcript is
    written to the file [f] and then its third field is added to [chroms];
    a transcript without a third field raises once it is written. *)
Fixpoint create_tmp_sam_loop (transcripts : list string) (f : list string)
    (chroms : gset string) : option (gset string) * list string :=
  match transcripts with
  | [] => (Some chroms, f)
  | transcript :: transcripts' =>
      let f := f ++ [transcript +:+ newline] in
      match Py.split_on (ascii_of_nat 9) transcript !! 2%nat with
      | Some chrom => create_tmp_sam_loop transcripts' f (chroms ∪ {[chrom]})
      | None => (None, f)
      end
  end.

(** [create_tmp_sam(sam_header, transcripts, tmp_dir, process)],
    lines 211-230: the name of the file with the chromosomes of the
    transcripts, and what was written to the file. *)
Definition create_tmp_sam (sam_header transcripts : list string)
    (tmp_dir process : string) : option (string * gset string) * list string :=
  let sam_dir := tmp_dir +:+ "split_uncorr_sams/" in
  let sam_name := sam_dir +:+ process +:+ ".sam" in
  let f := map (fun item => item +:+ newline) sam_header in
  match create_tmp_sam_loop transcripts f ∅ with
  | (Some chroms, f) => (Some (sam_name, chroms), f)
  | (None, f) => (None, f)
  end.

(** ** Reading the splice junction file *)

(** The two files that [processSpliceAnnotation] writes. *)
Inductive SpliceFile := Donors | Acceptors.

(** What the loop of [processSpliceAnnotation] has made so far: the lines
    written to the two files, the set of annotated junctions, and the files
    that the names [file1] and [file2] are bound to. The two names are
    bound in the loop body, for a junction with a strand only, and stay
    bound from one line to the next. *)
Record SpliceAnnotation := {
  o_donor : list string;
  o_acceptor : list string;
  annot : gset string;
  file1 : option SpliceFile;
  file2 : option SpliceFile
}.

Definition set_files (f1 f2 : SpliceFile) (a : SpliceAnnotation)
  : SpliceAnnotation :=
  {| o_donor := o_donor a; o_acceptor := o_acceptor a; annot := annot a;
     file1 := Some f1; file2 := Some f2 |}.

(** [f.write(s)]. *)
Definition write_bed (f : SpliceFile) (s : string) (a : SpliceAnnotation)
  : SpliceAnnotation :=
  match f with
  | Donors =>
      {| o_donor := o_donor a ++ [s]; o_acceptor := o_acceptor a;
         annot := annot a; file1 := file1 a; file2 := file2 a |}
  | Acceptors =>
      {| o_donor := o_donor a; o_acceptor := o_acceptor a ++ [s];
         annot := annot a; file1 := file1 a; file2 := file2 a |}
  end.

(** [annot.add(junction)]. *)
Definition add_junction (junction : string) (a : SpliceAnnotation)
  : SpliceAnnotation :=
  {| o_donor := o_donor a; o_acceptor := o_acceptor a;
     annot := annot a ∪ {[junction]}; file1 := file1 a; file2 := file2 a |}.

(** The lines written to one of the two files. *)
Definition file_of (f : SpliceFile) (a : SpliceAnnotation) : list string :=
  match f with Donors => o_donor a | Acceptors => o_acceptor a end.

Definition other (f : SpliceFile) : SpliceFile :=
  match f with Donors => Acceptors | Acceptors => Donors end.

(** The strand of a line, lines 596-598, from its fourth field. *)
Definition strand_of (field : string) : string :=
  let strand := "." in
  let strand := if String.eqb field "1" then "+" else strand in
  if String.eqb field "2" then "-" else strand.

(** The BED entry of one end of a junction, lines 620-621. *)
Definition bed_entry (chrom : string) (pos : Z) (strand : string) : string :=
  Py.join Py.tab [chrom; Py.str (pos - 1); Py.str pos; "."; "name"; strand].

(** The name of a junction in the set of annotated junctions,
    lines 627-628. *)
Definition junction_key (chrom : string) (start end_ : Z) (strand : string)
  : string :=
  Py.join "_" [chrom; Py.str start; strand] +:+ ","
  +:+ Py.join "_" [chrom; Py.str end_; strand].

(** The body of the loop of [processSpliceAnnotation], lines 588-629, for
    one line of the junction file; [None] when it raises. *)
Definition processSpliceAnnotation_line (read_chroms : gset string)
    (a : SpliceAnnotation) (line : string) : option SpliceAnnotation :=
  let fields := Py.split_on (ascii_of_nat 9) (Py.strip line) in
  chrom ← fields !! 0%nat;
  if bool_decide (chrom ∉ read_chroms) then Some a
  else
    start ← fields !! 1%nat ≫= Py.int;
    end_ ← fields !! 2%nat ≫= Py.int;
    strand ← strand_of <$> fields !! 3%nat;
    intronMotif ← fields !! 4%nat ≫= Py.int;
    annotated ← fields !! 5%nat ≫= Py.int;
    uniqueReads ← fields !! 6%nat;
    multiReads ← fields !! 7%nat;
    maxOverhang ← fields !! 8%nat;
    let a :=
      if String.eqb strand "+" then set_files Donors Acceptors a
      else if String.eqb strand "-" then set_files Acceptors Donors a
      else a in
    let bed1 := bed_entry chrom start strand in
    let bed2 := bed_entry chrom end_ strand in
    f1 ← file1 a;
    let a := write_bed f1 (bed1 +:+ newline) a in
    f2 ← file2 a;
    let a := write_bed f2 (bed2 +:+ newline) a in
    Some (add_junction (junction_key chrom start end_ strand) a).

Fixpoint processSpliceAnnotation_lines (read_chroms : gset string)
    (a : SpliceAnnotation) (lines : list string) : option SpliceAnnotation :=
  match lines with
  | [] => Some a
  | line :: lines' =>
      a ← processSpliceAnnotation_line read_chroms a line;
      processSpliceAnnotation_lines read_chroms a lines'
  end.

(** [processSpliceAnnotation(annotFile, tmp_dir, read_chroms, process)],
    lines 572-648, on the lines of the junction file: the lines of the two
    files before they are sorted and made into [BedTool] objects, the set
    of annotated junctions, and whether the warning about a reference
    without donors or acceptors is given. Sorting the files and dropping
    repeated lines does not make a file empty or an empty file longer. *)
Definition processSpliceAnnotation (annotFile : list string)
    (read_chroms : gset string) : option (SpliceAnnotation * bool) :=
  a ← processSpliceAnnotation_lines read_chroms
         {| o_donor := []; o_acceptor := []; annot := ∅;
            file1 := None; file2 := None |} annotFile;
  Some (a, bool_decide (length (o_donor a) = 0%nat)
           || bool_decide (length (o_acceptor a) = 0%nat)).

(** ** Writing the records of a batch *)

(** The two methods of [Transcript] that [batch_correct] calls and whose
    code is not among the sources: the SAM line and the FASTA entry of a
    transcript, read off the transcript and its junction objects; each can
    raise. *)
Class Printing := {
  (** [transcript.printableSAM()]. *)
  printableSAM : Transcript.t -> list SpliceJunction.t -> option string;
  (** [transcript.printableFa()]. *)
  printableFa : Transcript.t -> list SpliceJunction.t -> option string
}.

(** The four output files of a process, each as the list of the strings
    written to it. *)
Record Outfiles := {
  outSam : list string;
  outFa : list string;
  tL : list string;
  tE : list string
}.

(** The line buffers and the counter of [batch_correct]. *)
Record Batch := {
  sam_lines : list string;
  log_lines : list string;
  fasta_lines : list string;
  TE_log_lines : list string;
  counter : Z
}.

Section BatchCorrect.
Context {methods : Methods} {printing : Printing}.

(** One turn of the loop of [batch_correct] up to the test of the counter,
    lines 316-334: the lines added to the buffers. [primaryOnly] is
    [options.primaryOnly], which the option parser leaves at [None] when the
    flag is not given. [None] when [correct_transcript] or a printing method
    raises. *)
Definition batch_turn (options : Options) (primaryOnly : option bool)
    (refs : Refs) (b : Batch) (transcript_line : string) : option Batch :=
  '(transcript, TE_entries, w) ← correct_transcript transcript_line options refs;
  match transcript with
  | None =>
      Some {| sam_lines :=
                if bool_decide (primaryOnly = Some false)
                then sam_lines b ++ [transcript_line] else sam_lines b;
              log_lines := log_lines b ++ [create_log_string (logInfo w)];
              fasta_lines := fasta_lines b;
              TE_log_lines := TE_log_lines b;
              counter := counter b |}
  | Some transcript =>
      sam ← printableSAM transcript (spliceJunctions w);
      fa ← printableFa transcript (spliceJunctions w);
      Some {| sam_lines := sam_lines b ++ [sam];
              log_lines := log_lines b ++ [create_log_string (logInfo w)];
              fasta_lines := fasta_lines b ++ [fa];
              TE_log_lines := TE_log_lines b ++ TE_entries;
              counter := counter b |}
  end.

(** The loop of [batch_correct], lines 315-348. When the counter is above
    [n] the three first buffers are written out and then the name [curr_TE],
    which is bound nowhere, is looked up: the function raises with those
    three writes done. *)
Fixpoint batch_loop (options : Options) (primaryOnly : option bool)
    (refs : Refs) (n : Z) (sam_transcripts : list string) (b : Batch)
    (o : Outfiles) : option Batch * Outfiles :=
  match sam_transcripts with
  | [] => (Some b, o)
  | transcript_line :: rest =>
      match batch_turn options primaryOnly refs b transcript_line with
      | None => (None, o)
      | Some b =>
          if n <? counter b then
            (None,
             {| outSam := outSam o ++ [Py.join newline (sam_lines b)];
                outFa := outFa o ++ [Py.join newline (fasta_lines b)];
                tL := tL o ++ [Py.join newline (log_lines b)];
                tE := tE o |})
          else
            batch_loop options primaryOnly refs n rest
              {| sam_lines := sam_lines b; log_lines := log_lines b;
                 fasta_lines := fasta_lines b;
                 TE_log_lines := TE_log_lines b;
                 counter := counter b + 1 |} o
      end
  end.

(** [batch_correct(sam_transcripts, options, refs, outfiles, n)],
    lines 299-355: whether it returned, and the files as it leaves them. *)
Definition batch_correct (sam_transcripts : list string) (options : Options)
    (primaryOnly : option bool) (refs : Refs) (outfiles : Outfiles) (n : Z)
  : option unit * Outfiles :=
  match batch_loop options primaryOnly refs n sam_transcripts
          {| sam_lines := []; log_lines := []; fasta_lines := [];
             TE_log_lines := []; counter := 0 |} outfiles with
  | (Some b, o) =>
      (Some tt,
       {| outSam := outSam o ++ [Py.join newline (sam_lines b)];
          outFa := outFa o ++ [Py.join newline (fasta_lines b)];
          tL := tL o ++ [Py.join newline (log_lines b)];
          tE := tE o ++ [Py.join newline (TE_log_lines b)] |})
  | (None, o) => (None, o)
  end.

(** The call of [batch_correct] in [run_chunk], line 487-488, with
    [n = int(len(transcripts)/100)]. *)
Definition run_chunk_batch (transcripts : list string) (options : Options)
    (primaryOnly : option bool) (refs : Refs) (outfiles : Outfiles)
  : option unit * Outfiles :=
  let n := Z.of_nat (length transcripts) / 100 in
  batch_correct transcripts options primaryOnly refs outfiles n.

End BatchCorrect.

(** ** A small reference and a stand-in for the missing methods

    Used to run the program on concrete records. *)

Module Sample.

(** One chromosome of 36 bases: exons at 1-5, 15-22 and 33-36, introns at
    6-14 and 23-32, both with the motif GT..AG. *)
Definition chr1 : string := "ACGTAGTCCCCCAGTTTTGGGGGTAAAAAAAGCCCC".

Definition fasta : Genome := fun chrom a b =>
  if String.eqb chrom "chr1" && (1 <=? a) && (a <=? b) && (b <=? Py.len chr1)
  then Some (Py.slice chr1 (a - 1) b)
  else None.

(** The closest of a list of annotated positions, the first one on a tie;
    the distance is the annotated position less the observed one. *)
Definition nearest (annotated : list Z) : BedTool := fun b =>
  let better r best :=
    match best with
    | Some r' =>
        if Z.abs (r - IntronBound.pos b) <=? Z.abs (r' - IntronBound.pos b)
        then Some r else Some r'
    | None => Some r
    end in
  r ← foldr better None annotated;
  Some {| closest_chrom := "chr1"; closest_start := r - 1; closest_end := r;
          dist := r - IntronBound.pos b |}.

Definition motif_ok (g : Genome) (chrom : string) (a b : Z) (strand : string)
  : option bool :=
  five ← g chrom a (a + 1);
  three ← g chrom (b - 1) b;
  Some (if String.eqb strand "+"
        then String.eqb five "GT" && String.eqb three "AG"
        else String.eqb five "CT" && String.eqb three "AC").

Definition junction_ID (chrom : string) (a b : Z) (strand : string) : string :=
  Py.join "_" [chrom; Py.str a; strand] +:+ ","
  +:+ Py.join "_" [chrom; Py.str b; strand].

(** The junctions of a CIGAR: one per N operation. *)
Fixpoint junctions_from (g : Genome) (annot : gset string)
    (chrom strand : string) (genomePos : Z) (l : list (string * Z))
  : option (list SpliceJunction.t) :=
  match l with
  | [] => Some []
  | (op, ct) :: l' =>
      if String.eqb op "N" then
        let a := genomePos in
        let b := genomePos + ct - 1 in
        ok ← motif_ok g chrom a b strand;
        rest ← junctions_from g annot chrom strand (genomePos + ct) l';
        Some ({| SpliceJunction.chrom := chrom;
                 SpliceJunction.start := a;
                 SpliceJunction.end_ := b;
                 SpliceJunction.strand := strand;
                 SpliceJunction.left :=
                   {| IntronBound.bound := 0; IntronBound.pos := a |};
                 SpliceJunction.right :=
                   {| IntronBound.bound := 1; IntronBound.pos := b |};
                 SpliceJunction.isCanonical :=
                   ok || bool_decide (junction_ID chrom a b strand ∈ annot) |}
              :: rest)
      else
        junctions_from g annot chrom strand
          (genomePos + reference_step (op, ct)) l'
  end.

Definition is_MD_tag (field : string) : bool :=
  String.eqb (Py.slice field 0 5) "MD:Z:".

Definition new (sam_fields : list string) (g : Genome) (annot : gset string)
  : option (Transcript.t * list SpliceJunction.t) :=
  qname ← sam_fields !! 0%nat;
  flag ← sam_fields !! 1%nat ≫= Py.int;
  chrom ← sam_fields !! 2%nat;
  pos ← sam_fields !! 3%nat ≫= Py.int;
  cigar ← sam_fields !! 5%nat;
  seq ← sam_fields !! 9%nat;
  '(ops, cts) ← Cigar.splitCIGAR cigar;
  let strand := if flag =? 16 then "-" else "+" in
  sjs ← junctions_from g annot chrom strand pos (Py.zip ops cts);
  Some ({| Transcript.QNAME := qname; Transcript.CHROM := chrom;
           Transcript.POS := pos; Transcript.SEQ := seq;
           Transcript.CIGAR := cigar; Transcript.NM := 0;
           Transcript.MD := default "" (head (filter is_MD_tag sam_fields));
           Transcript.jM := ""; Transcript.jI := "";
           Transcript.isCanonical := Transcript.recheckCanonical sjs |},
        sjs).

(** The tags are recomputed only for a CIGAR that fits the sequence: the
    read bases its operations cover are as many as the sequence has. The
    tags themselves are left at fixed values. *)
Definition tags (t : Transcript.t) (g : Genome) : option (Z * string) :=
  '(ops, cts) ← Transcript.splitCIGAR t;
  if read_consumed (Py.zip ops cts) =? Py.len (Transcript.SEQ t)
  then Some (0, "MD:Z:")
  else None.

Definition recheck_motif (j : SpliceJunction.t) (g : Genome)
    (annot : gset string) : option SpliceJunction.t :=
  let a := SpliceJunction.start j in
  let b := SpliceJunction.end_ j in
  ok ← motif_ok g (SpliceJunction.chrom j) a b (SpliceJunction.strand j);
  Some {| SpliceJunction.chrom := SpliceJunction.chrom j;
          SpliceJunction.start := a; SpliceJunction.end_ := b;
          SpliceJunction.strand := SpliceJunction.strand j;
          SpliceJunction.left := SpliceJunction.left j;
          SpliceJunction.right := SpliceJunction.right j;
          SpliceJunction.isCanonical :=
            ok || bool_decide
                    (junction_ID (SpliceJunction.chrom j) a b
                       (SpliceJunction.strand j) ∈ annot) |}.

Definition junction_tags (t : Transcript.t) (sjs : list SpliceJunction.t)
  : option (string * string) :=
  Some ("jM:B:c",
        Py.join ","
          ("jI:B:i"
           :: flat_map (fun j => [Py.str (SpliceJunction.start j);
                                  Py.str (SpliceJunction.end_ j)]) sjs)).

#[local] Instance methods : Methods := {|
  Transcript_new := new;
  getNMandMDFlags := tags;
  mergeMDwithCIGAR := Transcript.splitCIGAR;
  checkSpliceMotif := recheck_motif;
  get_jM_jI_tags_from_sjs := junction_tags
|}.

Definition refs : Refs := {|
  genome := fasta;
  snps := ∅;
  insertions := ∅;
  deletions := ∅;
  donors := nearest [6; 23];
  acceptors := nearest [14; 32];
  sjAnnot := {[junction_ID "chr1" 6 14 "+"; junction_ID "chr1" 23 32 "+"]}
|}.

Definition options : Options := {|
  mismatchCorrection := "true";
  indelCorrection := "true";
  sjCorrection := "true";
  maxLenIndel := 5;
  maxSJOffset := 5
|}.

(** A SAM line: name, flag, chromosome, position, CIGAR, sequence and the
    mismatch tag; the other mandatory fields at their "not available"
    values. *)
Definition sam_line (qname flag chrom pos cigar seq md : string) : string :=
  Py.join Py.tab
    [qname; flag; chrom; pos; "255"; cigar; "*"; "0"; "0"; seq; "*";
     "NM:i:0"; md].

(** The record of a read, as [new] builds it from its SAM line. *)
Definition read (qname chrom : string) (pos : Z) (cigar seq md : string)
  : Transcript.t :=
  {| Transcript.QNAME := qname; Transcript.CHROM := chrom;
     Transcript.POS := pos; Transcript.SEQ := seq; Transcript.CIGAR := cigar;
     Transcript.NM := 0; Transcript.MD := md; Transcript.jM := "";
     Transcript.jI := ""; Transcript.isCanonical := true |}.

(** The world in which the correction of a read starts: a fresh log struct
    and the read's junction objects. *)
Definition world (qname : string) (sjs : list SpliceJunction.t) : World :=
  {| logInfo :=
       {| LogInfo.TranscriptID := qname; LogInfo.Mapping := "primary";
          LogInfo.corrected_deletions := None;
          LogInfo.uncorrected_deletions := None;
          LogInfo.variant_deletions := None;
          LogInfo.corrected_insertions := None;
          LogInfo.uncorrected_insertions := None;
          LogInfo.variant_insertions := None;
          LogInfo.corrected_mismatches := None;
          LogInfo.uncorrected_mismatches := None;
          LogInfo.corrected_NC_SJs := None;
          LogInfo.uncorrected_NC_SJs := None |};
     spliceJunctions := sjs;
     events := [] |}.

(** The junction object of an intron on the forward strand. *)
Definition intron (a b : Z) (canonical : bool) : SpliceJunction.t :=
  {| SpliceJunction.chrom := "chr1"; SpliceJunction.start := a;
     SpliceJunction.end_ := b; SpliceJunction.strand := "+";
     SpliceJunction.left := {| IntronBound.bound := 0; IntronBound.pos := a |};
     SpliceJunction.right := {| IntronBound.bound := 1; IntronBound.pos := b |};
     SpliceJunction.isCanonical := canonical |}.

(** A read with two inserted bases after its second base. *)
Definition inserted : Transcript.t :=
  read "r4" "chr1" 1 "2M2I3M" "ACNNGTA" "MD:Z:5".

(** A read that lacks the reference bases 3 and 4. *)
Definition deleted : Transcript.t :=
  read "r5" "chr1" 1 "2M2D4M" "ACAGTC" "MD:Z:2^GT4".

(** A read with the CIGAR of the documented end-to-end case. *)
Definition deleted_10M2D10M : Transcript.t :=
  read "r6" "chr1" 1 "10M2D10M" "ACGTAGTCCCAGTTTTGGGG" "MD:Z:10^CC10".

(** A read whose only intron, 16-30, is far from the annotated ones. *)
Definition spliced_far : Transcript.t :=
  Transcript.set_isCanonical false
    (read "r7" "chr1" 1 "15M15N6M" "ACGTAGTCCCCCAGTAGCCCC" "MD:Z:21").

(** A read whose two introns are the annotated, canonical ones. *)
Definition spliced_right : string :=
  sam_line "r8" "0" "chr1" "1" "5M9N8M10N4M" "ACGTATTTTGGGGCCCC" "MD:Z:17".

(** A read with a deleted base two bases before its intron 8-14; the
    annotated donor is at 6. *)
Definition spliced_after_deletion : Transcript.t :=
  Transcript.set_isCanonical false
    (read "r9" "chr1" 1 "5M1D1M7N8M" "ACGTATTTTTGGGG" "MD:Z:5^G9").

(** A read that ends in an intron, 5-15. *)
Definition spliced_at_end : Transcript.t :=
  Transcript.set_isCanonical false (read "r2" "chr1" 1 "4M11N" "ACGT" "MD:Z:4").

(** A read on a chromosome the reference does not have. *)
Definition off_reference : string :=
  sam_line "r3" "0" "chr2" "1" "4M2D4M" "ACGTACGT" "MD:Z:4^AC4".

(** A read with two noncanonical introns, 5-14 and 24-32. *)
Definition spliced_twice : string :=
  sam_line "r10" "0" "chr1" "1" "4M10N9M9N4M" "ACGTTTTTGGGGGCCCC" "MD:Z:17".

(** Annotated donors whose lookup raises beyond position 20. *)
Definition failing_donors : BedTool := fun b =>
  if 20 <? IntronBound.pos b then None else nearest [6; 23] b.

Definition failing_refs : Refs := {|
  genome := fasta; snps := ∅; insertions := ∅; deletions := ∅;
  donors := failing_donors; acceptors := nearest [14; 32];
  sjAnnot := sjAnnot refs
|}.

End Sample.

(** A stand-in for the two printing methods: the SAM line holds the name,
    the chromosome, the position, the CIGAR and the sequence; the FASTA
    entry the name and the sequence. *)
Module SamplePrinting.

Definition sam (t : Transcript.t) (sjs : list SpliceJunction.t)
  : option string :=
  Some (Py.join Py.tab
          [Transcript.QNAME t; Transcript.CHROM t; Py.str (Transcript.POS t);
           Transcript.CIGAR t; Transcript.SEQ t]).

Definition fa (t : Transcript.t) (sjs : list SpliceJunction.t)
  : option string :=
  Some (">" +:+ Transcript.QNAME t +:+ newline +:+ Transcript.SEQ t).

#[local] Instance printing : Printing := {|
  printableSAM := sam;
  printableFa := fa
|}.

Definition no_files : Outfiles :=
  {| outSam := []; outFa := []; tL := []; tE := [] |}.

(** A secondary alignment. *)
Definition secondary : string :=
  Sample.sam_line "r11" "256" "chr1" "1" "5M" "ACGTA" "MD:Z:5".

End SamplePrinting.

(** A junction file in the format of STAR: two junctions on [chr1], the
    first on the forward strand and the second without a strand, and one
    line on a chromosome without reads. *)
Module SampleJunctions.

Definition forward : string :=
  Py.join Py.tab ["chr1"; "6"; "14"; "1"; "1"; "1"; "5"; "0"; "30"].

Definition reverse : string :=
  Py.join Py.tab ["chr1"; "23"; "32"; "2"; "2"; "1"; "7"; "0"; "25"].

Definition unstranded : string :=
  Py.join Py.tab ["chr1"; "40"; "52"; "0"; "0"; "0"; "1"; "0"; "12"].

Definition elsewhere : string := Py.join Py.tab ["chr9"; "start"].

Definition file : list string := [elsewhere; reverse; unstranded; forward].

End SampleJunctions.

(** * Part II: properties *)

(** ** Combined junction distance *)

Section JunctionDistance.
Import Junction.

Lemma diverging_product d0 d1 : diverging d0 d1 <-> d0 * d1 <= 0.
Proof.
  unfold diverging. split.
  - intros [-> | [-> | [[? ?] | [? ?]]]]; nia.
  - intros Hp.
    destruct (Z.eq_dec d0 0) as [|H0]; [by left|].
    destruct (Z.eq_dec d1 0) as [|H1]; [by right; left|].
    right; right.
    destruct (Z.lt_ge_cases d0 0), (Z.lt_ge_cases d1 0); [nia|lia|lia|nia].
Qed.

Lemma same_sign_product d0 d1 : same_sign d0 d1 <-> 0 < d0 * d1.
Proof.
  unfold same_sign. split.
  - intros [[? ?] | [? ?]]; nia.
  - intros Hp.
    destruct (Z.lt_trichotomy d0 0) as [?|[->|?]],
             (Z.lt_trichotomy d1 0) as [?|[->|?]]; try lia; nia.
Qed.

(** C1. If the two offsets have different signs or one of them is zero, the
    combined distance is the sum of their magnitudes; if they share a sign it
    is the magnitude of the difference of their magnitudes; and the three
    documented values are 4, 2 and 3. *)
Theorem combinedJunctionDist_cases (d0 d1 : Z) :
  (diverging d0 d1 ->
     combinedJunctionDist d0 d1 = Z.abs d0 + Z.abs d1)
  /\ (same_sign d0 d1 ->
        combinedJunctionDist d0 d1 = Z.abs (Z.abs d0 - Z.abs d1))
  /\ combinedJunctionDist 2 (-2) = 4
  /\ combinedJunctionDist 0 2 = 2
  /\ combinedJunctionDist 1 4 = 3.
Proof.
  unfold combinedJunctionDist. repeat split; try reflexivity.
  - intros Hd%diverging_product.
    by destruct (Z.leb_spec (d0 * d1) 0); [|lia].
  - intros Hs%same_sign_product.
    by destruct (Z.leb_spec (d0 * d1) 0); [lia|].
Qed.

Lemma combinedJunctionDist_cases_witness :
  (diverging (-2) 2 /\ combinedJunctionDist (-2) 2 = Z.abs (-2) + Z.abs 2)
  /\ (same_sign 1 4 /\ combinedJunctionDist 1 4 = Z.abs (Z.abs 1 - Z.abs 4)).
Proof.
  assert (Hd : diverging (-2) 2) by (unfold diverging; lia).
  assert (Hs : same_sign 1 4) by (unfold same_sign; lia).
  split; split; try assumption.
  - exact (proj1 (combinedJunctionDist_cases (-2) 2) Hd).
  - exact (proj1 (proj2 (combinedJunctionDist_cases 1 4)) Hs).
Defined.

(** C10. The combined distance does not depend on the order of the two
    offsets. *)
Theorem combinedJunctionDist_comm (d0 d1 : Z) :
  combinedJunctionDist d0 d1 = combinedJunctionDist d1 d0.
Proof.
  unfold combinedJunctionDist. rewrite (Z.mul_comm d1 d0).
  destruct (d0 * d1 <=? 0); lia.
Qed.

(** The combined distance is never negative. *)
Lemma combinedJunctionDist_nonneg d0 d1 : 0 <= combinedJunctionDist d0 d1.
Proof. unfold combinedJunctionDist. destruct (d0 * d1 <=? 0); lia. Qed.

End JunctionDistance.

(** ** The CIGAR validator *)

Section Validator.
Import Cigar Rules.

(** The operations the validator's loop visits: [zip] stops at the shorter
    of the two lists of [splitCIGAR]. *)
Lemma check_ops_neighbours prev (l : list (string * Z)) :
  check_ops prev l = negb (neighbour_rules_broken (prev :: map fst l)).
Proof.
  revert prev. induction l as [|[op ct] l IH]; intros prev; [done|].
  cbn [check_ops map fst neighbour_rules_broken].
  rewrite IH. cbn [map fst].
  destruct (String.eqb prev "N" && negb (String.eqb op "M")); [done|].
  by destruct (String.eqb prev "D" && String.eqb op "N").
Qed.

Lemma neighbour_rules_start (operations : list string) :
  neighbour_rules_broken ("" :: operations) = neighbour_rules_broken operations.
Proof. by destruct operations. Qed.

(** A CIGAR that breaks a rule over neighbours breaks the rules as the
    specification words them; the converse fails for a Skip at the end. *)
Lemma neighbour_rules_skip_rules (operations : list string) :
  neighbour_rules_broken operations = true ->
  skip_rules_broken operations = true.
Proof.
  induction operations as [|a [|b rest] IH]; [done..|].
  cbn [neighbour_rules_broken skip_rules_broken head].
  intros Hn. apply orb_true_iff in Hn as [Hn | Hn].
  - apply orb_true_iff; left.
    apply orb_true_iff in Hn as [Hn | Hn]; apply andb_true_iff in Hn as [Ha Hb].
    + rewrite Ha. apply orb_true_iff; left. cbn.
      apply negb_true_iff, bool_decide_eq_false. intros [= ->].
      by rewrite String.eqb_refl in Hb.
    + rewrite Ha. apply orb_true_iff; right. cbn.
      apply bool_decide_eq_true. by apply String.eqb_eq in Hb as ->.
  - apply orb_true_iff; right. by apply IH.
Qed.




(** The other direction fails too: in [10M-5N10M] the Skip follows a Match
    run and precedes one, and the validator rejects the minus sign. *)
Lemma check_CIGAR_validity_minus :
  splitCIGAR "10M-5N10M" = Some (["M-"; "N"; "M"], [10; -5; 10])
  /\ skip_rules_broken ["M-"; "N"; "M"] = false
  /\ check_CIGAR_validity "10M-5N10M" = Some false.
Proof. repeat split. Qed.

End Validator.

(** ** Strings and the monad *)

Section Basics.

Lemma app_empty_l (b : string) : "" +:+ b = b.
Proof. reflexivity. Qed.

Lemma app_String (c : ascii) (a b : string) :
  String c a +:+ b = String c (a +:+ b).
Proof. reflexivity. Qed.

Lemma app_empty_r (a : string) : a +:+ "" = a.
Proof. induction a as [|c a IH]; [done|]. by rewrite app_String, IH. Qed.

Lemma app_assoc_str (a b c : string) : (a +:+ b) +:+ c = a +:+ b +:+ c.
Proof.
  induction a as [|x a IH]; [done|]. by rewrite !app_String, IH.
Qed.

Lemma len_app (a b : string) : Py.len (a +:+ b) = Py.len a + Py.len b.
Proof.
  unfold Py.len. induction a as [|c a IH].
  - rewrite app_empty_l. simpl. lia.
  - rewrite app_String. simpl String.length. lia.
Qed.

Lemma len_nonneg (s : string) : 0 <= Py.len s.
Proof. unfold Py.len. lia. Qed.

Lemma length_substring (n m : nat) (s : string) :
  (n + m <= String.length s)%nat -> String.length (substring n m s) = m.
Proof.
  revert n m. induction s as [|c s IH]; intros [|n] [|m] Hle;
    cbn [substring String.length] in *; try lia.
  - rewrite (IH 0%nat m); lia.
  - rewrite (IH n 0%nat); lia.
  - rewrite (IH n (S m)); lia.
Qed.

(** A slice that lies inside the string has the length asked for. *)
Lemma len_slice (s : string) (i ct : Z) :
  0 <= i -> 0 <= ct -> i + ct <= Py.len s ->
  Py.len (Py.slice s i (i + ct)) = ct.
Proof.
  intros Hi Hct Hlen. unfold Py.slice, Py.clamp.
  destruct (Z.ltb_spec i 0); [lia|].
  destruct (Z.ltb_spec (i + ct) 0); [lia|].
  rewrite !Z.min_l by lia.
  unfold Py.len in *. rewrite length_substring; lia.
Qed.

Lemma for_each_app {A S} (body : S -> A -> M S) (l1 l2 : list A) (st : S)
    (w : World) :
  for_each body (l1 ++ l2) st w =
  match for_each body l1 st w with
  | (Some st', w') => for_each body l2 st' w'
  | (None, w') => (None, w')
  end.
Proof.
  revert st w. induction l1 as [|x l1 IH]; intros st w; [done|].
  cbn [app for_each]. unfold mbind, M_bind, bind.
  destruct (body st x w) as [[st'|] w']; [apply IH|done].
Qed.

Lemma char_in_of_list (c : ascii) (l : list ascii) :
  Py.char_in c (string_of_list_ascii l) = true <-> In c l.
Proof.
  induction l as [|a l IH]; cbn [string_of_list_ascii Py.char_in In].
  - split; [done|tauto].
  - rewrite orb_true_iff, IH. split; intros [Ha|Hl]; auto.
    + left. symmetry. by apply Ascii.eqb_eq.
    + left. apply Ascii.eqb_eq. done.
Qed.

(** A field of [s.split()] is made of characters of [s]. *)
Lemma split_from_chars (s : string) (tok : list ascii) (t : string) (c : ascii) :
  In t (Py.split_from tok s) -> Py.char_in c t = true ->
  In c tok \/ Py.char_in c s = true.
Proof.
  revert tok. induction s as [|a s IH]; intros tok Ht Hc;
    cbn [Py.split_from] in Ht.
  - destruct tok as [|b tok]; [done|].
    destruct Ht as [<-|[]]. apply char_in_of_list, in_rev in Hc. by left.
  - cbn [Py.char_in]. destruct (Py.is_space a).
    + destruct tok as [|b tok].
      * destruct (IH [] Ht Hc) as [[]|Hs]. right. by rewrite Hs, orb_true_r.
      * destruct Ht as [<-|Ht].
        -- apply char_in_of_list, in_rev in Hc. by left.
        -- destruct (IH [] Ht Hc) as [[]|Hs]. right. by rewrite Hs, orb_true_r.
    + destruct (IH (a :: tok) Ht Hc) as [[->|Hin]|Hs].
      * right. by rewrite (proj2 (Ascii.eqb_eq c c) eq_refl).
      * by left.
      * right. by rewrite Hs, orb_true_r.
Qed.

Lemma sub_class_chars (cls : ascii -> bool) (s : string) (c : ascii) :
  c <> " "%char -> Py.char_in c (Py.sub_class cls s) = true ->
  Py.char_in c s = true.
Proof.
  intros Hc. induction s as [|a s IH]; cbn [Py.sub_class Py.char_in]; [done|].
  rewrite !orb_true_iff. intros [Ha|Hs]; [|right; auto].
  destruct (cls a); [|by left].
  apply Ascii.eqb_eq in Ha. done.
Qed.

Lemma zip_In_l {A B} (a : list A) (b : list B) (x : A) (y : B) :
  In (x, y) (Py.zip a b) -> In x a.
Proof.
  revert b. induction a as [|x' a IH]; intros [|y' b]; cbn; try tauto.
  intros [[= -> ->]|Hin]; eauto.
Qed.

(** An operation letter that [splitCIGAR] finds occurs in the CIGAR. *)
Lemma splitCIGAR_op_char (CIGAR : string) (ops : list string) (cts : list Z)
    (c : ascii) (ct : Z) :
  Cigar.splitCIGAR CIGAR = Some (ops, cts) ->
  c <> " "%char ->
  In (String c "", ct) (Py.zip ops cts) ->
  Py.char_in c CIGAR = true.
Proof.
  unfold Cigar.splitCIGAR. intros Hsplit Hc Hin.
  destruct (Py.map_raise _ _); [|done]. injection Hsplit as <- <-.
  apply zip_In_l in Hin. unfold Py.split in Hin.
  eapply (split_from_chars _ _ _ c) in Hin as [[]|Hs].
  - by apply sub_class_chars in Hs.
  - cbn. by rewrite (proj2 (Ascii.eqb_eq c c) eq_refl).
Qed.

Lemma log_only_ret {A} (a : A) : log_only (mret a).
Proof. by intros w. Qed.

Lemma log_only_call {A} (o : option A) : log_only (call o).
Proof. by intros w. Qed.

Lemma log_only_set_counter c v : log_only (set_counter c v).
Proof. by intros w. Qed.

Lemma log_only_incr_counter c : log_only (incr_counter c).
Proof. by intros w. Qed.

Lemma log_only_bind {A B} (m : M A) (f : A -> M B) :
  log_only m -> (forall a, log_only (f a)) -> log_only (m ≫= f).
Proof.
  intros Hm Hf w. unfold mbind, M_bind, bind.
  destruct (Hm w) as [Hj He]. destruct (m w) as [[a|] w1]; cbn in *.
  - destruct (Hf a w1) as [Hj' He']. by rewrite Hj', He'.
  - done.
Qed.

Lemma log_only_for_each {A S} (body : S -> A -> M S) (l : list A) (st : S) :
  (forall st x, log_only (body st x)) -> log_only (for_each body l st).
Proof.
  intros Hbody. revert st. induction l as [|x l IH]; intros st;
    cbn [for_each].
  - apply log_only_ret.
  - apply log_only_bind; [apply Hbody|]. intros st'. apply IH.
Qed.

End Basics.

Create HintDb log_only discriminated.
#[global] Hint Resolve log_only_ret log_only_call log_only_set_counter
  log_only_incr_counter : log_only.
#[global] Hint Extern 2 (log_only (mbind _ _)) =>
  apply log_only_bind; [|intros ?] : log_only.
#[global] Hint Extern 2 (log_only (for_each _ _ _)) =>
  apply log_only_for_each; intros ? ? : log_only.
#[global] Hint Extern 3 (log_only (if ?b then _ else _)) =>
  destruct b : log_only.
#[global] Hint Extern 3 (log_only (match ?o with Some _ => _ | None => _ end)) =>
  destruct o : log_only.
#[global] Hint Extern 3 (log_only (let '(_, _) := ?p in _)) =>
  destruct p : log_only.

(** ** Insertion correction *)

Section Insertions.
Context {methods : Methods}.
Variables (transcript : Transcript.t) (variants : gmap string (list string))
  (maxLen : Z).

Local Abbreviation body := (insertions_body transcript variants maxLen).
Local Abbreviation insertion_entry := (indel_entry transcript "Insertion").
Local Abbreviation correctable := (correctable_insertion transcript variants maxLen).

(** An Insertion run within the size bound and not in the catalog: its bases
    are skipped, nothing is written to the CIGAR, the genome position stays. *)
Lemma insertions_body_corrected (st : Loop) (ct : Z) (w : World) :
  ct <= maxLen ->
  insertion_in_catalog transcript variants (seqPos st) (genomePos st) ct
    = false ->
  body st ("I", ct) w =
    (Some (skip_bases ct
             (log_entry (insertion_entry (genomePos st) ct "Corrected" "NA")
                st)),
     snd (incr_counter LogInfo.CorrectedInsertions w)).
Proof.
  intros Hle Hcat. unfold body, insertions_body, insertion_in_catalog in *.
  cbn [String.eqb Ascii.eqb Bool.eqb andb].
  destruct (Z.leb_spec ct maxLen); [|lia].
  destruct (variants !! _) as [alleles|]; [rewrite Hcat|]; reflexivity.
Qed.

(** An Insertion run within the size bound that is in the catalog stays. *)
Lemma insertions_body_variant (st : Loop) (ct : Z) (w : World) :
  ct <= maxLen ->
  insertion_in_catalog transcript variants (seqPos st) (genomePos st) ct
    = true ->
  body st ("I", ct) w =
    (Some (read_only_op (Transcript.SEQ transcript) "I" ct
             (log_entry
                (insertion_entry (genomePos st) ct "Uncorrected" "VariantMatch")
                st)),
     snd (incr_counter LogInfo.VariantInsertions w)).
Proof.
  intros Hle Hcat. unfold body, insertions_body, insertion_in_catalog in *.
  cbn [String.eqb Ascii.eqb Bool.eqb andb].
  destruct (Z.leb_spec ct maxLen); [|lia].
  destruct (variants !! _) as [alleles|]; [rewrite Hcat|]; done.
Qed.

(** An Insertion run above the size bound stays, whatever the catalog. *)
Lemma insertions_body_too_large (st : Loop) (ct : Z) (w : World) :
  maxLen < ct ->
  body st ("I", ct) w =
    (Some (read_only_op (Transcript.SEQ transcript) "I" ct
             (log_entry
                (insertion_entry (genomePos st) ct "Uncorrected" "TooLarge")
                st)),
     snd (incr_counter LogInfo.UncorrectedInsertions w)).
Proof.
  intros Hlt. unfold body, insertions_body.
  cbn [String.eqb Ascii.eqb Bool.eqb andb].
  destruct (Z.leb_spec ct maxLen); [lia|].
  unfold insertions_rest. cbn [String.eqb Ascii.eqb Bool.eqb andb Py.str_in existsb orb].
  reflexivity.
Qed.

(** One turn of the loop never raises. It advances the two positions by the
    operation's steps; it appends the operation's read bases to the new
    sequence and writes the operation to the new CIGAR, unless the operation
    is an Insertion run it corrects or one it does not know; it only adds to
    the log lines. *)
Lemma insertions_body_step (st : Loop) (x : string * Z) (w : World) :
  exists st' w',
    body st x w = (Some st', w')
    /\ seqPos st' = seqPos st + read_step x
    /\ genomePos st' = genomePos st + reference_step x
    /\ newSeq st' =
         newSeq st +:+
         (if read_op x && negb (correctable (seqPos st) (genomePos st) x)
          then Py.slice (Transcript.SEQ transcript) (seqPos st)
                 (seqPos st + snd x)
          else "")
    /\ (MVal st', newCIGAR st') =
         fold_left write_op
           (if known_op x && negb (correctable (seqPos st) (genomePos st) x)
            then [x] else [])
           (MVal st, newCIGAR st)
    /\ TE_entries st' =
         TE_entries st
         ++ insertion_log_line transcript variants maxLen (seqPos st)
              (genomePos st) x.
Proof.
  destruct x as [op ct].
  unfold correctable_insertion, read_step, reference_step, read_op, known_op,
    write_op, insertion_log_line.
  cbn [fst snd Py.str_in existsb].
  destruct (String.eqb_spec op "I") as [->|HI].
  { cbn [String.eqb Ascii.eqb Bool.eqb andb orb negb].
    destruct (Z.leb_spec ct maxLen).
    - destruct (insertion_in_catalog transcript variants (seqPos st)
                  (genomePos st) ct) eqn:Hcat.
      + rewrite insertions_body_variant by done.
        eexists _, _. split; [done|]. unfold read_only_op, log_entry.
        cbn [MVal newCIGAR seqPos genomePos newSeq TE_entries andb negb
             fold_left fst snd String.eqb Ascii.eqb Bool.eqb].
        destruct (Cigar.endMatch _ _).
        cbn [MVal newCIGAR seqPos genomePos newSeq TE_entries].
        by repeat split; try lia.
      + rewrite insertions_body_corrected by done.
        eexists _, _. split; [done|]. cbn. rewrite app_empty_r.
        by repeat split; try lia.
    - rewrite insertions_body_too_large by done.
      eexists _, _. split; [done|]. unfold read_only_op, log_entry.
      cbn [MVal newCIGAR seqPos genomePos newSeq TE_entries andb negb
           fold_left fst snd String.eqb Ascii.eqb Bool.eqb].
      destruct (Cigar.endMatch _ _).
      cbn [MVal newCIGAR seqPos genomePos newSeq TE_entries].
      by repeat split; try lia. }
  unfold insertions_body, insertions_rest.
  cbn [Py.str_in existsb].
  destruct (String.eqb_spec op "M") as [->|HM];
    [|destruct (String.eqb_spec op "S") as [->|HS];
      [|destruct (String.eqb_spec op "N") as [->|HN];
        [|destruct (String.eqb_spec op "H") as [->|HH];
          [|destruct (String.eqb_spec op "D") as [->|HD]]]]];
    cbn [String.eqb Ascii.eqb Bool.eqb andb orb negb];
    rewrite ?(proj2 (String.eqb_neq _ _) HI);
    (eexists _, _; split; [reflexivity|]);
    unfold read_only_op, reference_only_op, match_op;
    cbn [MVal newCIGAR seqPos genomePos newSeq TE_entries andb orb negb
         fold_left fst snd String.eqb Ascii.eqb Bool.eqb];
    try destruct (Cigar.endMatch _ _);
    cbn [MVal newCIGAR seqPos genomePos newSeq TE_entries];
    rewrite ?app_empty_r;
    rewrite ?app_nil_r; by repeat split; try lia.
Qed.

Lemma insertions_loop (l : list (string * Z)) (st : Loop) (w : World) :
  exists st' w',
    for_each body l st w = (Some st', w')
    /\ seqPos st' = seqPos st + read_consumed l
    /\ genomePos st' = genomePos st + reference_consumed l
    /\ newSeq st' =
         newSeq st +:+
         insertions_kept_bases transcript variants maxLen (seqPos st)
           (genomePos st) l
    /\ (MVal st', newCIGAR st') =
         fold_left write_op
           (insertions_kept_ops transcript variants maxLen (seqPos st)
              (genomePos st) l)
           (MVal st, newCIGAR st)
    /\ TE_entries st' =
         TE_entries st
         ++ insertions_log transcript variants maxLen (seqPos st)
              (genomePos st) l.
Proof.
  revert st w. induction l as [|x l IH]; intros st w.
  - exists st, w. cbn. rewrite app_empty_r, app_nil_r. repeat split; lia.
  - destruct (insertions_body_step st x w)
      as (st1 & w1 & Hstep & Hp & Hg & Hseq & Hcig & Hte).
    destruct (IH st1 w1)
      as (st2 & w2 & Hloop & Hp' & Hg' & Hseq' & Hcig' & Hte').
    exists st2, w2. cbn [for_each]. unfold mbind, M_bind, bind.
    rewrite Hstep, Hloop.
    cbn [read_consumed reference_consumed foldr insertions_kept_bases
         insertions_kept_ops insertions_log].
    fold (read_consumed l) (reference_consumed l).
    rewrite fold_left_app, <- Hcig, <- Hp, <- Hg, <- app_assoc_str, <- Hseq,
      app_assoc, <- Hte.
    repeat split; try done; lia.
Qed.

Lemma read_consumed_app (l1 l2 : list (string * Z)) :
  read_consumed (l1 ++ l2) = read_consumed l1 + read_consumed l2.
Proof.
  induction l1 as [|x l1 IH]; cbn [app read_consumed foldr]; [done|].
  fold (read_consumed (l1 ++ l2)) (read_consumed l1). lia.
Qed.

Lemma reference_consumed_app (l1 l2 : list (string * Z)) :
  reference_consumed (l1 ++ l2) = reference_consumed l1 + reference_consumed l2.
Proof.
  induction l1 as [|x l1 IH]; cbn [app reference_consumed foldr]; [done|].
  fold (reference_consumed (l1 ++ l2)) (reference_consumed l1). lia.
Qed.

Lemma insertions_kept_ops_app (l1 l2 : list (string * Z)) (p g : Z) :
  insertions_kept_ops transcript variants maxLen p g (l1 ++ l2) =
  insertions_kept_ops transcript variants maxLen p g l1
  ++ insertions_kept_ops transcript variants maxLen
       (p + read_consumed l1) (g + reference_consumed l1) l2.
Proof.
  revert p g. induction l1 as [|x l1 IH]; intros p g;
    cbn [app insertions_kept_ops read_consumed reference_consumed foldr].
  - by rewrite !Z.add_0_r.
  - fold (read_consumed l1) (reference_consumed l1).
    by rewrite IH, <- app_assoc, !Z.add_assoc.
Qed.

Lemma insertions_kept_bases_app (l1 l2 : list (string * Z)) (p g : Z) :
  insertions_kept_bases transcript variants maxLen p g (l1 ++ l2) =
  insertions_kept_bases transcript variants maxLen p g l1
  +:+ insertions_kept_bases transcript variants maxLen
        (p + read_consumed l1) (g + reference_consumed l1) l2.
Proof.
  revert p g. induction l1 as [|x l1 IH]; intros p g;
    cbn [app insertions_kept_bases read_consumed reference_consumed foldr].
  - by rewrite !Z.add_0_r.
  - fold (read_consumed l1) (reference_consumed l1).
    by rewrite IH, app_assoc_str, !Z.add_assoc.
Qed.

Lemma correctable_insertions_app (l1 l2 : list (string * Z)) (p g : Z) :
  correctable_insertions transcript variants maxLen p g (l1 ++ l2) =
  correctable_insertions transcript variants maxLen p g l1
  + correctable_insertions transcript variants maxLen
      (p + read_consumed l1) (g + reference_consumed l1) l2.
Proof.
  revert p g. induction l1 as [|x l1 IH]; intros p g;
    cbn [app correctable_insertions read_consumed reference_consumed foldr].
  - by rewrite !Z.add_0_r.
  - fold (read_consumed l1) (reference_consumed l1).
    rewrite IH, !Z.add_assoc. lia.
Qed.

Lemma read_step_nonneg (x : string * Z) : 0 <= snd x -> 0 <= read_step x.
Proof. unfold read_step. destruct (Py.str_in _ _); lia. Qed.

(** When the operations fit the sequence, the bases kept are as many as the
    operations cover, less the Insertion runs corrected. *)
Lemma insertions_kept_bases_len (l : list (string * Z)) (p g : Z) :
  Forall (fun x => 0 <= snd x) l ->
  0 <= p -> p + read_consumed l <= Py.len (Transcript.SEQ transcript) ->
  Py.len (insertions_kept_bases transcript variants maxLen p g l) =
  read_consumed l - correctable_insertions transcript variants maxLen p g l.
Proof.
  intros Hnn. revert p g. induction Hnn as [|x l Hx Hl IH]; intros p g Hp Hfit;
    cbn [insertions_kept_bases correctable_insertions read_consumed foldr]
      in *; [done|].
  fold (read_consumed l) in *.
  pose proof (read_step_nonneg x Hx) as Hstep.
  assert (0 <= read_consumed l) as Hrest.
  { clear -Hl. induction Hl as [|y l Hy Hl IH]; cbn; [done|].
    fold (read_consumed l). pose proof (read_step_nonneg y Hy). lia. }
  rewrite len_app, IH by lia.
  unfold correctable_insertion, read_op, read_step in *.
  destruct x as [op ct]; cbn [fst snd Py.str_in existsb] in *.
  destruct (String.eqb_spec op "I") as [->|HI];
    cbn [String.eqb Ascii.eqb Bool.eqb andb orb negb] in *.
  - destruct ((ct <=? maxLen) && negb _); cbn [negb].
    + change (Py.len "") with 0. lia.
    + rewrite len_slice; lia.
  - destruct (String.eqb_spec op "M") as [->|HM];
      [|destruct (String.eqb_spec op "S") as [->|HS]];
      cbn [String.eqb Ascii.eqb Bool.eqb andb orb negb] in *;
      rewrite ?(proj2 (String.eqb_neq _ _) HI) in *;
      cbn [andb orb negb] in *;
      [rewrite len_slice by lia; lia..|].
    change (Py.len "") with 0. lia.
Qed.

Lemma insertions_log_app (l1 l2 : list (string * Z)) (p g : Z) :
  insertions_log transcript variants maxLen p g (l1 ++ l2) =
  insertions_log transcript variants maxLen p g l1
  ++ insertions_log transcript variants maxLen
       (p + read_consumed l1) (g + reference_consumed l1) l2.
Proof.
  revert p g. induction l1 as [|x l1 IH]; intros p g;
    cbn [app insertions_log read_consumed reference_consumed foldr].
  - by rewrite !Z.add_0_r.
  - fold (read_consumed l1) (reference_consumed l1).
    by rewrite IH, <- app_assoc, !Z.add_assoc.
Qed.

Lemma log_only_insertions_body st x : log_only (body st x).
Proof.
  destruct x as [op ct]. unfold insertions_body. auto 10 with log_only.
Qed.

Lemma log_only_correctInsertions genome :
  log_only (correctInsertions transcript genome variants maxLen).
Proof.
  unfold correctInsertions.
  repeat (apply log_only_bind; [auto with log_only|intros ?]).
  destruct a2 as [cigarOps cigarCounts].
  destruct (negb _); [auto with log_only|].
  apply log_only_bind.
  - apply log_only_for_each. apply log_only_insertions_body.
  - intros st. destruct (loop_end st). auto with log_only.
Qed.

(** Insertion correction computes what it is specified to: on a transcript
    whose CIGAR holds an I and can be split, it returns, with the kept bases
    as sequence, the kept operations as CIGAR and one log line per Insertion
    run. *)
Theorem correctInsertions_refines (genome : Genome) (ops : list string)
    (cts : list Z) (w : World) :
  Transcript.splitCIGAR transcript = Some (ops, cts) ->
  Py.char_in "I" (Transcript.CIGAR transcript) = true ->
  let l := Py.zip ops cts in
  let POS := Transcript.POS transcript in
  exists w',
    correctInsertions transcript genome variants maxLen w =
      (Some (Transcript.set_SEQ_CIGAR
               (insertions_kept_bases transcript variants maxLen 0 POS l)
               (cigar_of (insertions_kept_ops transcript variants maxLen 0 POS l))
               transcript,
             insertions_log transcript variants maxLen 0 POS l), w').
Proof.
  intros Hsplit HI l POS. subst l POS. unfold correctInsertions.
  unfold mbind, M_bind, bind, set_counter, call. cbn [fst snd].
  rewrite Hsplit, HI. cbn [negb].
  match goal with
  | |- context [for_each _ ?l ?st ?w0] =>
      destruct (insertions_loop l st w0)
        as (st' & w' & Hloop & _ & _ & Hseq & Hcig & Hte)
  end.
  rewrite Hloop. exists w'. unfold loop_end, cigar_of.
  cbn [loop_start seqPos genomePos newSeq MVal newCIGAR TE_entries] in *.
  rewrite <- Hcig. cbn [fst snd].
  destruct (Cigar.endMatch (MVal st') (newCIGAR st')) as [m c] eqn:Hend.
  rewrite app_empty_l in Hseq. cbn [app] in Hte.
  unfold mret, M_ret, ret. cbn [snd]. by rewrite Hseq, Hte.
Qed.


End Insertions.


(** ** Deletion correction *)

Section Deletions.
Context {methods : Methods}.
Variables (transcript : Transcript.t) (genome : Genome)
  (variants : gmap string Z) (maxLen : Z).

Local Abbreviation body :=
  (deletions_body transcript genome variants maxLen).
Local Abbreviation deletion_entry := (indel_entry transcript "Deletion").
Local Abbreviation chrom := (Transcript.CHROM transcript).

(** A Deletion run within the size bound whose span is not in the catalog:
    the reference bases of the span are appended to the sequence and counted
    as matched. *)
Lemma deletions_body_corrected (st : Loop) (ct : Z) (w : World)
    (refBases : string) :
  ct <= maxLen ->
  variants !! span_ID chrom (genomePos st) ct = None ->
  genome chrom (genomePos st) (genomePos st + ct - 1) = Some refBases ->
  body st ("D", ct) w =
    (Some (fill_bases refBases ct
             (log_entry (deletion_entry (genomePos st) ct "Corrected" "NA")
                st)),
     snd (incr_counter LogInfo.CorrectedDeletions w)).
Proof.
  intros Hle Hcat Hgen. unfold deletions_body.
  cbn [String.eqb Ascii.eqb Bool.eqb andb].
  destruct (Z.leb_spec ct maxLen); [|lia].
  rewrite Hcat. destruct (decide (is_Some None)) as [[? [=]]|_].
  unfold mbind, M_bind, bind, incr_counter, call. cbn [fst snd].
  rewrite Hgen. reflexivity.
Qed.

(** A Deletion run within the size bound whose span is in the catalog
    stays; the reference is read all the same. *)
Lemma deletions_body_variant (st : Loop) (ct : Z) (w : World)
    (refBases : string) :
  ct <= maxLen ->
  is_Some (variants !! span_ID chrom (genomePos st) ct) ->
  genome chrom (genomePos st) (genomePos st + ct - 1) = Some refBases ->
  body st ("D", ct) w =
    (Some (reference_only_op "D" ct
             (log_entry
                (deletion_entry (genomePos st) ct "Uncorrected" "VariantMatch")
                st)),
     snd (incr_counter LogInfo.VariantDeletions w)).
Proof.
  intros Hle Hcat Hgen. unfold deletions_body.
  cbn [String.eqb Ascii.eqb Bool.eqb andb].
  destruct (Z.leb_spec ct maxLen); [|lia].
  destruct (decide _) as [_|Hn]; [|done].
  unfold mbind, M_bind, bind, incr_counter, call. cbn [fst snd].
  rewrite Hgen. reflexivity.
Qed.

(** A Deletion run above the size bound stays, whatever the catalog, and
    the reference is not read. *)
Lemma deletions_body_too_large (st : Loop) (ct : Z) (w : World) :
  maxLen < ct ->
  body st ("D", ct) w =
    (Some (reference_only_op "D" ct
             (log_entry
                (deletion_entry (genomePos st) ct "Uncorrected" "TooLarge")
                st)),
     snd (incr_counter LogInfo.UncorrectedDeletions w)).
Proof.
  intros Hlt. unfold deletions_body.
  cbn [String.eqb Ascii.eqb Bool.eqb andb].
  destruct (Z.leb_spec ct maxLen); [lia|].
  reflexivity.
Qed.

(** A lookup that raises within the size bound makes the turn raise. *)
Lemma deletions_body_raises (st : Loop) (ct : Z) (w : World) :
  ct <= maxLen ->
  genome chrom (genomePos st) (genomePos st + ct - 1) = None ->
  exists w', body st ("D", ct) w = (None, w').
Proof.
  intros Hle Hgen. unfold deletions_body.
  cbn [String.eqb Ascii.eqb Bool.eqb andb].
  destruct (Z.leb_spec ct maxLen); [|lia].
  unfold mbind, M_bind, bind, incr_counter, call. cbn [fst snd].
  destruct (decide _); rewrite Hgen; by eexists.
Qed.

(** One turn of the loop, when the reference lookup it makes (if any)
    returns: it advances the two positions by the operation's steps, appends
    the bases the specification gives, writes the specified operation and
    the specified log line. *)
Lemma deletions_body_step (st : Loop) (x : string * Z) (w : World)
    (b : string) :
  deletion_result_bases genome transcript variants maxLen (seqPos st)
    (genomePos st) x = Some b ->
  exists st' w',
    body st x w = (Some st', w')
    /\ seqPos st' = seqPos st + read_step x
    /\ genomePos st' = genomePos st + reference_step x
    /\ newSeq st' = newSeq st +:+ b
    /\ (MVal st', newCIGAR st') =
         fold_left write_op
           (deletion_result_op chrom variants maxLen (genomePos st) x)
           (MVal st, newCIGAR st)
    /\ TE_entries st' =
         TE_entries st
         ++ deletion_log_line transcript variants maxLen (genomePos st) x.
Proof.
  destruct x as [op ct].
  unfold deletion_result_bases, deletion_result_op, correctable_deletion,
    read_step, reference_step, read_op, known_op, write_op, deletion_log_line.
  cbn [fst snd Py.str_in existsb].
  destruct (String.eqb_spec op "D") as [->|HD].
  { cbn [String.eqb Ascii.eqb Bool.eqb andb orb negb].
    destruct (Z.leb_spec ct maxLen).
    - destruct (genome chrom (genomePos st) (genomePos st + ct - 1))
        as [refBases|] eqn:Hgen; [|done].
      cbn [mbind option_bind]. intros [= <-].
      destruct (variants !! span_ID chrom (genomePos st) ct) as [v|] eqn:Hcat.
      + rewrite (deletions_body_variant st ct w refBases) by (rewrite ?Hcat; eauto).
        rewrite bool_decide_eq_true_2 by eauto.
        eexists _, _. split; [done|]. unfold reference_only_op, log_entry.
        cbn [MVal newCIGAR seqPos genomePos newSeq TE_entries andb negb
             fold_left fst snd String.eqb Ascii.eqb Bool.eqb].
        destruct (Cigar.endMatch _ _).
        cbn [MVal newCIGAR seqPos genomePos newSeq TE_entries].
        rewrite app_empty_r. by repeat split; try lia.
      + rewrite (deletions_body_corrected st ct w refBases) by done.
        rewrite bool_decide_eq_false_2 by (intros [? [=]]).
        eexists _, _. split; [done|]. cbn.
        by repeat split; try lia.
    - intros [= <-]. rewrite deletions_body_too_large by lia.
      eexists _, _. split; [done|]. unfold reference_only_op, log_entry.
      cbn [MVal newCIGAR seqPos genomePos newSeq TE_entries andb negb
           fold_left fst snd String.eqb Ascii.eqb Bool.eqb].
      destruct (Cigar.endMatch _ _).
      cbn [MVal newCIGAR seqPos genomePos newSeq TE_entries].
      rewrite app_empty_r. by repeat split; try lia. }
  unfold deletions_body, deletions_rest.
  cbn [Py.str_in existsb].
  destruct (String.eqb_spec op "M") as [->|HM];
    [|destruct (String.eqb_spec op "S") as [->|HS];
      [|destruct (String.eqb_spec op "I") as [->|HI];
        [|destruct (String.eqb_spec op "N") as [->|HN];
          [|destruct (String.eqb_spec op "H") as [->|HH]]]]];
    cbn [String.eqb Ascii.eqb Bool.eqb andb orb negb];
    rewrite ?(proj2 (String.eqb_neq _ _) HD);
    cbn [andb orb negb];
    intros [= <-];
    (eexists _, _; split; [reflexivity|]);
    unfold read_only_op, reference_only_op, match_op;
    cbn [MVal newCIGAR seqPos genomePos newSeq TE_entries andb orb negb
         fold_left fst snd String.eqb Ascii.eqb Bool.eqb];
    try destruct (Cigar.endMatch _ _);
    cbn [MVal newCIGAR seqPos genomePos newSeq TE_entries];
    rewrite ?app_empty_r, ?app_nil_r; by repeat split; try lia.
Qed.

Lemma deletions_loop (l : list (string * Z)) (st : Loop) (w : World)
    (bases : string) :
  deletions_result_bases genome transcript variants maxLen (seqPos st)
    (genomePos st) l = Some bases ->
  exists st' w',
    for_each body l st w = (Some st', w')
    /\ seqPos st' = seqPos st + read_consumed l
    /\ genomePos st' = genomePos st + reference_consumed l
    /\ newSeq st' = newSeq st +:+ bases
    /\ (MVal st', newCIGAR st') =
         fold_left write_op
           (deletions_result_ops chrom variants maxLen (genomePos st) l)
           (MVal st, newCIGAR st)
    /\ TE_entries st' =
         TE_entries st
         ++ deletions_log transcript variants maxLen (genomePos st) l.
Proof.
  revert st w bases. induction l as [|x l IH]; intros st w bases Hb.
  - injection Hb as <-. exists st, w. cbn.
    rewrite app_empty_r, app_nil_r. repeat split; lia.
  - cbn [deletions_result_bases] in Hb.
    destruct (deletion_result_bases _ _ _ _ _ _ x) as [b|] eqn:Hx; [|done].
    cbn [mbind option_bind] in Hb.
    destruct (deletions_body_step st x w b Hx)
      as (st1 & w1 & Hstep & Hp & Hg & Hseq & Hcig & Hte).
    rewrite <- Hp, <- Hg in Hb.
    destruct (deletions_result_bases _ _ _ _ _ _ l) as [bs|] eqn:Hl; [|done].
    injection Hb as <-.
    destruct (IH st1 w1 bs Hl)
      as (st2 & w2 & Hloop & Hp' & Hg' & Hseq' & Hcig' & Hte').
    exists st2, w2. cbn [for_each]. unfold mbind, M_bind, bind.
    rewrite Hstep, Hloop.
    cbn [read_consumed reference_consumed foldr deletions_result_ops
         deletions_log].
    fold (read_consumed l) (reference_consumed l).
    rewrite fold_left_app, <- Hcig, <- Hg, <- app_assoc_str, <- Hseq,
      app_assoc, <- Hte.
    repeat split; try done; lia.
Qed.

Lemma deletions_result_ops_app (l1 l2 : list (string * Z)) (g : Z) :
  deletions_result_ops chrom variants maxLen g (l1 ++ l2) =
  deletions_result_ops chrom variants maxLen g l1
  ++ deletions_result_ops chrom variants maxLen
       (g + reference_consumed l1) l2.
Proof.
  revert g. induction l1 as [|x l1 IH]; intros g;
    cbn [app deletions_result_ops reference_consumed foldr].
  - by rewrite Z.add_0_r.
  - fold (reference_consumed l1). by rewrite IH, <- app_assoc, !Z.add_assoc.
Qed.

Lemma deletions_log_app (l1 l2 : list (string * Z)) (g : Z) :
  deletions_log transcript variants maxLen g (l1 ++ l2) =
  deletions_log transcript variants maxLen g l1
  ++ deletions_log transcript variants maxLen (g + reference_consumed l1) l2.
Proof.
  revert g. induction l1 as [|x l1 IH]; intros g;
    cbn [app deletions_log reference_consumed foldr].
  - by rewrite Z.add_0_r.
  - fold (reference_consumed l1). by rewrite IH, <- app_assoc, !Z.add_assoc.
Qed.

Lemma correctable_deletions_app (l1 l2 : list (string * Z)) (g : Z) :
  correctable_deletions chrom variants maxLen g (l1 ++ l2) =
  correctable_deletions chrom variants maxLen g l1
  + correctable_deletions chrom variants maxLen
      (g + reference_consumed l1) l2.
Proof.
  revert g. induction l1 as [|x l1 IH]; intros g;
    cbn [app correctable_deletions reference_consumed foldr].
  - by rewrite Z.add_0_r.
  - fold (reference_consumed l1). rewrite IH, !Z.add_assoc. lia.
Qed.

Lemma deletions_result_bases_app (l1 l2 : list (string * Z)) (p g : Z) :
  deletions_result_bases genome transcript variants maxLen p g (l1 ++ l2) =
  b1 ← deletions_result_bases genome transcript variants maxLen p g l1;
  b2 ← deletions_result_bases genome transcript variants maxLen
         (p + read_consumed l1) (g + reference_consumed l1) l2;
  Some (b1 +:+ b2).
Proof.
  revert p g. induction l1 as [|x l1 IH]; intros p g;
    cbn [app deletions_result_bases read_consumed reference_consumed foldr].
  - rewrite !Z.add_0_r. cbn [mbind option_bind].
    by destruct (deletions_result_bases _ _ _ _ _ _ l2).
  - fold (read_consumed l1) (reference_consumed l1).
    destruct (deletion_result_bases _ _ _ _ _ _ x) as [b|]; [|done].
    cbn [mbind option_bind]. rewrite IH, !Z.add_assoc.
    destruct (deletions_result_bases _ _ _ _ _ _ l1) as [b1|]; [|done].
    cbn [mbind option_bind].
    destruct (deletions_result_bases _ _ _ _ _ _ l2) as [b2|]; [|done].
    cbn [mbind option_bind]. by rewrite app_assoc_str.
Qed.

(** When the operations fit the sequence and the accessor honours its
    contract, the resulting bases are as many as the operations cover, plus
    the Deletion runs corrected. *)
Lemma deletions_result_bases_len (l : list (string * Z)) (p g : Z)
    (bases : string) :
  spans genome ->
  Forall (fun x => 0 <= snd x) l ->
  0 <= p -> p + read_consumed l <= Py.len (Transcript.SEQ transcript) ->
  deletions_result_bases genome transcript variants maxLen p g l
    = Some bases ->
  Py.len bases =
    read_consumed l + correctable_deletions chrom variants maxLen g l.
Proof.
  intros Hspans Hnn. revert p g bases.
  induction Hnn as [|x l Hx Hl IH]; intros p g bases Hp Hfit Hb;
    cbn [deletions_result_bases correctable_deletions read_consumed foldr]
      in *.
  - by injection Hb as <-.
  - fold (read_consumed l) in *.
    pose proof (read_step_nonneg x Hx) as Hstep.
    assert (0 <= read_consumed l) as Hrest.
    { clear -Hl. induction Hl as [|y l Hy Hl IH]; cbn; [done|].
      fold (read_consumed l). pose proof (read_step_nonneg y Hy). lia. }
    destruct (deletion_result_bases _ _ _ _ _ _ x) as [b|] eqn:Hx'; [|done].
    cbn [mbind option_bind] in Hb.
    destruct (deletions_result_bases _ _ _ _ _ _ l) as [bs|] eqn:Hl'; [|done].
    injection Hb as <-.
    rewrite len_app, (IH (p + read_step x) (g + reference_step x) bs)
      by (done || lia).
    enough (Py.len b =
              read_step x
              + (if correctable_deletion chrom variants maxLen g x
                 then snd x else 0)) by lia.
    clear IH Hl'. destruct x as [op ct].
    unfold deletion_result_bases, correctable_deletion, read_op, read_step in *.
    cbn [fst snd Py.str_in existsb] in *.
    destruct (String.eqb_spec op "D") as [->|HD];
      cbn [String.eqb Ascii.eqb Bool.eqb andb orb negb] in *.
    + destruct (Z.leb_spec ct maxLen).
      * destruct (genome chrom g (g + ct - 1)) as [refBases|] eqn:Hgen;
          [|done].
        injection Hx' as <-. apply Hspans in Hgen.
        cbn [andb]. destruct (negb _); [lia|done].
      * by injection Hx' as <-.
    + destruct (String.eqb_spec op "M") as [->|HM];
        [|destruct (String.eqb_spec op "I") as [->|HI];
          [|destruct (String.eqb_spec op "S") as [->|HS]]];
        cbn [String.eqb Ascii.eqb Bool.eqb andb orb negb] in *;
        injection Hx' as <-;
        [rewrite len_slice by lia; lia..|].
      change (Py.len "") with 0. lia.
Qed.

Lemma log_only_deletions_body st x : log_only (body st x).
Proof.
  destruct x as [op ct]. unfold deletions_body.
  destruct (String.eqb _ "D"); [|auto with log_only].
  destruct (_ <=? _); [|auto with log_only].
  destruct (decide _); auto with log_only.
Qed.

Lemma log_only_correctDeletions :
  log_only (correctDeletions transcript genome variants maxLen).
Proof.
  unfold correctDeletions.
  repeat (apply log_only_bind; [auto with log_only|intros ?]).
  destruct a2 as [cigarOps cigarCounts].
  destruct (negb _); [auto with log_only|].
  apply log_only_bind.
  - apply log_only_for_each. apply log_only_deletions_body.
  - intros st. destruct (loop_end st).
    apply log_only_bind; [auto with log_only|].
    intros [nm md]. auto with log_only.
Qed.

(** Deletion correction computes what it is specified to: on a transcript
    whose CIGAR holds a D and can be split, when the reference lookups it
    makes return and the tags can be recomputed, it returns, with the
    resulting bases as sequence, the resulting operations as CIGAR, the new
    tags, and one log line per Deletion run. *)
Theorem correctDeletions_refines (ops : list string) (cts : list Z)
    (bases : string) (nm : Z) (md : string) (w : World) :
  Transcript.splitCIGAR transcript = Some (ops, cts) ->
  Py.char_in "D" (Transcript.CIGAR transcript) = true ->
  let l := Py.zip ops cts in
  let POS := Transcript.POS transcript in
  let result :=
    Transcript.set_SEQ_CIGAR bases
      (cigar_of (deletions_result_ops chrom variants maxLen POS l))
      transcript in
  deletions_result_bases genome transcript variants maxLen 0 POS l
    = Some bases ->
  getNMandMDFlags result genome = Some (nm, md) ->
  exists w',
    correctDeletions transcript genome variants maxLen w =
      (Some (Transcript.set_NM_MD nm md result,
             deletions_log transcript variants maxLen POS l), w').
Proof.
  intros Hsplit HD l POS result Hb Htags. subst result l POS.
  unfold correctDeletions.
  unfold mbind, M_bind, bind, set_counter, call. cbn [fst snd].
  rewrite Hsplit, HD. cbn [negb].
  match goal with
  | |- context [for_each _ ?l ?st ?w0] =>
      destruct (deletions_loop l st w0 bases Hb)
        as (st' & w' & Hloop & _ & _ & Hseq & Hcig & Hte)
  end.
  rewrite Hloop. exists w'.
  unfold loop_end, cigar_of in *.
  cbn [loop_start seqPos genomePos newSeq MVal newCIGAR TE_entries] in *.
  rewrite <- Hcig in Htags. rewrite <- Hcig. cbn [fst snd] in *.
  destruct (Cigar.endMatch (MVal st') (newCIGAR st')) as [m c] eqn:Hend.
  rewrite app_empty_l in Hseq. cbn [app] in Hte. cbn [snd] in *.
  rewrite Hseq, Htags.
  unfold mret, M_ret, ret. by rewrite Hte.
Qed.


End Deletions.


(** ** Runs above the size bound *)

Section SizeBound.
Context {methods : Methods}.
Variables (transcript : Transcript.t) (genome : Genome) (maxLen : Z).

Local Abbreviation chrom := (Transcript.CHROM transcript).
Local Abbreviation POS := (Transcript.POS transcript).


End SizeBound.


(** ** Noncanonical junctions *)

Section Junctions.
Context {methods : Methods}.

Lemma too_far_test (maxDist d_donor d_acceptor : Z) :
  too_far maxDist d_donor d_acceptor ->
  (maxDist <? Junction.combinedJunctionDist d_donor d_acceptor)
  || (2 * maxDist <? Z.abs d_donor) || (2 * maxDist <? Z.abs d_acceptor)
  = true.
Proof.
  intros [Hc | [Hd | Ha]]; rewrite !orb_true_iff.
  - left; left. by apply Z.ltb_lt.
  - left; right. by apply Z.ltb_lt.
  - right. by apply Z.ltb_lt.
Qed.

(** C7. A junction whose closest annotated donor and acceptor are too far
    (the combined offset above the maximum, or one offset's magnitude above
    twice the maximum): the attempt returns uncorrected with reason
    TooFarFromAnnotJn and the combined offset, and writes nothing; the loop
    of [cleanNoncanonical] then keeps the transcript it had (sequence, CIGAR
    and all), leaves every junction object as it was, counts the junction
    as uncorrected and logs it with that reason. *)
Theorem too_far_junction_untouched (transcript : Transcript.t) (refs : Refs)
    (maxDist : Z) (n : nat) (j : SpliceJunction.t) (ref_donor ref_acceptor : Closest)
    (TE : list string) (w : World) :
  spliceJunctions w !! n = Some j ->
  find_closest_ref_junction j (donors refs) (acceptors refs)
    = Some (ref_donor, ref_acceptor) ->
  too_far maxDist (dist ref_donor) (dist ref_acceptor) ->
  let combined :=
    Junction.combinedJunctionDist (dist ref_donor) (dist ref_acceptor) in
  attempt_jn_correction transcript n (genome refs) (donors refs)
    (acceptors refs) (sjAnnot refs) maxDist w
    = (Some (transcript, (false, "TooFarFromAnnotJn", combined)), w)
  /\ (SpliceJunction.isCanonical j = false ->
      exists w',
        cleanNoncanonical_body refs maxDist (transcript, TE) n w
          = (Some (transcript,
                   TE ++ [errorEntry (Transcript.QNAME transcript)
                            (Py.join "_"
                               [SpliceJunction.chrom j;
                                Py.str (SpliceJunction.start j);
                                Py.str (SpliceJunction.end_ j)])
                            "NC_SJ_boundary" combined "Uncorrected"
                            "TooFarFromAnnotJn"]), w')
        /\ spliceJunctions w' = spliceJunctions w
        /\ events w' = events w
        /\ logInfo w' = LogInfo.incr LogInfo.UncorrectedNCSJs (logInfo w)).
Proof.
  intros Hj Hclosest Hfar combined.
  assert (attempt_jn_correction transcript n (genome refs) (donors refs)
            (acceptors refs) (sjAnnot refs) maxDist w
          = (Some (transcript, (false, "TooFarFromAnnotJn", combined)), w))
    as Hattempt.
  { unfold attempt_jn_correction, junction, call.
    unfold mbind at 1 2, M_bind, bind. rewrite Hj, Hclosest.
    by rewrite (too_far_test _ _ _ Hfar). }
  split; [exact Hattempt|].
  intros Hnc. eexists. split.
  - unfold cleanNoncanonical_body, junction.
    unfold mbind at 1 2, M_bind, bind. rewrite Hj, Hnc, Hattempt.
    reflexivity.
  - done.
Qed.

End Junctions.

Lemma too_far_junction_untouched_witness :
  let combined := Junction.combinedJunctionDist 7 2 in
  attempt_jn_correction (methods := Sample.methods) Sample.spliced_far 0
    Sample.fasta (donors Sample.refs) (acceptors Sample.refs)
    (sjAnnot Sample.refs) 2 (Sample.world "r7" [Sample.intron 16 30 false])
    = (Some (Sample.spliced_far, (false, "TooFarFromAnnotJn", combined)),
       Sample.world "r7" [Sample.intron 16 30 false])
  /\ exists w',
       cleanNoncanonical_body (methods := Sample.methods) Sample.refs 2
         (Sample.spliced_far, []) 0
         (Sample.world "r7" [Sample.intron 16 30 false])
       = (Some (Sample.spliced_far,
                [errorEntry "r7" "chr1_16_30" "NC_SJ_boundary" combined
                   "Uncorrected" "TooFarFromAnnotJn"]), w')
       /\ spliceJunctions w' = [Sample.intron 16 30 false].
Proof.
  assert (Hfar : too_far 2 7 2) by (left; reflexivity).
  destruct (too_far_junction_untouched (methods := Sample.methods)
              Sample.spliced_far Sample.refs 2 0 (Sample.intron 16 30 false)
              {| closest_chrom := "chr1"; closest_start := 22;
                 closest_end := 23; dist := 7 |}
              {| closest_chrom := "chr1"; closest_start := 31;
                 closest_end := 32; dist := 2 |}
              [] (Sample.world "r7" [Sample.intron 16 30 false])
              eq_refl eq_refl Hfar)
    as [Hattempt Hbody].
  split; [exact Hattempt|].
  destruct (Hbody eq_refl) as (w' & Hrun & Hsjs & _ & _).
  exists w'. split; [exact Hrun|exact Hsjs].
Defined.

(** ** Records with nothing to correct *)

Section NothingToCorrect.
Context {methods : Methods}.
Variable transcript : Transcript.t.

(** The world after a corrector has reset its counters. *)
Local Abbreviation reset c w := (snd (set_counter c 0 w)).

Lemma correctMismatches_no_bases (genome : Genome)
    (variants : gmap string (list string)) (w : World) :
  has_mismatch_bases (Transcript.MD transcript) = false ->
  correctMismatches transcript genome variants w =
    (Some (transcript, []),
     reset LogInfo.CorrectedMismatches
       (reset LogInfo.UncorrectedMismatches w)).
Proof.
  intros Hmd. unfold correctMismatches, mbind, M_bind, bind.
  cbn [set_counter fst snd]. by rewrite Hmd.
Qed.

Lemma correctInsertions_no_I (genome : Genome)
    (variants : gmap string (list string)) (maxLen : Z) (w : World) :
  Py.char_in "I" (Transcript.CIGAR transcript) = false ->
  correctInsertions transcript genome variants maxLen w =
    (match Transcript.splitCIGAR transcript with
     | Some _ => Some (transcript, [])
     | None => None
     end,
     reset LogInfo.VariantInsertions
       (reset LogInfo.CorrectedInsertions
          (reset LogInfo.UncorrectedInsertions w))).
Proof.
  intros HI. unfold correctInsertions, mbind, M_bind, bind, call.
  cbn [set_counter fst snd].
  destruct (Transcript.splitCIGAR transcript) as [[ops cts]|]; [|done].
  by rewrite HI.
Qed.

Lemma correctDeletions_no_D (genome : Genome) (variants : gmap string Z)
    (maxLen : Z) (w : World) :
  Py.char_in "D" (Transcript.CIGAR transcript) = false ->
  correctDeletions transcript genome variants maxLen w =
    (match Transcript.splitCIGAR transcript with
     | Some _ => Some (transcript, [])
     | None => None
     end,
     reset LogInfo.VariantDeletions
       (reset LogInfo.CorrectedDeletions
          (reset LogInfo.UncorrectedDeletions w))).
Proof.
  intros HD. unfold correctDeletions, mbind, M_bind, bind, call.
  cbn [set_counter fst snd].
  destruct (Transcript.splitCIGAR transcript) as [[ops cts]|]; [|done].
  by rewrite HD.
Qed.

(** The loop of [cleanNoncanonical] passes over canonical junctions. *)
Lemma canonical_junctions_skipped (refs : Refs) (maxDist : Z)
    (st : Transcript.t * list string) (l : list nat) (w : World) :
  (forall n, In n l ->
     exists j, spliceJunctions w !! n = Some j
               /\ SpliceJunction.isCanonical j = true) ->
  for_each (cleanNoncanonical_body refs maxDist) l st w = (Some st, w).
Proof.
  induction l as [|n l IH]; intros Hl; [done|].
  cbn [for_each]. unfold mbind, M_bind, bind.
  destruct (Hl n) as (j & Hj & Hcan); [by left|].
  destruct st as [t TE]. unfold cleanNoncanonical_body at 1, junction.
  unfold mbind, M_bind, bind. rewrite Hj, Hcan.
  apply IH. intros n' Hn'. apply Hl. by right.
Qed.

Lemma cleanNoncanonical_all_canonical (refs : Refs) (maxDist : Z) (w : World) :
  Forall (fun j => SpliceJunction.isCanonical j = true) (spliceJunctions w) ->
  cleanNoncanonical transcript refs maxDist w =
    (Some (transcript, []),
     reset LogInfo.UncorrectedNCSJs (reset LogInfo.CorrectedNCSJs w)).
Proof.
  intros Hall. unfold cleanNoncanonical, mbind, M_bind, bind, all_junctions.
  cbn [set_counter fst snd].
  destruct (Transcript.isCanonical transcript); [done|].
  apply canonical_junctions_skipped. cbn [spliceJunctions].
  intros n Hn. apply in_seq in Hn as [_ Hn]. cbn in Hn.
  destruct (lookup_lt_is_Some_2 (spliceJunctions w) n Hn) as [j Hj].
  exists j. split; [done|].
  rewrite Forall_forall in Hall. apply Hall.
  by apply list_elem_of_lookup_2 with n.
Qed.

(** With no mismatch bases in the tag, no I and no D in the CIGAR and only
    canonical junctions, the stages hand the record on as it is; the only
    way they can raise is on a CIGAR that cannot be split. *)
Lemma corrections_nothing (options : Options) (refs : Refs) (w : World) :
  has_mismatch_bases (Transcript.MD transcript) = false ->
  Py.char_in "I" (Transcript.CIGAR transcript) = false ->
  Py.char_in "D" (Transcript.CIGAR transcript) = false ->
  Forall (fun j => SpliceJunction.isCanonical j = true) (spliceJunctions w) ->
  exists w',
    spliceJunctions w' = spliceJunctions w
    /\ events w' = events w
    /\ (corrections transcript options refs w = (Some (transcript, []), w')
        \/ corrections transcript options refs w = (None, w')).
Proof.
  intros Hmd HI HD Hall. unfold corrections, mbind, M_bind, bind.
  assert (forall c w0, spliceJunctions (snd (set_counter c 0 w0))
                       = spliceJunctions w0) as Hkeep by done.
  destruct (String.eqb (mismatchCorrection options) "true");
    rewrite ?correctMismatches_no_bases by done;
    lazy beta iota zeta delta [ret mret M_ret app];
    (destruct (String.eqb (indelCorrection options) "true");
     [rewrite correctInsertions_no_I by done;
      destruct (Transcript.splitCIGAR transcript) as [[ops cts]|] eqn:Hsplit;
      [rewrite correctDeletions_no_D, Hsplit by done|]|]);
    lazy beta iota zeta delta [ret mret M_ret app];
    try (eexists; split; [|split; [|right; reflexivity]]; done);
    (destruct ((0 <? Z.of_nat (size (sjAnnot refs)))
               && String.eqb (sjCorrection options) "true");
     [rewrite cleanNoncanonical_all_canonical by (by rewrite ?Hkeep)|]);
    lazy beta iota zeta delta [ret mret M_ret app];
    eexists; (split; [|split; [|left; reflexivity]]); done.
Qed.

(** C9. A record whose mismatch tag has no base letters, whose CIGAR has no
    I and no D, and whose junctions are all canonical: for every setting of
    the options, every variant catalog and every splice reference,
    [correct_transcript] returns the record with all its fields as they were
    read, no log line, and its junction objects as they were. *)
Theorem nothing_to_correct_unchanged (transcript_line : string)
    (options : Options) (refs : Refs) (w : World) :
  transcript_init transcript_line (genome refs) (sjAnnot refs)
    = Some (Some transcript, w) ->
  has_mismatch_bases (Transcript.MD transcript) = false ->
  Py.char_in "I" (Transcript.CIGAR transcript) = false ->
  Py.char_in "D" (Transcript.CIGAR transcript) = false ->
  Forall (fun j => SpliceJunction.isCanonical j = true) (spliceJunctions w) ->
  exists w',
    correct_transcript transcript_line options refs
      = Some (Some transcript, [], w')
    /\ spliceJunctions w' = spliceJunctions w.
Proof.
  intros Hinit Hmd HI HD Hall. unfold correct_transcript.
  rewrite Hinit. cbn [mbind option_bind].
  destruct (corrections_nothing options refs w Hmd HI HD Hall)
    as (w' & Hsjs & Hev & [Hrun | Hrun]); rewrite Hrun.
  - by exists w'.
  - eexists. split; [reflexivity|]. exact Hsjs.
Qed.

End NothingToCorrect.

Lemma nothing_to_correct_unchanged_witness :
  exists w',
    correct_transcript (methods := Sample.methods) Sample.spliced_right
      Sample.options Sample.refs
    = Some (Some (Sample.read "r8" "chr1" 1 "5M9N8M10N4M" "ACGTATTTTGGGGCCCC"
                    "MD:Z:17"), [], w')
    /\ spliceJunctions w' =
         [Sample.intron 6 14 true; Sample.intron 23 32 true].
Proof.
  apply (nothing_to_correct_unchanged (methods := Sample.methods)
           (Sample.read "r8" "chr1" 1 "5M9N8M10N4M" "ACGTATTTTGGGGCCCC"
              "MD:Z:17")
           Sample.spliced_right Sample.options Sample.refs
           (Sample.world "r8"
              [Sample.intron 6 14 true; Sample.intron 23 32 true]));
    [reflexivity | reflexivity | reflexivity | reflexivity |].
  repeat constructor.
Defined.

(** ** Junction attempts that fail *)

Section FailedAttempts.
Context {methods : Methods}.

(** When the attempt on a noncanonical junction does not correct it, the
    loop of [cleanNoncanonical] goes on with the transcript object it had:
    its sequence, CIGAR and tags are those from before the attempt, and the
    junction is counted and logged as uncorrected with the attempt's
    reason. What the attempt wrote to the world stays written. *)
Lemma uncorrected_junction_keeps_transcript (transcript temp : Transcript.t)
    (refs : Refs) (maxDist : Z) (n : nat) (j : SpliceJunction.t)
    (reason : string) (d : Z) (TE : list string) (w w1 : World) :
  spliceJunctions w !! n = Some j ->
  SpliceJunction.isCanonical j = false ->
  attempt_jn_correction transcript n (genome refs) (donors refs)
    (acceptors refs) (sjAnnot refs) maxDist w
    = (Some (temp, (false, reason, d)), w1) ->
  cleanNoncanonical_body refs maxDist (transcript, TE) n w
    = (Some (transcript,
             TE ++ [errorEntry (Transcript.QNAME transcript)
                      (Py.join "_" [SpliceJunction.chrom j;
                                    Py.str (SpliceJunction.start j);
                                    Py.str (SpliceJunction.end_ j)])
                      "NC_SJ_boundary" d "Uncorrected" reason]),
       snd (incr_counter LogInfo.UncorrectedNCSJs w1)).
Proof.
  intros Hj Hnc Hattempt. unfold cleanNoncanonical_body, junction.
  unfold mbind at 1 2, M_bind, bind. by rewrite Hj, Hnc, Hattempt.
Qed.

Lemma bind_call_world {A B : Type} (o : option A) (f : A -> M B) (w : World) :
  (call o ≫= f) w = match o with Some a => f a w | None => (None, w) end.
Proof. by destruct o. Qed.

Local Ltac run_fix_one_side :=
  repeat match goal with
         | |- context [if ?b then _ else _] => destruct b
         | |- context [match ?o with Some _ => _ | None => _ end] =>
             destruct o
         | _ => progress cbn [fst snd mret M_ret ret]
         end.

(** All that [fix_one_side_of_junction] writes is the boundary object it was
    given, moved by [d]; and it may have written it when it raises. *)
Lemma fix_one_side_of_junction_world (chrom : string) (transcript_start : Z)
    (jn_number : nat) (intronBound : BoundRef) (d : Z) (genome : Genome)
    (seq oldCIGAR : string) (w : World) :
  let w' := snd (fix_one_side_of_junction chrom transcript_start jn_number
                   intronBound d genome seq oldCIGAR w) in
  w' = w \/ w' = snd (shift_bound intronBound d w).
Proof.
  cbv zeta. unfold fix_one_side_of_junction.
  destruct (d =? 0); [by left|].
  rewrite bind_call_world.
  destruct (group_CIGAR_by_exon_and_intron oldCIGAR seq)
    as [[[exonCIGARs intronCIGARs] exonSeqs]|]; [|by left].
  unfold read_bound, junction.
  unfold mbind, M_bind, bind, call, shift_bound, update_junction.
  cbn [fst snd].
  destruct (spliceJunctions w !! intronBound.1) as [j|]; [|by left].
  cbn [mret M_ret ret].
  destruct (Z.ltb_spec 0 d), (Z.ltb_spec d 0); try lia; run_fix_one_side; auto.
Qed.

(** When [fix_one_side_of_junction] returns with an offset other than zero,
    the boundary object has been moved: a later failure of the same attempt
    finds it moved. *)
Lemma fix_one_side_of_junction_shifts (chrom : string) (transcript_start : Z)
    (jn_number : nat) (intronBound : BoundRef) (d : Z) (genome : Genome)
    (seq oldCIGAR : string) (w w' : World) (r : string * string) :
  d <> 0 ->
  fix_one_side_of_junction chrom transcript_start jn_number intronBound d
    genome seq oldCIGAR w = (Some r, w') ->
  w' = snd (shift_bound intronBound d w).
Proof.
  intros Hd. unfold fix_one_side_of_junction.
  destruct (Z.eqb_spec d 0) as [|_]; [done|].
  rewrite bind_call_world.
  destruct (group_CIGAR_by_exon_and_intron oldCIGAR seq)
    as [[[exonCIGARs intronCIGARs] exonSeqs]|]; [|done].
  unfold read_bound, junction.
  unfold mbind, M_bind, bind, call, shift_bound, update_junction.
  cbn [fst snd].
  destruct (spliceJunctions w !! intronBound.1) as [j|]; [|done].
  cbn [mret M_ret ret].
  destruct (Z.ltb_spec 0 d), (Z.ltb_spec d 0); try lia; run_fix_one_side;
    intros [= _ <-]; auto.
Qed.

End FailedAttempts.

(** C3 fails on the junction objects, which the speculative copy shares
    with the record.
    - The read [4M11N] has its intron at 5-15; the closest annotated donor
      is at 6 and the closest acceptor at 14. The donor side is moved by +1;
      on the acceptor side [fix_one_side_of_junction] moves the boundary
      object by -1 and then [editExonCIGAR] finds no operation in the empty
      last exon. The junction is logged uncorrected with reason Other and
      the transcript is the one from before the attempt, but both boundary
      objects of its junction stay moved.
    - The read [5M1D1M7N8M] has its intron at 8-14 and the closest annotated
      donor at 6. Moving the donor side by -2 takes the last Match and the
      Deletion off the first exon, which leaves a CIGAR that covers one base
      more than the sequence has, so the tags cannot be recomputed. Again
      the junction is logged with reason Other and the transcript kept, but
      its junction object now starts at 6, has its left boundary at 6 and is
      flagged canonical. *)
Theorem failed_attempt_leaves_junction_shifted :
  (let w := Sample.world "r2" [Sample.intron 5 15 false] in
   exists w',
     cleanNoncanonical (methods := Sample.methods) Sample.spliced_at_end
       Sample.refs 5 w
     = (Some (Sample.spliced_at_end,
              [errorEntry "r2" "chr1_5_15" "NC_SJ_boundary" 2 "Uncorrected"
                 "Other"]), w')
     /\ (SpliceJunction.left <$> spliceJunctions w')
        = [{| IntronBound.bound := 0; IntronBound.pos := 6 |}]
     /\ (SpliceJunction.right <$> spliceJunctions w')
        = [{| IntronBound.bound := 1; IntronBound.pos := 14 |}]
     /\ spliceJunctions w' <> spliceJunctions w)
  /\
  (let w := Sample.world "r9" [Sample.intron 8 14 false] in
   exists w',
     cleanNoncanonical (methods := Sample.methods)
       Sample.spliced_after_deletion Sample.refs 5 w
     = (Some (Sample.spliced_after_deletion,
              [errorEntry "r9" "chr1_8_14" "NC_SJ_boundary" 2 "Uncorrected"
                 "Other"]), w')
     /\ spliceJunctions w' = [Sample.intron 6 14 true]
     /\ spliceJunctions w' <> spliceJunctions w).
Proof.
  split.
  - eexists. split; [vm_compute; reflexivity|]. repeat split. intros [=].
  - eexists. split; [vm_compute; reflexivity|]. split; [reflexivity|].
    intros [=].
Qed.

(** ** The orchestrator *)

Section Rollback.
Context {methods : Methods}.

Lemma sjAnnot_nonempty (annot : gset string) :
  annot <> ∅ -> (0 <? Z.of_nat (size annot)) = true.
Proof.
  intros Hne. apply Z.ltb_lt.
  enough (size annot <> 0%nat) by lia.
  intros Hsize. apply Hne. by apply size_empty_iff, leibniz_equiv in Hsize.
Qed.


End Rollback.



(** The same with a stage before the splice junctions: the read [4M2D4M]
    lies on a chromosome that the reference lacks, so the genome lookup of
    deletion correction raises. No log line is returned, and the returned
    log struct still counts the deletion that was being corrected. *)
Lemma correct_transcript_returns_no_log_entry :
  exists w',
    correct_transcript (methods := Sample.methods) Sample.off_reference
      Sample.options Sample.refs
    = Some (Some (Sample.read "r3" "chr2" 1 "4M2D4M" "ACGTACGT" "MD:Z:4^AC4"),
            [], w')
    /\ events w' = [Warn (problem_correcting "r3"); PrintException]
    /\ LogInfo.corrected_deletions (logInfo w') = Some 1.
Proof. eexists. split; [vm_compute; reflexivity|]. by split. Qed.

(** ** The variant catalog and the size bound *)

(** [processVCF] stores no indel above the size bound: the catalog cannot
    hold a variant for a run that the correctors leave as too large. *)
Lemma processVCF_allele_above_bound (maxLen : Z) (chrom : string) (pos : Z)
    (ref allele : string) (c : Catalog) :
  maxLen < Z.abs (Py.len ref - Py.len allele) ->
  0 <= maxLen ->
  processVCF_allele maxLen chrom pos ref c allele = c.
Proof.
  intros Hsize Hmax. unfold processVCF_allele.
  destruct (Z.eqb_spec (Py.len ref) (Py.len allele)); [lia|].
  cbn [andb]. by destruct (Z.ltb_spec maxLen (Z.abs (Py.len ref - Py.len allele)));
    [|lia].
Qed.

(** ** More on the combined distance, the orchestrator and the correctors *)

Section MoreJunctionDistance.
Import Junction.

(** X1. The combined distance lies between zero and the sum of the two
    magnitudes; it is zero exactly when the two offsets are equal, so a
    junction whose two ends are off by the same amount, however large,
    passes the test on the combined distance; and it does not change when
    both offsets change sign. *)
Theorem combinedJunctionDist_zero_iff (d0 d1 : Z) :
  0 <= combinedJunctionDist d0 d1 <= Z.abs d0 + Z.abs d1
  /\ (combinedJunctionDist d0 d1 = 0 <-> d0 = d1)
  /\ combinedJunctionDist (- d0) (- d1) = combinedJunctionDist d0 d1.
Proof.
  unfold combinedJunctionDist.
  replace (- d0 * - d1) with (d0 * d1) by lia.
  destruct (Z.leb_spec (d0 * d1) 0) as [Hp|Hp].
  - repeat split; try lia; intros; nia.
  - repeat split; try lia; intros; nia.
Qed.
End MoreJunctionDistance.

Section NoTranscript.
Context {methods : Methods}.

(** X2. A line whose chromosome is [*], whose flag is 4 or whose
    flag is above 16 is not corrected: [correct_transcript] returns no
    transcript and no log line, the log struct says unmapped or non-primary
    and all its counters are still NA; no transcript object is built and
    nothing is written to the streams, whatever the options and the
    references. *)
Theorem correct_transcript_skips_unmapped (transcript_line qname flag chrom : string)
    (rest : list string) (f : Z) (options : Options) (refs : Refs) :
  Py.split_on (ascii_of_nat 9) transcript_line = qname :: flag :: chrom :: rest ->
  Py.int flag = Some f ->
  chrom = "*" \/ f = 4 \/ 16 < f ->
  exists w,
    correct_transcript transcript_line options refs = Some (None, [], w)
    /\ init_log_info (qname :: flag :: chrom :: rest) = Some (logInfo w)
    /\ LogInfo.TranscriptID (logInfo w) = qname
    /\ LogInfo.Mapping (logInfo w)
       = (if String.eqb chrom "*" || (f =? 4) then "unmapped" else "non-primary")
    /\ (forall c, LogInfo.get c (logInfo w) = None)
    /\ spliceJunctions w = [] /\ events w = [].
Proof.
  intros Hsplit Hflag Hcase.
  unfold correct_transcript, transcript_init. rewrite Hsplit.
  unfold init_log_info. cbn [lookup list_lookup mbind option_bind].
  rewrite Hflag. cbn [mbind option_bind].
  assert (Hmap : (if String.eqb chrom "*" || (f =? 4) then "unmapped"
                  else if 16 <? f then "non-primary" else "primary")
                 = (if String.eqb chrom "*" || (f =? 4) then "unmapped"
                    else "non-primary")
                 /\ String.eqb
                      (if String.eqb chrom "*" || (f =? 4) then "unmapped"
                       else "non-primary") "primary" = false).
  { destruct (String.eqb_spec chrom "*") as [->|Hc]; cbn [orb]; [done|].
    destruct (Z.eqb_spec f 4) as [->|Hf]; [done|].
    destruct (Z.ltb_spec 16 f); [done|]. destruct Hcase as [?|[?|?]]; [done|done|lia]. }
  destruct Hmap as [Hmap Hnp]. rewrite Hmap.
  cbn [LogInfo.Mapping]. rewrite Hnp. cbn [negb].
  eexists. split; [reflexivity|]. cbn [logInfo spliceJunctions events].
  repeat split; try done. by intros [].
Qed.


(** X3. The only exceptions that leave [correct_transcript] are those
    of [init_log_info]: it raises exactly when the line has fewer than three
    tab-separated fields or its flag is not a number. No exception of the
    transcript constructor or of a correction stage reaches the caller. *)
Theorem correct_transcript_raises_iff (transcript_line : string)
    (options : Options) (refs : Refs) :
  let sam_fields := Py.split_on (ascii_of_nat 9) transcript_line in
  correct_transcript transcript_line options refs = None
  <-> (length sam_fields < 3)%nat
      \/ exists flag, sam_fields !! 1%nat = Some flag /\ Py.int flag = None.
Proof.
  cbv zeta. unfold correct_transcript, transcript_init, init_log_info.
  destruct (Py.split_on _ _) as [|qname [|flag [|chrom rest]]];
    cbn [length lookup list_lookup mbind option_bind];
    try (split; [intros _; left; lia|done]).
  - destruct (Py.int flag); (split; [intros _; left; lia|done]).
  - destruct (Py.int flag) as [f|] eqn:Hflag; cbn [mbind option_bind].
    + split.
      * cbn [LogInfo.Mapping]. intros Hnone. exfalso.
        repeat (case_match; simplify_eq; cbn [mbind option_bind] in * ).
      * intros [Hlen|(flag' & [= <-] & Hnone)]; [lia|congruence].
    + split; [|done]. intros _. right. by exists flag.
Qed.

(** X4. When the transcript constructor raises on a primary
    alignment, [correct_transcript] returns no transcript and no log line,
    with the log struct of [init_log_info], after a warning that names the
    transcript and after printing the exception. *)
Theorem correct_transcript_parse_failure (transcript_line : string)
    (options : Options) (refs : Refs) (l : LogInfo.t) :
  let sam_fields := Py.split_on (ascii_of_nat 9) transcript_line in
  init_log_info sam_fields = Some l ->
  LogInfo.Mapping l = "primary" ->
  Transcript_new sam_fields (genome refs) (sjAnnot refs) = None ->
  correct_transcript transcript_line options refs =
    Some (None, [],
          {| logInfo := l; spliceJunctions := [];
             events := [Warn (problem_parsing (LogInfo.TranscriptID l));
                        PrintException] |}).
Proof.
  cbv zeta. intros Hlog Hprimary Hnew.
  unfold correct_transcript, transcript_init.
  rewrite Hlog. cbn [mbind option_bind]. by rewrite Hprimary, Hnew.
Qed.

End NoTranscript.

Section CorrectorsFrame.
Context {methods : Methods}.

Lemma log_only_mismatches_body transcript genome variants st x :
  log_only (mismatches_body transcript genome variants st x).
Proof.
  destruct x as [op ct]. unfold mismatches_body, mismatch_to_reference.
  auto 12 with log_only.
Qed.

(** X5. Mismatch, insertion and deletion correction write to the log
    struct only: the junction objects and the two streams are as before,
    whether the corrector returns or raises. *)
Theorem correctors_leave_junctions (transcript : Transcript.t) (genome : Genome)
    (snps insertions : gmap string (list string)) (deletions : gmap string Z)
    (maxLen : Z) :
  log_only (correctMismatches transcript genome snps)
  /\ log_only (correctInsertions transcript genome insertions maxLen)
  /\ log_only (correctDeletions transcript genome deletions maxLen).
Proof.
  split; [|split].
  - unfold correctMismatches.
    repeat (apply log_only_bind; [auto with log_only|intros ?]).
    destruct (negb _); [auto with log_only|].
    apply log_only_bind; [auto with log_only|intros [ops cts]].
    apply log_only_bind.
    + apply log_only_for_each. intros st x. apply log_only_mismatches_body.
    + intros st. destruct (loop_end st). auto 8 with log_only.
  - apply log_only_correctInsertions.
  - apply log_only_correctDeletions.
Qed.

End CorrectorsFrame.

Lemma correct_transcript_skips_unmapped_witness :
  exists w,
    correct_transcript (methods := Sample.methods)
      (Sample.sam_line "r11" "256" "chr1" "1" "5M" "ACGTA" "MD:Z:5")
      Sample.options Sample.refs = Some (None, [], w)
    /\ LogInfo.Mapping (logInfo w) = "non-primary"
    /\ spliceJunctions w = [] /\ events w = [].
Proof.
  destruct (correct_transcript_skips_unmapped (methods := Sample.methods)
              (Sample.sam_line "r11" "256" "chr1" "1" "5M" "ACGTA" "MD:Z:5")
              "r11" "256" "chr1"
              ["1"; "255"; "5M"; "*"; "0"; "0"; "ACGTA"; "*"; "NM:i:0";
               "MD:Z:5"]
              256 Sample.options Sample.refs eq_refl eq_refl)
    as (w & Hrun & _ & _ & Hmap & _ & Hsjs & Hev).
  - right. right. lia.
  - exists w. repeat split; assumption.
Defined.

Lemma correct_transcript_raises_iff_witness :
  correct_transcript (methods := Sample.methods) "r12" Sample.options
    Sample.refs = None.
Proof.
  apply (proj2 (correct_transcript_raises_iff (methods := Sample.methods)
                  "r12" Sample.options Sample.refs)).
  left. vm_compute. lia.
Defined.

Lemma correct_transcript_parse_failure_witness :
  exists l,
    correct_transcript (methods := Sample.methods)
      (Sample.sam_line "r13" "0" "chr1" "one" "5M" "ACGTA" "MD:Z:5")
      Sample.options Sample.refs
    = Some (None, [],
            {| logInfo := l; spliceJunctions := [];
               events := [Warn (problem_parsing "r13"); PrintException] |}).
Proof.
  eexists.
  apply (correct_transcript_parse_failure (methods := Sample.methods)
           (Sample.sam_line "r13" "0" "chr1" "one" "5M" "ACGTA" "MD:Z:5")
           Sample.options Sample.refs _ eq_refl eq_refl eq_refl).
Defined.

(** ** Written CIGARs *)

Section RoundTrip.

Local Abbreviation chars := list_ascii_of_string.

Lemma is_digit_not_space (c : ascii) :
  Py.is_digit c = true -> Py.is_space c = false /\ Py.is_upper c = false.
Proof.
  unfold Py.is_digit, Py.is_space, Py.is_upper.
  generalize (nat_of_ascii c). intros n Hn.
  apply andb_true_iff in Hn as [H1%Nat.leb_le H2%Nat.leb_le].
  split.
  - repeat (apply orb_false_iff; split); rewrite ?andb_false_iff,
      ?Nat.leb_gt, ?Nat.eqb_neq; lia.
  - rewrite andb_false_iff, !Nat.leb_gt. lia.
Qed.

Lemma is_upper_not_space (c : ascii) :
  Py.is_upper c = true -> Py.is_space c = false /\ Py.is_digit c = false.
Proof.
  unfold Py.is_digit, Py.is_space, Py.is_upper.
  generalize (nat_of_ascii c). intros n Hn.
  apply andb_true_iff in Hn as [H1%Nat.leb_le H2%Nat.leb_le].
  split.
  - repeat (apply orb_false_iff; split); rewrite ?andb_false_iff,
      ?Nat.leb_gt, ?Nat.eqb_neq; lia.
  - rewrite andb_false_iff, !Nat.leb_gt. lia.
Qed.

Lemma uint_digits (d : Decimal.uint) :
  Forall (fun c => Py.is_digit c = true) (chars (NilEmpty.string_of_uint d)).
Proof. induction d; cbn; constructor; done. Qed.

Lemma string_of_uint_nonnil (d : Decimal.uint) :
  d <> Decimal.Nil -> NilZero.string_of_uint d = NilEmpty.string_of_uint d.
Proof. by destruct d. Qed.

(** [str] of a number that is not negative is a run of digits. *)
Lemma str_digits (n : Z) :
  0 <= n ->
  Forall (fun c => Py.is_digit c = true) (chars (Py.str n))
  /\ Py.str n <> "".
Proof.
  intros Hn. unfold Py.str. destruct n as [|p|p]; [| |lia].
  - split; [by repeat constructor|done].
  - cbn [Z.to_int NilZero.string_of_int].
    pose proof (DecimalPos.Unsigned.to_uint_nonnil p) as Hnil.
    rewrite string_of_uint_nonnil by done.
    split; [apply uint_digits|]. by destruct (Pos.to_uint p).
Qed.

(** Reading the digits of a positive number, with the digits read so far
    in [acc]. *)
Lemma int_digits_acc (d : Decimal.uint) (acc : positive) :
  Py.int_digits (Z.pos acc) true (NilEmpty.string_of_uint d)
  = Some (Z.pos (Pos.of_uint_acc d acc)).
Proof.
  revert acc. induction d; intros acc;
    cbn [NilEmpty.string_of_uint Py.int_digits Pos.of_uint_acc]; [done|..];
    (change (Py.digit _) with (Some 0) || change (Py.digit _) with (Some 1)
     || change (Py.digit _) with (Some 2) || change (Py.digit _) with (Some 3)
     || change (Py.digit _) with (Some 4) || change (Py.digit _) with (Some 5)
     || change (Py.digit _) with (Some 6) || change (Py.digit _) with (Some 7)
     || change (Py.digit _) with (Some 8) || change (Py.digit _) with (Some 9));
    cbv iota beta; rewrite <- IHd; f_equal; lia.
Qed.

Lemma int_digits_uint (d : Decimal.uint) (b : bool) :
  d <> Decimal.Nil \/ b = true ->
  Py.int_digits 0 b (NilEmpty.string_of_uint d) = Some (Z.of_N (Pos.of_uint d)).
Proof.
  revert b. induction d; intros b Hb;
    cbn [NilEmpty.string_of_uint Py.int_digits Pos.of_uint].
  - by destruct Hb as [?| ->].
  - change (Py.digit "0") with (Some 0). cbv iota beta.
    change (10 * 0 + 0) with 0. apply IHd. by right.
  - change (Py.digit "1") with (Some 1). apply (int_digits_acc d 1).
  - change (Py.digit "2") with (Some 2). apply (int_digits_acc d 2).
  - change (Py.digit "3") with (Some 3). apply (int_digits_acc d 3).
  - change (Py.digit "4") with (Some 4). apply (int_digits_acc d 4).
  - change (Py.digit "5") with (Some 5). apply (int_digits_acc d 5).
  - change (Py.digit "6") with (Some 6). apply (int_digits_acc d 6).
  - change (Py.digit "7") with (Some 7). apply (int_digits_acc d 7).
  - change (Py.digit "8") with (Some 8). apply (int_digits_acc d 8).
  - change (Py.digit "9") with (Some 9). apply (int_digits_acc d 9).
Qed.

Lemma lstrip_no_space (s : string) :
  match s with String c _ => Py.is_space c = false | EmptyString => True end ->
  Py.lstrip s = s.
Proof. destruct s as [|c s]; [done|]. cbn. by intros ->. Qed.

Lemma reverse_involutive (s : string) : Py.reverse (Py.reverse s) = s.
Proof.
  unfold Py.reverse.
  by rewrite list_ascii_of_string_of_list_ascii, rev_involutive,
    string_of_list_ascii_of_string.
Qed.

(** A string without white space is its own [strip]. *)
Lemma strip_no_space (s : string) :
  Forall (fun c => Py.is_space c = false) (chars s) -> Py.strip s = s.
Proof.
  intros Hs. unfold Py.strip.
  rewrite (lstrip_no_space s) by (destruct s; [done|by inversion Hs]).
  rewrite lstrip_no_space; [apply reverse_involutive|].
  unfold Py.reverse. apply Forall_rev in Hs.
  destruct (rev (chars s)) as [|c l]; [done|]. cbn. by inversion Hs.
Qed.

(** [int(str(n)) == n]. *)
Lemma int_str (n : Z) : Py.int (Py.str n) = Some n.
Proof.
  unfold Py.int.
  assert (Hpos : forall p,
    Py.int_digits 0 false (NilZero.string_of_uint (Pos.to_uint p))
    = Some (Z.pos p)).
  { intros p. pose proof (DecimalPos.Unsigned.to_uint_nonnil p).
    rewrite string_of_uint_nonnil, int_digits_uint by auto.
    by rewrite DecimalPos.Unsigned.of_to. }
  assert (Hsp : forall p, Forall (fun c => Py.is_space c = false)
                            (chars (NilZero.string_of_uint (Pos.to_uint p)))).
  { intros p. destruct (str_digits (Z.pos p)) as [Hd _]; [lia|].
    eapply Forall_impl; [exact Hd|]. intros c Hc.
    by apply is_digit_not_space. }
  destruct n as [|p|p].
  - done.
  - rewrite strip_no_space by apply Hsp.
    unfold Py.str. cbn [Z.to_int NilZero.string_of_int].
    specialize (Hpos p). destruct (str_digits (Z.pos p)) as [Hd Hne]; [lia|].
    unfold Py.str in Hd, Hne. cbn [Z.to_int NilZero.string_of_int] in Hd, Hne.
    destruct (NilZero.string_of_uint (Pos.to_uint p)) as [|c s]; [done|].
    inversion Hd as [|? ? Hc _]; subst.
    assert (c <> "-"%char /\ c <> "+"%char) as [Hm Hp].
    { split; intros ->; done. }
    destruct c as [[] [] [] [] [] [] [] []]; try done.
  - unfold Py.str. cbn [Z.to_int NilZero.string_of_int].
    rewrite strip_no_space by (constructor; [done|apply Hsp]).
    by rewrite Hpos.
Qed.

Lemma sub_class_app (cls : ascii -> bool) (a b : string) :
  Py.sub_class cls (a +:+ b) = Py.sub_class cls a +:+ Py.sub_class cls b.
Proof.
  induction a as [|c a IH]; [done|].
  rewrite app_String. cbn [Py.sub_class]. by rewrite app_String, IH.
Qed.

(** White space between fields ends the field being read, if any. *)
Lemma split_from_spaces (a s : string) (tok : list ascii) :
  Forall (fun c => Py.is_space c = true) (chars a) -> a <> "" ->
  Py.split_from tok (a +:+ s)
  = match tok with
    | [] => Py.split_from [] s
    | _ => string_of_list_ascii (rev tok) :: Py.split_from [] s
    end.
Proof.
  intros Ha Hne. revert tok.
  induction a as [|c a IH]; intros tok; [done|].
  inversion Ha as [|? ? Hc Ha']; subst.
  rewrite app_String. cbn [Py.split_from]. rewrite Hc.
  destruct a as [|c' a].
  - rewrite app_empty_l. by destruct tok.
  - rewrite (IH Ha') by done. by destruct tok.
Qed.

(** Characters that are not white space are added to the field being
    read. *)
Lemma split_from_field (a s : string) (tok : list ascii) :
  Forall (fun c => Py.is_space c = false) (chars a) ->
  Py.split_from tok (a +:+ s) = Py.split_from (rev (chars a) ++ tok) s.
Proof.
  intros Ha. revert tok. induction a as [|c a IH]; intros tok; [done|].
  inversion Ha as [|? ? Hc Ha']; subst.
  rewrite app_String. cbn [Py.split_from chars rev]. rewrite Hc.
  by rewrite (IH Ha'), <- app_assoc.
Qed.

Lemma sub_class_all (cls : ascii -> bool) (a : string) :
  Forall (fun c => cls c = true) (chars a) ->
  Forall (fun c => Py.is_space c = true) (chars (Py.sub_class cls a))
  /\ (a <> "" -> Py.sub_class cls a <> "").
Proof.
  induction a as [|c a IH]; intros Ha; [done|].
  inversion Ha as [|? ? Hc Ha']; subst.
  cbn [Py.sub_class chars]. rewrite Hc. split; [|done].
  constructor; [done|]. by apply IH.
Qed.

Lemma sub_class_none (cls : ascii -> bool) (a : string) :
  Forall (fun c => cls c = false) (chars a) -> Py.sub_class cls a = a.
Proof.
  induction a as [|c a IH]; intros Ha; [done|].
  inversion Ha as [|? ? Hc Ha']; subst.
  cbn [Py.sub_class]. by rewrite Hc, IH.
Qed.

Lemma plain_op_inv (x : string * Z) :
  plain_op x = true ->
  exists c, fst x = String c "" /\ Py.is_upper c = true /\ 0 <= snd x.
Proof.
  unfold plain_op. destruct (fst x) as [|c [|c' s]]; try done.
  intros [Hc Hn%Z.leb_le]%andb_true_iff. by exists c.
Qed.

(** The operation letters of a written CIGAR. *)
Lemma split_types (l : list (string * Z)) :
  forallb plain_op l = true ->
  Py.split (Py.sub_class Py.is_digit (cigar_text l)) = map fst l.
Proof.
  unfold Py.split. induction l as [|x l IH]; [done|].
  cbn [forallb]. intros [Hx Hl]%andb_true_iff.
  destruct (plain_op_inv x Hx) as (c & Hop & Hc & Hn).
  destruct (str_digits (snd x) Hn) as [Hd Hne].
  destruct (is_upper_not_space c Hc) as [Hsp Hnd].
  cbn [cigar_text foldr map]. fold (cigar_text l).
  rewrite Hop, !sub_class_app.
  destruct (sub_class_all Py.is_digit (Py.str (snd x)) Hd) as [Hspaces Hne'].
  rewrite split_from_spaces by auto.
  cbn [Py.sub_class]. rewrite Hnd, app_String, app_empty_l.
  cbn [Py.split_from]. rewrite Hsp. f_equal.
  rewrite <- (IH Hl). destruct l as [|y l]; [done|].
  apply andb_true_iff in Hl as [Hy _].
  destruct (plain_op_inv y Hy) as (c' & _ & _ & Hn').
  destruct (str_digits (snd y) Hn') as [Hd' Hne''].
  destruct (sub_class_all Py.is_digit (Py.str (snd y)) Hd') as [Hsp' Hne3].
  cbn [cigar_text foldr]. rewrite !sub_class_app.
  rewrite (split_from_spaces _ _ [c]) by auto.
  by rewrite (split_from_spaces (Py.sub_class Py.is_digit (Py.str y.2)) _ [])
    by auto.
Qed.

(** The counts of a written CIGAR. *)
Lemma split_counts (l : list (string * Z)) :
  forallb plain_op l = true ->
  Py.split (Py.sub_class Py.is_upper (cigar_text l))
  = map (fun x => Py.str (snd x)) l.
Proof.
  unfold Py.split. induction l as [|x l IH]; [done|].
  cbn [forallb]. intros [Hx Hl]%andb_true_iff.
  destruct (plain_op_inv x Hx) as (c & Hop & Hc & Hn).
  destruct (str_digits (snd x) Hn) as [Hd Hne].
  cbn [cigar_text foldr map]. fold (cigar_text l).
  rewrite Hop, !sub_class_app.
  rewrite sub_class_none
    by (eapply Forall_impl; [exact Hd|]; intros ? ?; by apply is_digit_not_space).
  rewrite split_from_field
    by (eapply Forall_impl; [exact Hd|]; intros ? ?; by apply is_digit_not_space).
  cbn [Py.sub_class]. rewrite Hc, app_String, app_empty_l, app_nil_r.
  cbn [Py.split_from]. change (Py.is_space " ") with true. cbv iota.
  rewrite rev_involutive, string_of_list_ascii_of_string, (IH Hl).
  destruct (rev (chars (Py.str x.2))) eqn:Hrev; [|done].
  exfalso. apply Hne. apply (f_equal (@rev ascii)) in Hrev.
  rewrite rev_involutive in Hrev.
  by rewrite <- (string_of_list_ascii_of_string (Py.str _)), Hrev.
Qed.

Lemma map_raise_int_str (cts : list Z) :
  Py.map_raise Py.int (map Py.str cts) = Some cts.
Proof.
  induction cts as [|ct cts IH]; [done|].
  cbn [map Py.map_raise]. by rewrite int_str, IH.
Qed.

(** X6. Splitting a written CIGAR gives back its operations: for
    operations of one capital letter each with counts that are not
    negative, [splitCIGAR] of their text is the list of the letters and the
    list of the counts. *)
Theorem splitCIGAR_cigar_text (l : list (string * Z)) :
  forallb plain_op l = true ->
  Cigar.splitCIGAR (cigar_text l) = Some (map fst l, map snd l).
Proof.
  intros Hl. unfold Cigar.splitCIGAR.
  rewrite split_types, split_counts by done.
  rewrite <- (map_map snd Py.str), map_raise_int_str. done.
Qed.

End RoundTrip.

(** ** Grouping by exon and intron *)

Section Regrouping.

Lemma concat_empty (l : list string) :
  String.concat "" l = foldr String.append "" l.
Proof.
  induction l as [|a [|b l] IH]; [done| |].
  - cbn. by rewrite app_empty_r.
  - change (String.concat "" (a :: b :: l))
      with (a +:+ "" +:+ String.concat "" (b :: l)).
    by rewrite IH, app_empty_l.
Qed.

Lemma foldr_append_app (l1 l2 : list string) :
  foldr String.append "" (l1 ++ l2)
  = foldr String.append "" l1 +:+ foldr String.append "" l2.
Proof.
  induction l1 as [|a l1 IH]; [done|].
  cbn [app foldr]. by rewrite IH, app_assoc_str.
Qed.

Lemma substring_empty (n m : nat) : substring n m "" = "".
Proof. by destruct n, m. Qed.

Lemma substring_app (s : string) (n m k : nat) :
  substring n m s +:+ substring (n + m) k s = substring n (m + k) s.
Proof.
  revert n m. induction s as [|c s IH]; intros n m.
  - by rewrite !substring_empty.
  - destruct n as [|n], m as [|m]; cbn [substring Nat.add].
    + by rewrite app_empty_l.
    + rewrite app_String. f_equal. apply (IH 0%nat m).
    + apply (IH n 0%nat).
    + apply (IH n (S m)).
Qed.

Lemma substring_zero (s : string) (n : nat) : substring n 0 s = "".
Proof. revert n. induction s as [|c s IH]; intros [|n]; cbn; auto. Qed.

Lemma slice_empty (s : string) (i : Z) : Py.slice s i i = "".
Proof. unfold Py.slice. by rewrite Z.sub_diag, substring_zero. Qed.

(** Two slices that follow each other make one slice. *)
Lemma slice_app (s : string) (a b c : Z) :
  0 <= a <= b -> b <= c ->
  Py.slice s a b +:+ Py.slice s b c = Py.slice s a c.
Proof.
  intros Hab Hbc. unfold Py.slice, Py.clamp.
  destruct (Z.ltb_spec a 0), (Z.ltb_spec b 0), (Z.ltb_spec c 0); try lia.
  set (n := Py.len s). assert (0 <= n) by apply len_nonneg.
  replace (Z.to_nat (Z.min b n))
    with (Z.to_nat (Z.min a n) + Z.to_nat (Z.min b n - Z.min a n))%nat by lia.
  rewrite substring_app. f_equal. lia.
Qed.

Local Abbreviation pasted es ns :=
  (foldr (fun p t => fst p +:+ Py.str (snd p) +:+ "N" +:+ t) ""
     (Py.zip es ns)).

Lemma zip_app {A B} (a1 a2 : list A) (b1 b2 : list B) :
  length a1 = length b1 ->
  Py.zip (a1 ++ a2) (b1 ++ b2) = Py.zip a1 b1 ++ Py.zip a2 b2.
Proof.
  revert b1. induction a1 as [|x a1 IH]; intros [|y b1] Hlen; try done.
  cbn [app Py.zip]. f_equal. apply IH. by injection Hlen.
Qed.

Lemma pasted_snoc (es : list string) (ns : list Z) (e : string) (n : Z) :
  length es = length ns ->
  pasted (es ++ [e]) (ns ++ [n]) = pasted es ns +:+ e +:+ Py.str n +:+ "N".
Proof.
  intros Hlen. rewrite zip_app by done. cbn [Py.zip].
  induction (Py.zip es ns) as [|p l IH]; cbn [app foldr fst snd].
  - reflexivity.
  - by rewrite IH, !app_assoc_str.
Qed.

(** What the loop of [group_CIGAR_by_exon_and_intron] keeps: as many exon
    CIGARs and exon sequences as intron lengths so far; the pieces, pasted
    together, are the operations read so far; the exon sequences are the
    read bases those operations cover. *)
Lemma grouping_fold (seq : string) (l : list (string * Z)) (g : Grouping) :
  length (exonCIGARs g) = length (intronCIGARs g) ->
  length (exonSeqs g) = length (intronCIGARs g) ->
  let g' := fold_left (grouping_body seq) l g in
  length (exonCIGARs g') = length (intronCIGARs g')
  /\ length (exonSeqs g') = length (intronCIGARs g')
  /\ length (intronCIGARs g')
     = (length (intronCIGARs g)
        + length (filter (fun x => String.eqb (fst x) "N") l))%nat
  /\ pasted (exonCIGARs g') (intronCIGARs g') +:+ currExonCIGAR g'
     = (pasted (exonCIGARs g) (intronCIGARs g) +:+ currExonCIGAR g)
       +:+ cigar_text l
  /\ currSeqIndex g' = currSeqIndex g + read_consumed l
  /\ (Forall (fun x => 0 <= snd x) l -> 0 <= currSeqIndex g ->
      foldr String.append "" (exonSeqs g') +:+ currExonStr g'
      = (foldr String.append "" (exonSeqs g) +:+ currExonStr g)
        +:+ Py.slice seq (currSeqIndex g) (currSeqIndex g + read_consumed l)).
Proof.
  revert g. induction l as [|[op ct] l IH]; intros g He Hs; cbv zeta.
  - cbn [fold_left filter length cigar_text foldr read_consumed].
    rewrite !app_empty_r, Nat.add_0_r, Z.add_0_r. repeat split; try done.
    intros _ Hi. by rewrite slice_empty, app_empty_r.
  - cbn [fold_left].
    set (g1 := grouping_body seq g (op, ct)).
    assert (length (exonCIGARs g1) = length (intronCIGARs g1)
            /\ length (exonSeqs g1) = length (intronCIGARs g1)
            /\ length (intronCIGARs g1)
               = (length (intronCIGARs g)
                  + (if String.eqb op "N" then 1 else 0))%nat
            /\ pasted (exonCIGARs g1) (intronCIGARs g1) +:+ currExonCIGAR g1
               = (pasted (exonCIGARs g) (intronCIGARs g) +:+ currExonCIGAR g)
                 +:+ Py.str ct +:+ op
            /\ currSeqIndex g1 = currSeqIndex g + read_step (op, ct)
            /\ foldr String.append "" (exonSeqs g1) +:+ currExonStr g1
               = (foldr String.append "" (exonSeqs g) +:+ currExonStr g)
                 +:+ Py.slice seq (currSeqIndex g)
                       (currSeqIndex g + read_step (op, ct)))
      as (He1 & Hs1 & Hn1 & Hp1 & Hi1 & Hq1).
    { subst g1. unfold grouping_body, read_step. cbn [fst snd].
      destruct (String.eqb_spec op "N") as [->|HN].
      - cbn [exonCIGARs intronCIGARs exonSeqs currExonCIGAR currSeqIndex
             currExonStr Py.str_in existsb String.eqb Ascii.eqb Bool.eqb
             andb orb].
        rewrite !length_app, pasted_snoc, foldr_append_app by done.
        cbn [length foldr]. rewrite !app_empty_r, !app_assoc_str, Z.add_0_r.
        repeat split; try lia.
        by rewrite slice_empty, app_empty_r.
      - replace (Py.str_in op ["M"; "I"; "S"])
          with (Py.str_in op ["M"; "S"; "I"])
          by (cbn; by destruct (String.eqb op "M"), (String.eqb op "S"),
                (String.eqb op "I")).
        destruct (Py.str_in op ["M"; "S"; "I"]);
          cbn [exonCIGARs intronCIGARs exonSeqs currExonCIGAR currSeqIndex
               currExonStr];
          rewrite ?app_assoc_str, ?Z.add_0_r, ?Nat.add_0_r;
          repeat split; try done.
        by rewrite slice_empty, app_empty_r. }
    destruct (IH g1 He1 Hs1) as (He2 & Hs2 & Hn2 & Hp2 & Hi2 & Hq2).
    cbv zeta in *. rewrite filter_cons. cbn [fst].
    cbn [cigar_text foldr read_consumed fst snd].
    fold (cigar_text l) (read_consumed l).
    repeat split; try done.
    + rewrite Hn2, Hn1. destruct (String.eqb op "N"); case_decide;
        cbn [length]; try done; lia.
    + by rewrite Hp2, Hp1, !app_assoc_str.
    + rewrite Hi2, Hi1. lia.
    + intros Hnn Hi. inversion Hnn as [|? ? Hct Hnn']; subst.
      pose proof (read_step_nonneg (op, ct) Hct) as Hstep.
      assert (0 <= read_consumed l) as Hrest.
      { clear -Hnn'. induction Hnn' as [|y l Hy Hl IHl]; cbn; [done|].
        fold (read_consumed l). pose proof (read_step_nonneg y Hy). lia. }
      rewrite Hq2, Hq1, Hi1 by (try done; lia).
      rewrite (app_assoc_str _ (Py.slice _ _ _)), slice_app by lia.
      f_equal. f_equal. lia.
Qed.

Lemma paste_parts (rest : list string) (ns2 : list Z) (es2 es1 : list string)
    (ns1 : list Z) :
  length es1 = length ns1 -> length es2 = length ns2 ->
  Py.map_raise
    (fun i => e ← (es1 ++ es2 ++ rest) !! i;
              n ← (ns1 ++ ns2) !! i;
              Some (e +:+ Py.str n +:+ "N"))
    (seq (length ns1) (length ns2))
  = Some (map (fun p => fst p +:+ Py.str (snd p) +:+ "N") (Py.zip es2 ns2)).
Proof.
  revert es2 es1 ns1.
  induction ns2 as [|n ns2 IH]; intros [|e es2] es1 ns1 H1 H2; try done.
  cbn [length seq Py.map_raise Py.zip map fst snd].
  rewrite <- app_comm_cons.
  rewrite (list_lookup_middle es1 _ e (length ns1)) by done.
  rewrite list_lookup_middle by done. cbn [mbind option_bind].
  replace (es1 ++ e :: es2 ++ rest) with ((es1 ++ [e]) ++ es2 ++ rest)
    by (by rewrite <- app_assoc).
  replace (ns1 ++ n :: ns2) with ((ns1 ++ [n]) ++ ns2)
    by (by rewrite <- app_assoc).
  replace (S (length ns1)) with (length (ns1 ++ [n]))
    by (rewrite length_app; cbn; lia).
  rewrite IH; [done|rewrite !length_app; cbn; lia|by injection H2].
Qed.

(** Pasting the pieces: every exon CIGAR but the last is followed by its
    intron. *)
Lemma paste_CIGAR_pasted (es : list string) (ns : list Z) (e : string) :
  length es = length ns ->
  paste_CIGAR (es ++ [e]) ns = Some (pasted es ns +:+ e).
Proof.
  intros Hlen. unfold paste_CIGAR.
  pose proof (paste_parts [e] ns es [] [] eq_refl Hlen) as Hparts.
  cbn [app length] in Hparts. rewrite Hparts. cbn [mbind option_bind].
  rewrite last_snoc. cbn [mbind option_bind]. rewrite concat_empty. f_equal.
  f_equal. clear Hparts. induction (Py.zip es ns) as [|p l IH]; [done|].
  cbn [map foldr]. by rewrite IH, !app_assoc_str.
Qed.

(** X7. Grouping a CIGAR by exon and intron and pasting the pieces together
    again writes out the operations of the CIGAR; there is one exon more
    than there are Skip operations; and the exon sequences, one after the
    other, are the read bases that the operations cover. *)
Theorem group_then_paste (CIGAR seq : string) (ops : list string)
    (cts : list Z) :
  Cigar.splitCIGAR CIGAR = Some (ops, cts) ->
  let l := Py.zip ops cts in
  exists exonCIGARs intronCIGARs exonSeqs,
    group_CIGAR_by_exon_and_intron CIGAR seq
    = Some (exonCIGARs, intronCIGARs, exonSeqs)
    /\ length intronCIGARs
       = length (filter (fun x => String.eqb (fst x) "N") l)
    /\ length exonCIGARs = S (length intronCIGARs)
    /\ length exonSeqs = S (length intronCIGARs)
    /\ paste_CIGAR exonCIGARs intronCIGARs = Some (cigar_text l)
    /\ (Forall (fun x => 0 <= snd x) l ->
        String.concat "" exonSeqs = Py.slice seq 0 (read_consumed l)).
Proof.
  intros Hsplit l. unfold group_CIGAR_by_exon_and_intron.
  rewrite Hsplit. cbn [mbind option_bind]. fold l.
  match goal with
  | |- context [fold_left _ l ?g0] =>
      destruct (grouping_fold seq l g0 eq_refl eq_refl)
        as (He & Hs & Hn & Hp & Hi & Hq);
      set (g := fold_left (grouping_body seq) l g0) in *
  end.
  cbn [exonCIGARs intronCIGARs exonSeqs currExonCIGAR currExonStr
       currSeqIndex Py.zip foldr length] in Hn, Hp, Hi, Hq.
  eexists _, _, _. split; [reflexivity|].
  rewrite !length_app. cbn [length].
  repeat split; try lia.
  - rewrite paste_CIGAR_pasted by done. f_equal. rewrite Hp.
    by rewrite !app_empty_l.
  - intros Hnn. rewrite concat_empty, foldr_append_app. cbn [foldr].
    rewrite app_empty_r, Hq by done. by rewrite !app_empty_l.
Qed.

End Regrouping.

(** ** Editing an exon CIGAR *)

Section ExonEdits.

(** The result loop of [editExonCIGAR] writes the operations out. *)
Lemma written_counts (ops : list string) (cts : list Z) :
  String.concat ""
    (map (fun '(op, ct) => ct +:+ op) (Py.zip ops (map Py.str cts)))
  = cigar_text (Py.zip ops cts).
Proof.
  rewrite concat_empty. revert cts.
  induction ops as [|op ops IH]; intros [|ct cts]; try done.
  cbn [map Py.zip foldr cigar_text fst snd].
  fold (cigar_text (Py.zip ops cts)). by rewrite IH, app_assoc_str.
Qed.

Lemma zip_rev {A B} (a : list A) (b : list B) :
  length a = length b -> Py.zip (rev a) (rev b) = rev (Py.zip a b).
Proof.
  revert b. induction a as [|x a IH]; intros [|y b] Hlen; try done.
  cbn [rev Py.zip]. rewrite zip_app by (rewrite !length_rev; by injection Hlen).
  rewrite IH by (by injection Hlen). done.
Qed.

(** X8. Adding bases to an exon CIGAR. With the end asked for at a
    Match, that Match grows by [nBases]; with another operation at the start,
    a Match of [nBases] is put before it; and on an exon without operations
    the function raises. *)
Theorem editExonCIGAR_adds (exon : string) (ops : list string) (cts : list Z)
    (nBases : Z) :
  Cigar.splitCIGAR exon = Some (ops, cts) ->
  0 <= nBases ->
  (ops = [] ->
   editExonCIGAR exon 0 nBases = None /\ editExonCIGAR exon (-1) nBases = None)
  /\ (forall c cts',
        head ops = Some "M" -> cts = c :: cts' ->
        editExonCIGAR exon 0 nBases
        = Some (cigar_text (Py.zip ops ((c + nBases) :: cts'))))
  /\ (forall c cts',
        last ops = Some "M" -> cts = cts' ++ [c] ->
        editExonCIGAR exon (-1) nBases
        = Some (cigar_text (Py.zip ops (cts' ++ [c + nBases]))))
  /\ (forall op ops',
        ops = op :: ops' -> op <> "M" ->
        editExonCIGAR exon 0 nBases
        = Some (cigar_text (("M", nBases) :: Py.zip ops cts))).
Proof.
  intros Hsplit Hn. unfold editExonCIGAR. rewrite Hsplit.
  cbn [mbind option_bind].
  destruct (Z.leb_spec 0 nBases); [|lia].
  change (0 =? -1) with false. change (-1 =? -1) with true. cbv iota.
  split; [|split; [|split]].
  - by intros ->.
  - intros c cts' Hhead ->. rewrite Hhead.
    cbv beta iota delta [mbind option_bind].
    cbn [String.eqb Ascii.eqb Bool.eqb andb]. cbv beta iota.
    by rewrite written_counts.
  - intros c cts' [ops' ->]%last_Some ->.
    rewrite (rev_app_distr ops'). cbn [rev app head].
    cbv beta iota delta [mbind option_bind].
    cbn [String.eqb Ascii.eqb Bool.eqb andb].
    rewrite rev_app_distr. cbn [rev app]. cbv beta iota.
    change (Py.str (c + nBases) :: map Py.str (rev cts'))
      with (map Py.str ((c + nBases) :: rev cts')).
    rewrite <- map_rev. cbn [rev]. rewrite !rev_involutive.
    by rewrite written_counts.
  - intros op ops' -> Hop. cbn [head].
    cbv beta iota delta [mbind option_bind].
    rewrite (proj2 (String.eqb_neq op "M") Hop). cbv beta iota.
    change (Py.str nBases :: map Py.str cts) with (map Py.str (nBases :: cts)).
    by rewrite written_counts.
Qed.

Lemma take_bases_cons (nBases : Z) (operations : list string) (ct : Z)
    (counts : list Z) :
  take_bases nBases operations (ct :: counts)
  = (if 0 <? ct - Z.abs nBases then
       Some (operations, Py.str (ct - Z.abs nBases) :: map Py.str counts)
     else
       match operations with
       | [] => None
       | _ :: operations' =>
           if ct - Z.abs nBases =? 0 then
             Some ("" :: operations', "" :: map Py.str counts)
           else
             '(ops, cts) ← take_bases (ct - Z.abs nBases) operations' counts;
             Some ("" :: ops, "" :: cts)
       end).
Proof. by destruct operations. Qed.

Lemma take_bases_all (cts : list Z) (ops : list string) (nBases : Z) :
  nBases < 0 -> length ops = length cts ->
  Forall (fun ct => 0 < ct) cts ->
  foldr Z.add 0 cts <= - nBases ->
  exists ops' cts',
    take_bases nBases ops cts = Some (ops', cts')
    /\ Forall (fun op => op = "") ops' /\ Forall (fun ct => ct = "") cts'.
Proof.
  revert ops nBases.
  induction cts as [|ct cts IH]; intros [|op ops] nBases Hn Hlen Hpos Hsum;
    try done.
  { by exists [], []. }
  inversion Hpos as [|? ? Hct Hpos']; subst. cbn [foldr] in Hsum.
  assert (0 <= foldr Z.add 0 cts) as Hrest.
  { clear -Hpos'. induction Hpos' as [|c l Hc Hl IHl]; cbn; lia. }
  rewrite take_bases_cons. destruct (Z.ltb_spec 0 (ct - Z.abs nBases)); [lia|].
  destruct (Z.eqb_spec (ct - Z.abs nBases) 0) as [Hz|Hnz].
  - destruct cts as [|c cts].
    + destruct ops; [|done]. exists [""], [""]. by repeat constructor.
    + inversion Hpos' as [|? ? Hc Hpos'']; subst. cbn [foldr] in *.
      assert (0 <= foldr Z.add 0 cts); [|lia].
      clear -Hpos''. induction Hpos'' as [|c' l Hc' Hl IHl]; cbn; lia.
  - destruct (IH ops (ct - Z.abs nBases)) as (ops' & cts' & Htake & Ho & Hc);
      [lia|by injection Hlen|done|lia|].
    rewrite Htake. cbn [mbind option_bind].
    exists ("" :: ops'), ("" :: cts'). by repeat constructor.
Qed.

Lemma written_blank (ops cts : list string) :
  Forall (fun op => op = "") ops -> Forall (fun ct => ct = "") cts ->
  String.concat "" (map (fun '(op, ct) => ct +:+ op) (Py.zip ops cts)) = "".
Proof.
  rewrite concat_empty. intros Ho. revert cts.
  induction Ho as [|op ops -> Ho IH]; intros cts Hc; [done|].
  destruct Hc as [|ct cts -> Hc]; [done|].
  cbn [Py.zip map foldr]. by rewrite IH.
Qed.

Lemma sum_rev (l : list Z) : foldr Z.add 0 (rev l) = foldr Z.add 0 l.
Proof.
  induction l as [|x l IH]; [done|]. cbn [rev foldr].
  rewrite foldr_app. cbn [foldr]. rewrite <- IH.
  generalize (rev l). intros r. induction r as [|y r IHr]; cbn; lia.
Qed.

(** X9. Taking bases away from an exon CIGAR. When the operation at
    the end asked for has more than [abs(nBases)] bases, whichever operation
    it is, its count shrinks by that many; when the exon has no more than
    [abs(nBases)] bases in all, the function does not raise: every operation
    is blanked and the result is the empty string. *)
Theorem editExonCIGAR_takes (exon : string) (ops : list string) (cts : list Z)
    (nBases : Z) :
  Cigar.splitCIGAR exon = Some (ops, cts) ->
  nBases < 0 ->
  (forall c cts',
     cts = c :: cts' -> - nBases < c ->
     editExonCIGAR exon 0 nBases
     = Some (cigar_text (Py.zip ops ((c + nBases) :: cts'))))
  /\ (forall c cts',
        cts = cts' ++ [c] -> - nBases < c ->
        editExonCIGAR exon (-1) nBases
        = Some (cigar_text (Py.zip ops (cts' ++ [c + nBases]))))
  /\ (length ops = length cts -> Forall (fun ct => 0 < ct) cts ->
      foldr Z.add 0 cts <= - nBases ->
      editExonCIGAR exon 0 nBases = Some ""
      /\ editExonCIGAR exon (-1) nBases = Some "").
Proof.
  intros Hsplit Hn. unfold editExonCIGAR. rewrite Hsplit.
  cbv beta iota delta [mbind option_bind].
  destruct (Z.leb_spec 0 nBases); [lia|].
  change (0 =? -1) with false. change (-1 =? -1) with true. cbv iota.
  split; [|split].
  - intros c cts' -> Hc. rewrite take_bases_cons.
    destruct (Z.ltb_spec 0 (c - Z.abs nBases)); [|lia].
    change (Py.str (c - Z.abs nBases) :: map Py.str cts')
      with (map Py.str ((c - Z.abs nBases) :: cts')).
    rewrite written_counts.
    by replace (c - Z.abs nBases) with (c + nBases) by lia.
  - intros c cts' -> Hc. rewrite (rev_app_distr cts'). cbn [rev app].
    rewrite take_bases_cons.
    destruct (Z.ltb_spec 0 (c - Z.abs nBases)); [|lia].
    change (Py.str (c - Z.abs nBases) :: map Py.str (rev cts'))
      with (map Py.str ((c - Z.abs nBases) :: rev cts')).
    rewrite <- map_rev. cbn [rev]. rewrite !rev_involutive.
    rewrite written_counts.
    by replace (c - Z.abs nBases) with (c + nBases) by lia.
  - intros Hlen Hpos Hsum. split.
    + destruct (take_bases_all cts ops nBases) as (ops' & cts' & -> & Ho & Hc);
        try done.
      by rewrite written_blank.
    + destruct (take_bases_all (rev cts) (rev ops) nBases)
        as (ops' & cts' & -> & Ho & Hc);
        [done|by rewrite !length_rev|by apply Forall_rev
        |by rewrite sum_rev|].
      rewrite written_blank; [done|by apply Forall_rev..].
Qed.

End ExonEdits.

(** ** What a junction attempt writes *)

Section OneSide.

(** X10. What [fix_one_side_of_junction] writes. With offset zero it returns the
    sequence and the CIGAR as they are and writes nothing. Otherwise all it
    ever writes is the boundary object it was given, moved by the offset:
    it has moved it whenever it returns, and it may have moved it when it
    raises. *)
Theorem fix_one_side_of_junction_writes (chrom : string) (transcript_start : Z)
    (jn_number : nat) (intronBound : BoundRef) (d : Z) (genome : Genome)
    (seq oldCIGAR : string) (w : World) :
  let r := fix_one_side_of_junction chrom transcript_start jn_number
             intronBound d genome seq oldCIGAR w in
  (d = 0 -> r = (Some (seq, oldCIGAR), w))
  /\ (snd r = w \/ snd r = snd (shift_bound intronBound d w))
  /\ (d <> 0 -> is_Some (fst r) -> snd r = snd (shift_bound intronBound d w)).
Proof.
  cbv zeta. split; [|split].
  - by intros ->.
  - apply fix_one_side_of_junction_world.
  - intros Hd [x Hx].
    destruct (fix_one_side_of_junction _ _ _ _ _ _ _ _ _) as [o w'] eqn:Hrun.
    cbn [fst snd] in *. subst o.
    by apply (fix_one_side_of_junction_shifts _ _ _ _ _ _ _ _ _ _ _ Hd Hrun).
Qed.

End OneSide.

Lemma fix_one_side_of_junction_writes_witness :
  let w := Sample.world "r10"
             [Sample.intron 5 14 false; Sample.intron 24 32 false] in
  let r := fix_one_side_of_junction "chr1" 1 0 (0%nat, Left) 1 Sample.fasta
             "ACGTTTTTGGGGGCCCC" "4M10N9M9N4M" w in
  fst r = Some ("ACGTATTTTGGGGGCCCC", "5M9N9M9N4M")
  /\ (SpliceJunction.left <$> spliceJunctions (snd r))
     = [{| IntronBound.bound := 0; IntronBound.pos := 6 |};
        {| IntronBound.bound := 0; IntronBound.pos := 24 |}].
Proof.
  intros w r.
  destruct (fix_one_side_of_junction_writes "chr1" 1 0 (0%nat, Left) 1
              Sample.fasta "ACGTTTTTGGGGGCCCC" "4M10N9M9N4M" w)
    as (_ & _ & Hshift).
  split; [reflexivity|].
  fold r in Hshift. rewrite Hshift; [reflexivity|discriminate|].
  by eexists.
Defined.

Section JunctionFrame.
Context {methods : Methods}.

Lemma junction_only_ret {A} (n : nat) (a : A) : junction_only n (mret a).
Proof. by intros w. Qed.

Lemma junction_only_call {A} (n : nat) (o : option A) :
  junction_only n (call o).
Proof. by intros w. Qed.

Lemma junction_only_junction (n k : nat) : junction_only n (junction k).
Proof. by intros w. Qed.

Lemma junction_only_all_junctions (n : nat) : junction_only n all_junctions.
Proof. by intros w. Qed.

Lemma junction_only_update (n : nat) (f : SpliceJunction.t -> SpliceJunction.t) :
  junction_only n (update_junction n f).
Proof.
  intros w. cbn [update_junction snd logInfo events spliceJunctions].
  repeat split; [by rewrite length_alter|].
  intros k Hk. by rewrite list_lookup_alter_ne.
Qed.

Lemma junction_only_bind {A B} (n : nat) (m : M A) (f : A -> M B) :
  junction_only n m -> (forall a, junction_only n (f a)) ->
  junction_only n (m ≫= f).
Proof.
  intros Hm Hf w. unfold mbind, M_bind, bind.
  destruct (Hm w) as (Hl & He & Hn & Hk).
  destruct (m w) as [[a|] w1]; cbn [snd] in *; [|done].
  destruct (Hf a w1) as (Hl' & He' & Hn' & Hk').
  rewrite Hl', He', Hn'. repeat split; try done.
  intros k Hne. by rewrite Hk', Hk.
Qed.

Lemma junction_only_try_except {A} (n : nat) (m h : M A) :
  junction_only n m -> junction_only n h -> junction_only n (try_except m h).
Proof.
  intros Hm Hh w. unfold try_except.
  destruct (Hm w) as (Hl & He & Hn & Hk).
  destruct (m w) as [[a|] w1]; cbn [snd] in *; [done|].
  destruct (Hh w1) as (Hl' & He' & Hn' & Hk').
  rewrite Hl', He', Hn'. repeat split; try done.
  intros k Hne. by rewrite Hk', Hk.
Qed.

Lemma junction_only_fix_one_side (n : nat) (side : Side) (chrom : string)
    (transcript_start : Z) (jn_number : nat) (d : Z) (genome : Genome)
    (seq oldCIGAR : string) :
  junction_only n
    (fix_one_side_of_junction chrom transcript_start jn_number (n, side) d
       genome seq oldCIGAR).
Proof.
  intros w.
  destruct (fix_one_side_of_junction_world chrom transcript_start jn_number
              (n, side) d genome seq oldCIGAR w) as [-> | ->]; [done|].
  apply (junction_only_update n).
Qed.

Lemma junction_only_update_post (transcript : Transcript.t) (n : nat)
    (genome : Genome) (sjAnnot : gset string) :
  junction_only n (update_post_ncsj_correction transcript n genome sjAnnot).
Proof.
  unfold update_post_ncsj_correction.
  apply junction_only_bind; [apply junction_only_junction|intros _].
  apply junction_only_bind; [apply junction_only_update|intros _].
  apply junction_only_bind; [apply junction_only_junction|intros j].
  apply junction_only_bind; [apply junction_only_call|intros j'].
  apply junction_only_bind; [apply junction_only_update|intros _].
  apply junction_only_bind; [apply junction_only_call|intros [nm md]].
  apply junction_only_bind; [apply junction_only_all_junctions|intros sjs].
  apply junction_only_bind; [apply junction_only_call|intros [m i]].
  apply junction_only_ret.
Qed.

Lemma junction_only_attempt_jn_correction (transcript : Transcript.t)
    (n : nat) (genome : Genome) (ref_donors ref_acceptors : BedTool)
    (sjAnnot : gset string) (maxDist : Z) :
  junction_only n
    (attempt_jn_correction transcript n genome ref_donors ref_acceptors
       sjAnnot maxDist).
Proof.
  unfold attempt_jn_correction.
  apply junction_only_bind; [apply junction_only_junction|intros j].
  apply junction_only_bind; [apply junction_only_call|intros [rd ra]].
  destruct (_ || _); [apply junction_only_ret|].
  apply junction_only_try_except; [|apply junction_only_ret].
  apply junction_only_bind; [apply junction_only_fix_one_side|intros [s c]].
  apply junction_only_bind; [apply junction_only_fix_one_side|intros [s' c']].
  apply junction_only_bind; [apply junction_only_update_post|intros t].
  apply junction_only_ret.
Qed.

(** X11. An attempt to correct the junction number [n] writes to no other
    junction object, nor to the log struct or the streams, and it neither
    adds nor removes a junction object; also when it raises or gives up. *)
Theorem attempt_jn_correction_frame (transcript : Transcript.t) (n : nat)
    (genome : Genome) (ref_donors ref_acceptors : BedTool)
    (sjAnnot : gset string) (maxDist : Z) :
  junction_only n
    (attempt_jn_correction transcript n genome ref_donors ref_acceptors
       sjAnnot maxDist).
Proof. apply junction_only_attempt_jn_correction. Qed.

Local Abbreviation noncanonical sjs :=
  (length (filter (fun j => SpliceJunction.isCanonical j = false) sjs)).

(** One turn of the loop of [cleanNoncanonical] that returns: a canonical
    junction leaves everything as it is; a noncanonical one adds one log
    line and one to one of the two counters, and writes to no other
    junction object. *)
Lemma cleanNoncanonical_body_counts (refs : Refs) (maxDist : Z)
    (st st' : Transcript.t * list string) (i : nat) (j : SpliceJunction.t)
    (w w' : World) (a b : Z) :
  spliceJunctions w !! i = Some j ->
  LogInfo.corrected_NC_SJs (logInfo w) = Some a ->
  LogInfo.uncorrected_NC_SJs (logInfo w) = Some b ->
  cleanNoncanonical_body refs maxDist st i w = (Some st', w') ->
  let one := if SpliceJunction.isCanonical j then 0%nat else 1%nat in
  exists a' b',
    LogInfo.corrected_NC_SJs (logInfo w') = Some a'
    /\ LogInfo.uncorrected_NC_SJs (logInfo w') = Some b'
    /\ a' + b' = a + b + Z.of_nat one
    /\ length (snd st') = (length (snd st) + one)%nat
    /\ events w' = events w
    /\ length (spliceJunctions w') = length (spliceJunctions w)
    /\ forall k, k <> i -> spliceJunctions w' !! k = spliceJunctions w !! k.
Proof.
  intros Hj Ha Hb. destruct st as [t TE].
  unfold cleanNoncanonical_body, junction.
  unfold mbind at 1, M_bind, bind. rewrite Hj.
  destruct (SpliceJunction.isCanonical j).
  { intros [= <- <-]. exists a, b. cbn [snd]. repeat split; try done; lia. }
  unfold mbind at 1, M_bind, bind.
  destruct (junction_only_attempt_jn_correction t i (genome refs)
              (donors refs) (acceptors refs) (sjAnnot refs) maxDist w)
    as (Hl & He & Hn & Hk).
  destruct (attempt_jn_correction _ _ _ _ _ _ _ w)
    as [[[temp [[status reason] d]]|] w1]; [|done].
  cbn [snd] in Hl, He, Hn, Hk.
  destruct status; unfold mbind, M_bind, bind, incr_counter, mret, ret;
    cbn [fst snd]; intros [= <- <-];
    cbn [logInfo events spliceJunctions LogInfo.incr LogInfo.set LogInfo.get
         LogInfo.pick LogInfo.corrected_NC_SJs LogInfo.uncorrected_NC_SJs snd];
    rewrite Hl, Ha, Hb; cbn [fmap option_fmap option_map];
    eexists _, _; (split; [reflexivity|]); (split; [reflexivity|]);
    rewrite length_app; cbn [length]; repeat split; try done; lia.
Qed.

Lemma cleanNoncanonical_loop (refs : Refs) (maxDist : Z) (k : nat) :
  forall (i : nat) (st st' : Transcript.t * list string) (w w' : World)
         (a b : Z),
    for_each (cleanNoncanonical_body refs maxDist) (seq i k) st w
    = (Some st', w') ->
    (i + k)%nat = length (spliceJunctions w) ->
    LogInfo.corrected_NC_SJs (logInfo w) = Some a ->
    LogInfo.uncorrected_NC_SJs (logInfo w) = Some b ->
    exists a' b',
      LogInfo.corrected_NC_SJs (logInfo w') = Some a'
      /\ LogInfo.uncorrected_NC_SJs (logInfo w') = Some b'
      /\ a' + b' = a + b + Z.of_nat (noncanonical (drop i (spliceJunctions w)))
      /\ length (snd st')
         = (length (snd st) + noncanonical (drop i (spliceJunctions w)))%nat
      /\ events w' = events w
      /\ length (spliceJunctions w') = length (spliceJunctions w).
Proof.
  induction k as [|k IH]; intros i st st' w w' a b Hrun Hlen Ha Hb.
  - injection Hrun as <- <-. rewrite drop_ge by lia.
    exists a, b. cbn. repeat split; try done; lia.
  - cbn [seq for_each] in Hrun. unfold mbind, M_bind, bind in Hrun.
    destruct (cleanNoncanonical_body refs maxDist st i w)
      as [[st1|] w1] eqn:Hbody; [|done].
    destruct (lookup_lt_is_Some_2 (spliceJunctions w) i) as [j Hj]; [lia|].
    destruct (cleanNoncanonical_body_counts refs maxDist st st1 i j w w1 a b
                Hj Ha Hb Hbody)
      as (a1 & b1 & Ha1 & Hb1 & Hsum1 & Hte1 & He1 & Hn1 & Hk1).
    destruct (IH (S i) st1 st' w1 w' a1 b1 Hrun) as
      (a' & b' & Ha' & Hb' & Hsum & Hte & He & Hn); [lia|done|done|].
    assert (drop (S i) (spliceJunctions w1) = drop (S i) (spliceJunctions w))
      as Hdrop.
    { apply list_eq. intros m. rewrite !lookup_drop. apply Hk1. lia. }
    rewrite Hdrop in Hsum, Hte.
    rewrite (drop_S _ _ _ Hj), filter_cons.
    exists a', b'. rewrite Hn, Hn1, He, He1. repeat split; try done.
    + destruct (SpliceJunction.isCanonical j); case_decide; try done;
        cbn [length]; lia.
    + destruct (SpliceJunction.isCanonical j); case_decide; try done;
        cbn [length]; lia.
Qed.

(** X12. Every junction that is noncanonical when [cleanNoncanonical] starts is
    attempted once: when the function returns on a transcript that is not
    flagged canonical, it has written one log line per such junction, its
    two counters add up to their number, and it has written nothing to the
    streams and kept the number of junction objects. *)
Theorem cleanNoncanonical_one_line_each (transcript transcript' : Transcript.t)
    (refs : Refs) (maxDist : Z) (TE : list string) (w w' : World) :
  Transcript.isCanonical transcript = false ->
  cleanNoncanonical transcript refs maxDist w = (Some (transcript', TE), w') ->
  exists a b,
    LogInfo.corrected_NC_SJs (logInfo w') = Some a
    /\ LogInfo.uncorrected_NC_SJs (logInfo w') = Some b
    /\ a + b = Z.of_nat (noncanonical (spliceJunctions w))
    /\ length TE = noncanonical (spliceJunctions w)
    /\ events w' = events w
    /\ length (spliceJunctions w') = length (spliceJunctions w).
Proof.
  intros Hnc. unfold cleanNoncanonical.
  unfold mbind, M_bind, bind, set_counter, all_junctions. cbn [fst snd].
  rewrite Hnc. cbn [spliceJunctions]. intros Hrun.
  apply (cleanNoncanonical_loop refs maxDist _ 0%nat _ _ _ _ 0 0) in Hrun;
    [|done..].
  cbn [drop spliceJunctions events snd length] in Hrun.
  destruct Hrun as (a & b & Ha & Hb & Hsum & Hte & He & Hn).
  exists a, b. repeat split; try done; lia.
Qed.

End JunctionFrame.

(** ** Indel runs, log lines and counters *)

Section IndelCounts.
Context {methods : Methods}.

Local Abbreviation runs op l :=
  (length (filter (fun x : string * Z => fst x = op) l)).

Local Ltac count_step :=
  unfold mbind, M_bind, bind, incr_counter, call, mret, ret,
    read_only_op, reference_only_op, match_op, log_entry, skip_bases,
    fill_bases;
  cbn [fst snd];
  repeat match goal with
         | |- context [Cigar.endMatch ?m ?c] => destruct (Cigar.endMatch m c)
         end;
  cbn [TE_entries logInfo LogInfo.incr LogInfo.set LogInfo.get LogInfo.pick
       LogInfo.corrected_insertions LogInfo.uncorrected_insertions
       LogInfo.variant_insertions LogInfo.corrected_deletions
       LogInfo.uncorrected_deletions LogInfo.variant_deletions].

(** One turn of the loop of [correctInsertions]: an Insertion run adds one
    log line and one to one of the three counters; any other operation adds
    neither. *)
Lemma insertions_body_counts (transcript : Transcript.t)
    (variants : gmap string (list string)) (maxLen : Z) (st : Loop)
    (x : string * Z) (w : World) (a b c : Z) :
  LogInfo.corrected_insertions (logInfo w) = Some a ->
  LogInfo.uncorrected_insertions (logInfo w) = Some b ->
  LogInfo.variant_insertions (logInfo w) = Some c ->
  let one := if String.eqb (fst x) "I" then 1%nat else 0%nat in
  exists st' w' a' b' c',
    insertions_body transcript variants maxLen st x w = (Some st', w')
    /\ length (TE_entries st') = (length (TE_entries st) + one)%nat
    /\ LogInfo.corrected_insertions (logInfo w') = Some a'
    /\ LogInfo.uncorrected_insertions (logInfo w') = Some b'
    /\ LogInfo.variant_insertions (logInfo w') = Some c'
    /\ a' + b' + c' = a + b + c + Z.of_nat one.
Proof.
  intros Ha Hb Hc. destruct x as [op ct]. cbn [fst].
  unfold insertions_body, insertions_rest.
  destruct (String.eqb_spec op "I") as [->|HI].
  - cbn [String.eqb Ascii.eqb Bool.eqb andb Py.str_in existsb orb].
    destruct (ct <=? maxLen);
      [destruct (variants !! _) as [alleles|];
       [destruct (Py.str_in _ alleles)|]|];
      count_step;
      eexists _, _, _, _, _; (split; [reflexivity|]);
      count_step; rewrite ?Ha, ?Hb, ?Hc; cbn [fmap option_fmap option_map];
      rewrite ?length_app; cbn [length]; repeat split; try reflexivity; lia.
  - destruct (String.eqb op "M"), (String.eqb op "S"),
      (Py.str_in op ["N"; "H"; "D"]);
      count_step;
      eexists _, _, a, b, c; (split; [reflexivity|]);
      cbn [TE_entries]; repeat split; try done; lia.
Qed.

Lemma runs_cons (op : string) (x : string * Z) (l : list (string * Z)) :
  runs op (x :: l)
  = ((if String.eqb (fst x) op then 1 else 0) + runs op l)%nat.
Proof.
  rewrite filter_cons.
  destruct (String.eqb_spec (fst x) op); case_decide; done.
Qed.

Lemma insertions_loop_counts (transcript : Transcript.t)
    (variants : gmap string (list string)) (maxLen : Z)
    (l : list (string * Z)) :
  forall (st : Loop) (w : World) (a b c : Z),
    LogInfo.corrected_insertions (logInfo w) = Some a ->
    LogInfo.uncorrected_insertions (logInfo w) = Some b ->
    LogInfo.variant_insertions (logInfo w) = Some c ->
    exists st' w' a' b' c',
      for_each (insertions_body transcript variants maxLen) l st w
      = (Some st', w')
      /\ length (TE_entries st') = (length (TE_entries st) + runs "I" l)%nat
      /\ LogInfo.corrected_insertions (logInfo w') = Some a'
      /\ LogInfo.uncorrected_insertions (logInfo w') = Some b'
      /\ LogInfo.variant_insertions (logInfo w') = Some c'
      /\ a' + b' + c' = a + b + c + Z.of_nat (runs "I" l).
Proof.
  induction l as [|x l IH]; intros st w a b c Ha Hb Hc.
  - exists st, w, a, b, c. cbn. repeat split; try done; lia.
  - destruct (insertions_body_counts transcript variants maxLen st x w a b c
                Ha Hb Hc)
      as (st1 & w1 & a1 & b1 & c1 & Hstep & Hte1 & Ha1 & Hb1 & Hc1 & Hsum1).
    destruct (IH st1 w1 a1 b1 c1 Ha1 Hb1 Hc1)
      as (st2 & w2 & a2 & b2 & c2 & Hloop & Hte2 & Ha2 & Hb2 & Hc2 & Hsum2).
    exists st2, w2, a2, b2, c2. cbn [for_each].
    unfold mbind, M_bind, bind. rewrite Hstep, Hloop, runs_cons.
    repeat split; try done; lia.
Qed.

(** X13. Insertion correction, on a CIGAR that holds an I and can be split,
    returns with one log line per Insertion run, and its three counters
    (corrected, left as too large, left as a variant) add up to the number
    of Insertion runs. *)
Theorem correctInsertions_one_line_each (transcript : Transcript.t)
    (genome : Genome) (variants : gmap string (list string)) (maxLen : Z)
    (ops : list string) (cts : list Z) (w : World) :
  Transcript.splitCIGAR transcript = Some (ops, cts) ->
  Py.char_in "I" (Transcript.CIGAR transcript) = true ->
  exists transcript' TE w' a b c,
    correctInsertions transcript genome variants maxLen w
    = (Some (transcript', TE), w')
    /\ length TE = runs "I" (Py.zip ops cts)
    /\ LogInfo.corrected_insertions (logInfo w') = Some a
    /\ LogInfo.uncorrected_insertions (logInfo w') = Some b
    /\ LogInfo.variant_insertions (logInfo w') = Some c
    /\ a + b + c = Z.of_nat (runs "I" (Py.zip ops cts)).
Proof.
  intros Hsplit HI. unfold correctInsertions.
  unfold mbind, M_bind, bind, set_counter, call. cbn [fst snd].
  rewrite Hsplit, HI. cbn [negb].
  match goal with
  | |- context [for_each _ ?l ?st ?w0] =>
      destruct (insertions_loop_counts transcript variants maxLen l st w0
                  0 0 0 eq_refl eq_refl eq_refl)
        as (st' & w' & a & b & c & Hloop & Hte & Ha & Hb & Hc & Hsum)
  end.
  rewrite Hloop. destruct (loop_end st') as [newSeq newCIGAR].
  eexists _, _, w', a, b, c. split; [reflexivity|].
  cbn [loop_start TE_entries length] in Hte.
  repeat split; try done; lia.
Qed.

(** One turn of the loop of [correctDeletions] that returns: a Deletion run
    adds one log line and one to one of the three counters; any other
    operation adds neither. *)
Lemma deletions_body_counts (transcript : Transcript.t) (genome : Genome)
    (variants : gmap string Z) (maxLen : Z) (st st' : Loop)
    (x : string * Z) (w w' : World) (a b c : Z) :
  LogInfo.corrected_deletions (logInfo w) = Some a ->
  LogInfo.uncorrected_deletions (logInfo w) = Some b ->
  LogInfo.variant_deletions (logInfo w) = Some c ->
  deletions_body transcript genome variants maxLen st x w = (Some st', w') ->
  let one := if String.eqb (fst x) "D" then 1%nat else 0%nat in
  exists a' b' c',
    length (TE_entries st') = (length (TE_entries st) + one)%nat
    /\ LogInfo.corrected_deletions (logInfo w') = Some a'
    /\ LogInfo.uncorrected_deletions (logInfo w') = Some b'
    /\ LogInfo.variant_deletions (logInfo w') = Some c'
    /\ a' + b' + c' = a + b + c + Z.of_nat one.
Proof.
  intros Ha Hb Hc. destruct x as [op ct]. cbn [fst].
  unfold deletions_body, deletions_rest.
  destruct (String.eqb_spec op "D") as [->|HD].
  - cbn [String.eqb Ascii.eqb Bool.eqb andb Py.str_in existsb orb].
    destruct (ct <=? maxLen); [case_decide|];
      count_step;
      try destruct (genome _ _ _) as [bases|]; try done;
      intros [= <- <-]; count_step; rewrite ?Ha, ?Hb, ?Hc;
      rewrite ?length_app; cbn [length fmap option_fmap option_map];
      eexists _, _, _; repeat split; try reflexivity; lia.
  - destruct (String.eqb op "M"), (Py.str_in op ["S"; "I"]),
      (Py.str_in op ["N"; "H"]);
      count_step; intros [= <- <-]; count_step;
      exists a, b, c; repeat split; try done; lia.
Qed.

Lemma deletions_loop_counts (transcript : Transcript.t) (genome : Genome)
    (variants : gmap string Z) (maxLen : Z) (l : list (string * Z)) :
  forall (st st' : Loop) (w w' : World) (a b c : Z),
    LogInfo.corrected_deletions (logInfo w) = Some a ->
    LogInfo.uncorrected_deletions (logInfo w) = Some b ->
    LogInfo.variant_deletions (logInfo w) = Some c ->
    for_each (deletions_body transcript genome variants maxLen) l st w
    = (Some st', w') ->
    exists a' b' c',
      length (TE_entries st') = (length (TE_entries st) + runs "D" l)%nat
      /\ LogInfo.corrected_deletions (logInfo w') = Some a'
      /\ LogInfo.uncorrected_deletions (logInfo w') = Some b'
      /\ LogInfo.variant_deletions (logInfo w') = Some c'
      /\ a' + b' + c' = a + b + c + Z.of_nat (runs "D" l).
Proof.
  induction l as [|x l IH]; intros st st' w w' a b c Ha Hb Hc Hrun.
  - injection Hrun as <- <-. exists a, b, c. cbn. repeat split; try done; lia.
  - cbn [for_each] in Hrun. unfold mbind, M_bind, bind in Hrun.
    destruct (deletions_body transcript genome variants maxLen st x w)
      as [[st1|] w1] eqn:Hstep; [|done].
    destruct (deletions_body_counts transcript genome variants maxLen st st1
                x w w1 a b c Ha Hb Hc Hstep)
      as (a1 & b1 & c1 & Hte1 & Ha1 & Hb1 & Hc1 & Hsum1).
    destruct (IH st1 st' w1 w' a1 b1 c1 Ha1 Hb1 Hc1 Hrun)
      as (a2 & b2 & c2 & Hte2 & Ha2 & Hb2 & Hc2 & Hsum2).
    exists a2, b2, c2. rewrite runs_cons. repeat split; try done; lia.
Qed.

(** X14. Deletion correction that returns, on a CIGAR that holds a D, has written
    one log line per Deletion run, and its three counters add up to the
    number of Deletion runs. *)
Theorem correctDeletions_one_line_each (transcript transcript' : Transcript.t)
    (genome : Genome) (variants : gmap string Z) (maxLen : Z)
    (ops : list string) (cts : list Z) (TE : list string) (w w' : World) :
  Transcript.splitCIGAR transcript = Some (ops, cts) ->
  Py.char_in "D" (Transcript.CIGAR transcript) = true ->
  correctDeletions transcript genome variants maxLen w
  = (Some (transcript', TE), w') ->
  exists a b c,
    length TE = runs "D" (Py.zip ops cts)
    /\ LogInfo.corrected_deletions (logInfo w') = Some a
    /\ LogInfo.uncorrected_deletions (logInfo w') = Some b
    /\ LogInfo.variant_deletions (logInfo w') = Some c
    /\ a + b + c = Z.of_nat (runs "D" (Py.zip ops cts)).
Proof.
  intros Hsplit HD. unfold correctDeletions.
  unfold mbind, M_bind, bind, set_counter, call. cbn [fst snd].
  rewrite Hsplit, HD. cbn [negb].
  match goal with
  | |- context [for_each ?f ?l ?st ?w0] =>
      destruct (for_each f l st w0) as [[st'|] w1] eqn:Hloop; [|done];
      destruct (deletions_loop_counts transcript genome variants maxLen l st
                  st' w0 w1 0 0 0 eq_refl eq_refl eq_refl Hloop)
        as (a & b & c & Hte & Ha & Hb & Hc & Hsum)
  end.
  destruct (loop_end st') as [newSeq newCIGAR].
  destruct (getNMandMDFlags _ _) as [[nm md]|]; [|done].
  intros [= <- <- <-]. exists a, b, c.
  cbn [loop_start TE_entries length] in Hte.
  repeat split; try done; lia.
Qed.

End IndelCounts.

Lemma splitCIGAR_cigar_text_witness :
  Cigar.splitCIGAR (cigar_text [("M", 10); ("N", 250); ("M", 3)])
  = Some (["M"; "N"; "M"], [10; 250; 3]).
Proof.
  apply (splitCIGAR_cigar_text [("M", 10); ("N", 250); ("M", 3)]).
  reflexivity.
Defined.

Lemma group_then_paste_witness :
  exists exonCIGARs intronCIGARs exonSeqs,
    group_CIGAR_by_exon_and_intron "5M9N2M1D6M" "ACGTATTTTGGGG"
    = Some (exonCIGARs, intronCIGARs, exonSeqs)
    /\ length intronCIGARs = 1%nat
    /\ paste_CIGAR exonCIGARs intronCIGARs = Some "5M9N2M1D6M"
    /\ String.concat "" exonSeqs = "ACGTATTTTGGGG".
Proof.
  destruct (group_then_paste "5M9N2M1D6M" "ACGTATTTTGGGG"
              ["M"; "N"; "M"; "D"; "M"] [5; 9; 2; 1; 6] eq_refl)
    as (es & ns & ss & Hgroup & Hn & _ & _ & Hpaste & Hseq).
  exists es, ns, ss. split; [exact Hgroup|]. split; [exact Hn|].
  split; [exact Hpaste|]. apply Hseq. repeat constructor; discriminate.
Defined.

Lemma editExonCIGAR_adds_witness :
  editExonCIGAR "3S5M" (-1) 2 = Some "3S7M"
  /\ editExonCIGAR "3S5M" 0 2 = Some "2M3S5M"
  /\ editExonCIGAR "" 0 2 = None.
Proof.
  destruct (editExonCIGAR_adds "3S5M" ["S"; "M"] [3; 5] 2 eq_refl)
    as (_ & _ & Hlast & Hother); [lia|].
  destruct (editExonCIGAR_adds "" [] [] 2 eq_refl) as (Hempty & _); [lia|].
  split; [exact (Hlast 5 [3] eq_refl eq_refl)|].
  split; [|exact (proj1 (Hempty eq_refl))].
  apply (Hother "S" ["M"] eq_refl). discriminate.
Defined.

Lemma editExonCIGAR_takes_witness :
  editExonCIGAR "5M1D1M" 0 (-2) = Some "3M1D1M"
  /\ editExonCIGAR "3S5M" (-1) (-2) = Some "3S3M"
  /\ editExonCIGAR "2M1I" (-1) (-4) = Some "".
Proof.
  destruct (editExonCIGAR_takes "5M1D1M" ["M"; "D"; "M"] [5; 1; 1] (-2)
              eq_refl) as (Hfirst & _ & _); [lia|].
  destruct (editExonCIGAR_takes "3S5M" ["S"; "M"] [3; 5] (-2) eq_refl)
    as (_ & Hlast & _); [lia|].
  destruct (editExonCIGAR_takes "2M1I" ["M"; "I"] [2; 1] (-4) eq_refl)
    as (_ & _ & Hall); [lia|].
  split; [apply (Hfirst 5 [1; 1] eq_refl); lia|].
  split; [apply (Hlast 5 [3] eq_refl); lia|].
  apply Hall; [reflexivity|repeat constructor|vm_compute; discriminate].
Defined.

Lemma cleanNoncanonical_one_line_each_witness :
  let w := Sample.world "r2" [Sample.intron 5 15 false] in
  let w' := snd (cleanNoncanonical (methods := Sample.methods)
                   Sample.spliced_at_end Sample.refs 5 w) in
  exists a b,
    LogInfo.corrected_NC_SJs (logInfo w') = Some a
    /\ LogInfo.uncorrected_NC_SJs (logInfo w') = Some b
    /\ a + b = 1.
Proof.
  intros w w'.
  destruct (cleanNoncanonical_one_line_each (methods := Sample.methods)
              Sample.spliced_at_end Sample.spliced_at_end Sample.refs 5
              [errorEntry "r2" "chr1_5_15" "NC_SJ_boundary" 2 "Uncorrected"
                 "Other"] w w' eq_refl)
    as (a & b & Ha & Hb & Hsum & _).
  - vm_compute. reflexivity.
  - exists a, b. split; [exact Ha|]. split; [exact Hb|exact Hsum].
Defined.

Lemma correctInsertions_one_line_each_witness :
  exists transcript' TE w',
    correctInsertions Sample.inserted Sample.fasta ∅ 5
      (Sample.world "r4" [])
    = (Some (transcript', TE), w')
    /\ length TE = 1%nat.
Proof.
  destruct (correctInsertions_one_line_each Sample.inserted Sample.fasta ∅ 5
              ["M"; "I"; "M"] [2; 2; 3] (Sample.world "r4" []) eq_refl eq_refl)
    as (t & TE & w' & a & b & c & Hrun & Hte & _).
  exists t, TE, w'. split; [exact Hrun|exact Hte].
Defined.

Lemma correctDeletions_one_line_each_witness :
  let r := correctDeletions (methods := Sample.methods) Sample.deleted
             Sample.fasta ∅ 5 (Sample.world "r5" []) in
  exists a b c,
    LogInfo.corrected_deletions (logInfo (snd r)) = Some a
    /\ LogInfo.uncorrected_deletions (logInfo (snd r)) = Some b
    /\ LogInfo.variant_deletions (logInfo (snd r)) = Some c
    /\ a + b + c = 1.
Proof.
  intros r.
  destruct (correctDeletions_one_line_each (methods := Sample.methods)
              Sample.deleted
              (Sample.read "r5" "chr1" 1 "8M" "ACGTAGTC" "MD:Z:")
              Sample.fasta ∅ 5 ["M"; "D"; "M"] [2; 2; 4]
              [errorEntry "r5" "chr1_3_4" "Deletion" 2 "Corrected" "NA"]
              (Sample.world "r5" []) (snd r) eq_refl eq_refl)
    as (a & b & c & _ & Ha & Hb & Hc & Hsum).
  - vm_compute. reflexivity.
  - exists a, b, c. repeat split; assumption.
Defined.

(** ** The variant file *)

Section Variants.
Context {methods : Methods}.

Lemma len_slice_le (s : string) (i ct : Z) :
  0 <= ct -> Py.len (Py.slice s i (i + ct)) <= ct.
Proof.
  intros Hct. unfold Py.slice, Py.len.
  assert (forall n m t, (String.length (substring n m t) <= m)%nat) as Hsub.
  { intros n m t. revert n m. induction t as [|c t IH]; intros [|n] [|m];
      cbn [substring String.length]; try lia.
    - specialize (IH 0%nat m). lia.
    - apply (IH n 0%nat).
    - specialize (IH n (S m)). lia. }
  match goal with |- Z.of_nat (String.length (substring ?n ?m ?t)) <= _ =>
    specialize (Hsub n m t); set (k := String.length (substring n m t)) in * end.
  unfold Py.clamp in *. fold (Py.len s) in *.
  pose proof (len_nonneg s).
  destruct (Z.ltb_spec i 0), (Z.ltb_spec (i + ct) 0); lia.
Qed.

Lemma add_allele_lookup (ID allele : string) (d : gmap string (list string)) :
  exists alleles,
    add_allele ID allele d !! ID = Some (alleles ++ [allele])
    /\ (d !! ID = None -> alleles = []).
Proof.
  unfold add_allele. destruct (d !! ID) as [l|] eqn:Hd.
  - exists l. by rewrite lookup_insert_eq.
  - exists []. by rewrite lookup_insert_eq.
Qed.

Lemma str_in_snoc (x : string) (l : list string) :
  Py.str_in x (l ++ [x]) = true.
Proof.
  unfold Py.str_in. rewrite existsb_app. cbn. by rewrite String.eqb_refl, !orb_true_r.
Qed.

(** X15. An insertion allele of the VCF file protects the run it describes: the
    allele [ref -> allele] at [pos], longer than [ref] by [L] bases within
    the size bound, is stored for the span that starts at [pos + 1]; an
    Insertion run of [L] bases at that genome position whose bases are the
    allele's after the first is then left in place and logged as a variant
    match. *)
Theorem processVCF_insertion_protects (maxLen : Z) (chrom : string) (pos : Z)
    (ref allele : string) (c : Catalog) (transcript : Transcript.t)
    (st : Loop) (w : World) :
  let L := Py.len allele - Py.len ref in
  let c' := processVCF_allele maxLen chrom pos ref c allele in
  0 < L <= maxLen ->
  Transcript.CHROM transcript = chrom ->
  genomePos st = pos + 1 ->
  Py.slice (Transcript.SEQ transcript) (seqPos st) (seqPos st + L)
  = Py.slice_from allele 1 ->
  insertions_body transcript (cat_insertions c') maxLen st ("I", L) w
  = (Some (read_only_op (Transcript.SEQ transcript) "I" L
             (log_entry
                (indel_entry transcript "Insertion" (pos + 1) L
                   "Uncorrected" "VariantMatch") st)),
     snd (incr_counter LogInfo.VariantInsertions w)).
Proof.
  intros L c' HL Hchrom Hg Hseq.
  rewrite <- Hg. apply insertions_body_variant; [lia|].
  unfold insertion_in_catalog. subst c'. unfold processVCF_allele.
  destruct (Z.eqb_spec (Py.len ref) (Py.len allele)); [lia|]. cbn [andb].
  destruct (Z.ltb_spec maxLen (Z.abs (Py.len ref - Py.len allele))); [lia|].
  destruct (Z.ltb_spec (Py.len ref - Py.len allele) 0); [|lia].
  cbn [cat_insertions]. unfold span_ID.
  rewrite Hchrom, Hg.
  replace (Z.abs (Py.len ref - Py.len allele)) with L by lia.
  destruct (add_allele_lookup
              (Py.join "_" [chrom; Py.str (pos + 1); Py.str (pos + 1 + L - 1)])
              (Py.slice_from allele 1) (cat_insertions c))
    as (alleles & -> & _).
  rewrite Hseq. apply str_in_snoc.
Qed.

(** X16. The allele is stored without its first base only, while the span is as
    long as the difference of the two alleles: when the reference allele has
    more than one base, what is stored is longer than the span, and no
    Insertion run at that span ever matches it. *)
Theorem processVCF_long_ref_unmatched (maxLen : Z) (chrom : string) (pos : Z)
    (ref allele : string) (c : Catalog) (transcript : Transcript.t) (p : Z) :
  let L := Py.len allele - Py.len ref in
  let c' := processVCF_allele maxLen chrom pos ref c allele in
  0 < L <= maxLen ->
  1 < Py.len ref ->
  cat_insertions c !! span_ID chrom (pos + 1) L = None ->
  Transcript.CHROM transcript = chrom ->
  cat_insertions c' !! span_ID chrom (pos + 1) L
  = Some [Py.slice_from allele 1]
  /\ insertion_in_catalog transcript (cat_insertions c') p (pos + 1) L = false.
Proof.
  intros L c' HL Href Hfresh Hchrom.
  assert (cat_insertions c' !! span_ID chrom (pos + 1) L
          = Some [Py.slice_from allele 1]) as Hstored.
  { subst c'. unfold processVCF_allele.
    destruct (Z.eqb_spec (Py.len ref) (Py.len allele)); [lia|]. cbn [andb].
    destruct (Z.ltb_spec maxLen (Z.abs (Py.len ref - Py.len allele))); [lia|].
    destruct (Z.ltb_spec (Py.len ref - Py.len allele) 0); [|lia].
    cbn [cat_insertions]. unfold span_ID in *.
    replace (Z.abs (Py.len ref - Py.len allele)) with L by lia.
    destruct (add_allele_lookup
                (Py.join "_" [chrom; Py.str (pos + 1);
                              Py.str (pos + 1 + L - 1)])
                (Py.slice_from allele 1) (cat_insertions c))
      as (alleles & -> & Hnil).
    by rewrite (Hnil Hfresh). }
  split; [done|]. unfold insertion_in_catalog. rewrite Hchrom, Hstored.
  cbn [Py.str_in existsb]. rewrite orb_false_r. apply String.eqb_neq.
  intros Heq. apply (f_equal Py.len) in Heq.
  pose proof (len_slice_le (Transcript.SEQ transcript) p L) as Hle.
  unfold Py.slice_from in Heq.
  replace (Py.len allele) with (1 + (Py.len allele - 1)) in Heq at 1 by lia.
  rewrite (len_slice allele 1 (Py.len allele - 1)) in Heq by lia. lia.
Qed.

(** X17. A deletion allele of the VCF file protects the run it describes: the
    allele [ref -> allele] at [pos], shorter than [ref] by [L] bases within
    the size bound, marks the span that starts at [pos + 1]; a Deletion run
    of [L] bases at that genome position is then left in place and logged
    as a variant match, once the reference has been read. *)
Theorem processVCF_deletion_protects (maxLen : Z) (chrom : string) (pos : Z)
    (ref allele : string) (c : Catalog) (transcript : Transcript.t)
    (genome : Genome) (st : Loop) (w : World) (refBases : string) :
  let L := Py.len ref - Py.len allele in
  let c' := processVCF_allele maxLen chrom pos ref c allele in
  0 < L <= maxLen ->
  Transcript.CHROM transcript = chrom ->
  genomePos st = pos + 1 ->
  genome chrom (pos + 1) (pos + 1 + L - 1) = Some refBases ->
  cat_deletions c' !! span_ID chrom (pos + 1) L = Some 1
  /\ deletions_body transcript genome (cat_deletions c') maxLen st ("D", L) w
     = (Some (reference_only_op "D" L
                (log_entry
                   (indel_entry transcript "Deletion" (pos + 1) L
                      "Uncorrected" "VariantMatch") st)),
        snd (incr_counter LogInfo.VariantDeletions w)).
Proof.
  intros L c' HL Hchrom Hg Hgen.
  assert (cat_deletions c' !! span_ID chrom (pos + 1) L = Some 1) as Hstored.
  { subst c'. unfold processVCF_allele.
    destruct (Z.eqb_spec (Py.len ref) (Py.len allele)); [lia|]. cbn [andb].
    destruct (Z.ltb_spec maxLen (Z.abs (Py.len ref - Py.len allele))); [lia|].
    destruct (Z.ltb_spec (Py.len ref - Py.len allele) 0); [lia|].
    destruct (Z.ltb_spec 0 (Py.len ref - Py.len allele)); [|lia].
    cbn [cat_deletions]. unfold span_ID.
    replace (Z.abs (Py.len ref - Py.len allele)) with L by lia.
    apply lookup_insert_eq. }
  split; [done|]. rewrite <- Hg.
  apply (deletions_body_variant transcript genome _ maxLen st L w refBases);
    [lia|by rewrite Hchrom, Hg, Hstored|by rewrite Hchrom, Hg].
Qed.

(** X18. [processVCF] only ever adds to its dictionaries: an allele stored under
    a key stays, in its place, and a marked deletion span stays marked. *)
Theorem processVCF_allele_keeps (maxLen : Z) (chrom : string) (pos : Z)
    (ref allele : string) (c : Catalog) (ID : string) :
  let c' := processVCF_allele maxLen chrom pos ref c allele in
  (forall alleles, SNPs c !! ID = Some alleles ->
     exists more, SNPs c' !! ID = Some (alleles ++ more))
  /\ (forall alleles, cat_insertions c !! ID = Some alleles ->
        exists more, cat_insertions c' !! ID = Some (alleles ++ more))
  /\ (is_Some (cat_deletions c !! ID) -> is_Some (cat_deletions c' !! ID)).
Proof.
  assert (forall key a (d : gmap string (list string)) alleles,
            d !! ID = Some alleles ->
            exists more, add_allele key a d !! ID = Some (alleles ++ more))
    as Hadd.
  { intros key a d alleles Hd. unfold add_allele.
    destruct (decide (key = ID)) as [->|Hne].
    - rewrite Hd, lookup_insert_eq. by exists [a].
    - destruct (d !! key); rewrite lookup_insert_ne by done;
        exists []; by rewrite app_nil_r. }
  assert (forall alleles : list string, exists more : list string,
            Some alleles = Some (alleles ++ more)) as Hsame.
  { intros alleles. exists []. by rewrite app_nil_r. }
  cbv zeta. unfold processVCF_allele.
  destruct (_ && _); [|destruct (_ <? _); [|destruct (_ <? _);
                                           [|destruct (_ <? _)]]];
    cbn [SNPs cat_insertions cat_deletions];
    repeat split; try (intros alleles ->; apply Hsame); try done;
    try (intros alleles Hd; by apply Hadd).
  intros Hsome. destruct (decide (Py.join "_"
    [chrom; Py.str (pos + 1);
     Py.str (pos + 1 + Z.abs (Py.len ref - Py.len allele) - 1)] = ID))
    as [<-|Hne]; [by rewrite lookup_insert_eq|by rewrite lookup_insert_ne].
Qed.

(** X19. A line of the VCF file makes [processVCF] raise exactly when it is not a
    comment and has fewer than five fields or a position that is not a
    number; an empty line is such a line. A comment leaves the dictionaries
    as they are. *)
Theorem processVCF_line_raises_iff (maxLen : Z) (c : Catalog) (line : string) :
  let fields := Py.split (Py.strip line) in
  (processVCF_line maxLen c line = None
   <-> startswith (Py.strip line) "#" = false
       /\ ((length fields < 5)%nat
           \/ exists p, fields !! 1%nat = Some p /\ Py.int p = None))
  /\ (startswith (Py.strip line) "#" = true ->
      processVCF_line maxLen c line = Some c)
  /\ processVCF_line maxLen c "" = None.
Proof.
  cbv zeta. split; [|split; [|done]].
  - unfold processVCF_line.
    destruct (startswith (Py.strip line) "#"); [by split; [|intros [? _]]|].
    destruct (Py.split (Py.strip line)) as [|f0 [|f1 [|f2 [|f3 [|f4 rest]]]]];
      cbn [length lookup list_lookup mbind option_bind fmap option_fmap
           option_map];
      try (split; [intros _; split; [done|left; lia]|done]);
      try (destruct (Py.int f1);
           (split; [intros _; split; [done|left; lia]|done])).
    destruct (Py.int f1) as [pos|] eqn:Hpos; cbn [mbind option_bind].
    + split; [done|]. intros [_ [Hlen|(p & [= <-] & Hnone)]]; [lia|congruence].
    + split; [|done]. intros _. split; [done|]. right. by exists f1.
  - intros Hc. unfold processVCF_line. by rewrite Hc.
Qed.

End Variants.

Lemma processVCF_insertion_protects_witness :
  let c := processVCF_allele 5 "chr1" 2 "C"
             {| SNPs := ∅; cat_insertions := ∅; cat_deletions := ∅ |} "CNN" in
  cat_insertions c !! "chr1_3_4" = Some ["NN"]
  /\ exists st w,
       insertions_body Sample.inserted (cat_insertions c) 5
         {| newCIGAR := ""; newSeq := "AC"; MVal := 2; seqPos := 2;
            genomePos := 3; TE_entries := [] |} ("I", 2)
         (Sample.world "r4" [])
       = (Some st, w)
       /\ TE_entries st
          = [errorEntry "r4" "chr1_3_4" "Insertion" 2 "Uncorrected"
               "VariantMatch"]
       /\ newSeq st = "ACNN".
Proof.
  intros c. split; [reflexivity|].
  eexists _, _. split.
  - apply (processVCF_insertion_protects 5 "chr1" 2 "C" "CNN"
             {| SNPs := ∅; cat_insertions := ∅; cat_deletions := ∅ |}
             Sample.inserted
             {| newCIGAR := ""; newSeq := "AC"; MVal := 2; seqPos := 2;
                genomePos := 3; TE_entries := [] |}
             (Sample.world "r4" []));
      [vm_compute; split; [reflexivity|discriminate]|reflexivity..].
  - split; reflexivity.
Defined.

Lemma processVCF_long_ref_unmatched_witness :
  let c := processVCF_allele 5 "chr1" 2 "CG"
             {| SNPs := ∅; cat_insertions := ∅; cat_deletions := ∅ |}
             "CGNN" in
  cat_insertions c !! "chr1_3_4" = Some ["GNN"]
  /\ insertion_in_catalog Sample.inserted (cat_insertions c) 2 3 2 = false.
Proof.
  apply (processVCF_long_ref_unmatched 5 "chr1" 2 "CG" "CGNN"
           {| SNPs := ∅; cat_insertions := ∅; cat_deletions := ∅ |}
           Sample.inserted 2);
    [vm_compute; split; [reflexivity|discriminate]|vm_compute; reflexivity|reflexivity
    |reflexivity].
Defined.

Lemma processVCF_deletion_protects_witness :
  let c := processVCF_allele 5 "chr1" 2 "CGT"
             {| SNPs := ∅; cat_insertions := ∅; cat_deletions := ∅ |} "C" in
  cat_deletions c !! "chr1_3_4" = Some 1
  /\ exists st w,
       deletions_body Sample.deleted Sample.fasta
         (cat_deletions c) 5
         {| newCIGAR := ""; newSeq := "AC"; MVal := 2; seqPos := 2;
            genomePos := 3; TE_entries := [] |} ("D", 2)
         (Sample.world "r5" [])
       = (Some st, w)
       /\ newCIGAR st = "2M2D".
Proof.
  intros c.
  destruct (processVCF_deletion_protects 5 "chr1"
              2 "CGT" "C"
              {| SNPs := ∅; cat_insertions := ∅; cat_deletions := ∅ |}
              Sample.deleted Sample.fasta
              {| newCIGAR := ""; newSeq := "AC"; MVal := 2; seqPos := 2;
                 genomePos := 3; TE_entries := [] |}
              (Sample.world "r5" []) "GT")
    as [Hstored Hrun];
    [vm_compute; split; [reflexivity|discriminate]|reflexivity..|].
  split; [exact Hstored|]. eexists _, _. split; [exact Hrun|reflexivity].
Defined.

Lemma processVCF_allele_keeps_witness :
  let c := {| SNPs := {["chr1_7" := ["T"]]}; cat_insertions := ∅;
              cat_deletions := ∅ |} in
  exists more,
    SNPs (processVCF_allele 5 "chr1" 7 "C" c "G") !! "chr1_7"
    = Some (["T"] ++ more).
Proof.
  intros c.
  apply (proj1 (processVCF_allele_keeps 5 "chr1" 7 "C" "G" c "chr1_7")).
  reflexivity.
Defined.

Lemma processVCF_allele_above_bound_witness :
  processVCF_allele 2 "chr1" 2 "C"
    {| SNPs := ∅; cat_insertions := ∅; cat_deletions := ∅ |} "CNNN"
  = {| SNPs := ∅; cat_insertions := ∅; cat_deletions := ∅ |}.
Proof.
  apply processVCF_allele_above_bound; [vm_compute; reflexivity|lia].
Defined.

Lemma processVCF_line_raises_iff_witness :
  processVCF_line 5 {| SNPs := ∅; cat_insertions := ∅; cat_deletions := ∅ |}
    "chr1 7 rs1 C" = None.
Proof.
  apply (proj2 (proj1 (processVCF_line_raises_iff 5
                         {| SNPs := ∅; cat_insertions := ∅;
                            cat_deletions := ∅ |} "chr1 7 rs1 C"))).
  split; [reflexivity|]. left. vm_compute. lia.
Defined.

(** ** The log line *)

Section LogString.

Local Abbreviation chars := list_ascii_of_string.
Local Abbreviation tab := (ascii_of_nat 9).

(** The fields of [s.split(sep)] hold no separator. *)
Lemma split_on_from_no_sep (sep : ascii) (s : string) (tok : list ascii) :
  ~ In sep tok ->
  Forall (fun f => Py.char_in sep f = false) (Py.split_on_from sep tok s).
Proof.
  revert tok. induction s as [|c s IH]; intros tok Htok;
    cbn [Py.split_on_from].
  - constructor; [|constructor]. apply not_true_iff_false.
    intros Hin%char_in_of_list%in_rev. done.
  - destruct (Ascii.eqb_spec c sep) as [->|Hne].
    + constructor; [|apply IH; intros []].
      apply not_true_iff_false. intros Hin%char_in_of_list%in_rev. done.
    + apply IH. intros [->|?]; done.
Qed.

Lemma string_of_snoc (l : list ascii) (c : ascii) (f : string) :
  string_of_list_ascii (l ++ [c]) +:+ f
  = string_of_list_ascii l +:+ String c f.
Proof.
  induction l as [|a l IH]; [done|].
  cbn [app string_of_list_ascii]. by rewrite !app_String, IH.
Qed.

(** Splitting at a separator undoes joining with it, for fields that hold
    no separator. *)
Lemma split_on_from_join (sep : ascii) (f : string) (fs : list string)
    (tok : list ascii) :
  Forall (fun f => Py.char_in sep f = false) (f :: fs) ->
  Py.split_on_from sep tok (Py.join (String sep "") (f :: fs))
  = (string_of_list_ascii (rev tok) +:+ f) :: fs.
Proof.
  revert f tok. induction fs as [|g fs IH]; intros f tok Hf.
  - inversion Hf as [|? ? Hc _]; subst. cbn [Py.join String.concat].
    clear Hf. revert tok. induction f as [|c f IHf]; intros tok.
    + cbn [Py.split_on_from]. by rewrite app_empty_r.
    + cbn [Py.char_in] in Hc. apply orb_false_iff in Hc as [Hc Hf].
      cbn [Py.split_on_from]. rewrite Ascii.eqb_sym, Hc, (IHf Hf).
      cbn [rev]. by rewrite string_of_snoc.
  - inversion Hf as [|? ? Hc Hrest]; subst.
    change (Py.join (String sep "") (f :: g :: fs))
      with (f +:+ String sep "" +:+ Py.join (String sep "") (g :: fs)).
    clear Hf. revert tok. induction f as [|c f IHf]; intros tok.
    + rewrite app_empty_l, app_String, app_empty_l.
      cbn [Py.split_on_from]. rewrite Ascii.eqb_refl, (IH g [] Hrest).
      by rewrite app_empty_r.
    + cbn [Py.char_in] in Hc. apply orb_false_iff in Hc as [Hc Hf].
      rewrite app_String. cbn [Py.split_on_from].
      rewrite Ascii.eqb_sym, Hc, (IHf Hf). cbn [rev].
      by rewrite string_of_snoc.
Qed.

Lemma char_in_chars (c : ascii) (s : string) :
  Py.char_in c s = true <-> In c (chars s).
Proof.
  rewrite <- (string_of_list_ascii_of_string s) at 1. apply char_in_of_list.
Qed.

Lemma str_no_tab (n : Z) : Py.char_in tab (Py.str n) = false.
Proof.
  apply not_true_iff_false. intros Hin%char_in_chars.
  assert (forall d, ~ In tab (chars (NilZero.string_of_uint d))) as Huint.
  { intros d Hd.
    destruct (match d with Decimal.Nil => true | _ => false end) eqn:Hnil.
    - destruct d; try done. by destruct Hd as [Hd|[]].
    - rewrite string_of_uint_nonnil in Hd by (by destruct d).
      pose proof (uint_digits d) as Hall. rewrite Forall_forall in Hall.
      by apply list_elem_of_In, Hall in Hd. }
  unfold Py.str in Hin. destruct (Z.to_int n) as [d|d];
    cbn [NilZero.string_of_int chars] in Hin.
  - by apply Huint in Hin.
  - destruct Hin as [Hin|Hin]; [done|]. by apply Huint in Hin.
Qed.

Lemma str_counter_no_tab (c : option Z) : Py.char_in tab (str_counter c) = false.
Proof. destruct c; [apply str_no_tab|done]. Qed.

(** X20. The line that [create_log_string] writes for a record has twelve
    tab-separated columns: split at the tabs, it gives back the read name,
    the mapping status and the ten counters, whatever the counters have
    become since [init_log_info] made the log struct from the SAM line. *)
Theorem create_log_string_columns (transcript_line : string)
    (l0 l : LogInfo.t) :
  init_log_info (Py.split_on tab transcript_line) = Some l0 ->
  LogInfo.TranscriptID l = LogInfo.TranscriptID l0 ->
  LogInfo.Mapping l = LogInfo.Mapping l0 ->
  Py.split_on tab (create_log_string l)
  = [LogInfo.TranscriptID l0; LogInfo.Mapping l0;
     str_counter (LogInfo.corrected_deletions l);
     str_counter (LogInfo.uncorrected_deletions l);
     str_counter (LogInfo.variant_deletions l);
     str_counter (LogInfo.corrected_insertions l);
     str_counter (LogInfo.uncorrected_insertions l);
     str_counter (LogInfo.variant_insertions l);
     str_counter (LogInfo.corrected_mismatches l);
     str_counter (LogInfo.uncorrected_mismatches l);
     str_counter (LogInfo.corrected_NC_SJs l);
     str_counter (LogInfo.uncorrected_NC_SJs l)].
Proof.
  intros Hinit Hid Hmap. unfold create_log_string, Py.split_on.
  rewrite Hid, Hmap.
  change Py.tab with (String tab "").
  rewrite split_on_from_join; [done|].
  assert (Py.char_in tab (LogInfo.TranscriptID l0) = false
          /\ Py.char_in tab (LogInfo.Mapping l0) = false) as [Hi Hm].
  { unfold init_log_info in Hinit.
    pose proof (split_on_from_no_sep tab transcript_line [] (fun H => H))
      as Hfields.
    fold (Py.split_on tab transcript_line) in Hfields.
    destruct (Py.split_on tab transcript_line)
      as [|qname [|flag [|chrom rest]]]; try done;
      cbn [lookup list_lookup mbind option_bind] in Hinit;
      destruct (Py.int flag) as [f|]; try done;
      cbn [mbind option_bind] in Hinit.
    injection Hinit as <-. cbn [LogInfo.TranscriptID LogInfo.Mapping].
    inversion Hfields as [|? ? Hq _]; subst. split; [done|].
    by destruct (_ || _); [|destruct (_ <? _)]. }
  repeat (constructor; [first [done | apply str_counter_no_tab]|]).
  constructor.
Qed.

End LogString.

(** ** Splitting the input between processes *)

Section SplitInput.
Context {A : Type}.

Lemma list_slice_chunk (l : list A) (index batch : Z) :
  0 <= index -> 0 <= batch ->
  list_slice l index (index + batch)
  = take (Z.to_nat batch) (drop (Z.to_nat index) l).
Proof.
  intros Hi Hb. unfold list_slice, Py.clamp.
  destruct (Z.ltb_spec index 0), (Z.ltb_spec (index + batch) 0); try lia.
  set (n := Z.of_nat (length l)).
  destruct (Z.le_gt_cases n index) as [Hout|Hin].
  - rewrite !drop_ge by lia. by rewrite !take_nil.
  - rewrite (Z.min_l index n) by lia.
    destruct (Z.le_gt_cases (index + batch) n).
    + rewrite Z.min_l by lia. f_equal. lia.
    + rewrite Z.min_r by lia.
      rewrite !take_ge; [done|rewrite length_drop; lia..].
Qed.

(** The loop from a position [index] that is not negative, with a batch
    size of at least one and enough fuel: it returns, having added chunks
    that are not empty, hold at most [batch_size] elements and make up, one
    after the other, the list from [index] on. *)
Lemma split_loop_returns (l : list A) (batch : Z) (fuel : nat) :
  1 <= batch ->
  forall (index : Z) (chunks : list (list A)),
    0 <= index ->
    Z.max 0 (Z.of_nat (length l) - index) < Z.of_nat fuel ->
    exists rest,
      split_loop fuel l batch index chunks = Returned (chunks ++ rest)
      /\ concat rest = drop (Z.to_nat index) l
      /\ Forall (fun c => 0 < Z.of_nat (length c) <= batch) rest
      /\ Z.of_nat (length rest) * batch
         < Z.max 0 (Z.of_nat (length l) - index) + batch.
Proof.
  intros Hbatch. induction fuel as [|fuel IH]; intros index chunks Hi Hfuel.
  { exists []. lia. }
  cbn [split_loop]. destruct (Z.ltb_spec index (Z.of_nat (length l))).
  - destruct (IH (index + batch) (chunks ++ [list_slice l index (index + batch)]))
      as (rest & Hrun & Hcat & Hall & Hcount); [lia|lia|].
    exists (list_slice l index (index + batch) :: rest).
    rewrite Hrun, <- app_assoc. split; [done|].
    rewrite list_slice_chunk by lia. cbn [concat length].
    split; [|split].
    + rewrite Hcat, Z2Nat.inj_add, <- drop_drop by lia.
      apply take_drop.
    + constructor; [|done].
      rewrite length_take, length_drop.
      destruct (Nat.min_spec (Z.to_nat batch) (length l - Z.to_nat index))
        as [[? ->]|[? ->]]; lia.
    + rewrite Nat2Z.inj_succ, Z.mul_succ_l.
      destruct (Z.max_spec 0 (Z.of_nat (length l) - (index + batch)))
        as [[? Hm]|[? Hm]]; rewrite Hm in Hcount;
        rewrite (Z.max_r 0 (Z.of_nat (length l) - index)) by lia.
      * clear -Hcount. lia.
      * clear -Hcount H Hbatch.
        generalize dependent (Z.of_nat (length rest)). intros r Hr.
        assert (r < 1) by nia. nia.
  - exists []. rewrite app_nil_r, drop_ge by lia. cbn. repeat split; try done.
    lia.
Qed.

(** What [split_input] returns for a positive number of parts. *)
Lemma split_input_chunks (my_list : list A) (n : Z) (fuel : nat) :
  0 < n ->
  (length my_list < fuel)%nat ->
  exists batch_size chunks,
    ceil_div (Z.of_nat (length my_list)) n = Some batch_size
    /\ split_input fuel my_list n = Returned chunks
    /\ concat chunks = my_list
    /\ Forall (fun c => 0 < Z.of_nat (length c) <= batch_size) chunks
    /\ Z.of_nat (length chunks) <= n
    /\ (my_list = [] -> chunks = [])
    /\ (my_list <> [] ->
        (Z.of_nat (length chunks) - 1) * batch_size
        < Z.of_nat (length my_list)
        <= Z.of_nat (length chunks) * batch_size).
Proof.
  intros Hn Hfuel. unfold split_input, ceil_div.
  destruct (Z.eqb_spec n 0); [lia|].
  set (len := Z.of_nat (length my_list)).
  set (batch := - (- len / n)).
  assert (len <= n * batch /\ 0 <= batch /\ (0 < len -> 1 <= batch))
    as (Hcover & Hnn & Hpos).
  { subst batch. pose proof (Z.div_mod (- len) n ltac:(lia)).
    pose proof (Z.mod_pos_bound (- len) n Hn). subst len. nia. }
  exists batch. destruct my_list as [|x l].
  - exists []. destruct fuel; [lia|]. cbn. repeat split; try done. lia.
  - destruct (split_loop_returns (x :: l) batch fuel) with (index := 0)
        (chunks := @nil (list A))
      as (rest & Hrun & Hcat & Hall & Hcount); [subst len; cbn in *; lia|lia| |].
    { rewrite Z.max_r by lia. lia. }
    exists rest. cbn [app] in Hrun. rewrite Hrun.
    change (drop (Z.to_nat 0) (x :: l)) with (x :: l) in Hcat.
    fold len in Hcount. rewrite Z.sub_0_r, Z.max_r in Hcount by lia.
    assert (1 <= batch) as Hone by (apply Hpos; subst len; cbn; lia).
    assert (len <= Z.of_nat (length rest) * batch) as Hupper.
    { subst len. rewrite <- Hcat. clear -Hall.
      induction Hall as [|c cs Hc Hcs IH]; [done|].
      cbn [concat]. rewrite length_app. cbn [length].
      rewrite Nat2Z.inj_add, Nat2Z.inj_succ, Z.mul_succ_l. lia. }
    repeat split; try done.
    + clear -Hcount Hcover Hone Hn.
      generalize dependent (Z.of_nat (length rest)). intros k Hk.
      assert (k * batch < (n + 1) * batch) by lia.
      assert (k < n + 1) by nia. lia.
    + clear -Hcount. lia.
Qed.

(** X21. [split_input] with a positive number of parts. Given fuel for one
    more turn than the list has elements, it returns chunks that, one after
    the other, are the list: no element is lost, repeated or moved. No chunk
    is empty or longer than the batch size [ceil(len / n)], and there are at
    most [n] chunks (none for the empty list). *)
Theorem split_input_partitions (my_list : list A) (n : Z) (fuel : nat) :
  0 < n ->
  (length my_list < fuel)%nat ->
  exists batch_size chunks,
    ceil_div (Z.of_nat (length my_list)) n = Some batch_size
    /\ split_input fuel my_list n = Returned chunks
    /\ concat chunks = my_list
    /\ Forall (fun c => 0 < Z.of_nat (length c) <= batch_size) chunks
    /\ Z.of_nat (length chunks) <= n
    /\ (my_list = [] -> chunks = [])
    /\ (my_list <> [] ->
        (Z.of_nat (length chunks) - 1) * batch_size
        < Z.of_nat (length my_list)
        <= Z.of_nat (length chunks) * batch_size).
Proof. apply split_input_chunks. Qed.

(** X22. [split_input] with a number of parts that is not positive. With
    zero parts it raises, whatever the list. With a negative number of
    parts the batch size is not positive, so on a list that is not empty the
    loop never ends, however much fuel it is given; on the empty list it
    returns no chunk. *)
Theorem split_input_bad_parts (my_list : list A) (n : Z) (fuel : nat) :
  (n = 0 -> split_input fuel my_list n = Raised)
  /\ (n < 0 -> my_list <> [] -> split_input fuel my_list n = Unfinished)
  /\ (n < 0 -> my_list = [] -> (0 < fuel)%nat ->
      split_input fuel my_list n = Returned []).
Proof.
  split; [|split].
  - intros ->. done.
  - intros Hn Hne. unfold split_input, ceil_div.
    destruct (Z.eqb_spec n 0); [lia|].
    set (len := Z.of_nat (length my_list)).
    assert (0 < len) by (subst len; destruct my_list; [done|cbn; lia]).
    assert (- (- len / n) <= 0) as Hbatch.
    { pose proof (Z.div_mod (- len) n ltac:(lia)).
      pose proof (Z.mod_neg_bound (- len) n Hn). nia. }
    generalize dependent (- (- len / n)). intros batch Hbatch.
    assert (forall index chunks, index <= 0 ->
              split_loop fuel my_list batch index chunks = Unfinished)
      as Hloop; [|by apply Hloop].
    induction fuel as [|fuel IH]; intros index chunks Hi; [done|].
    cbn [split_loop]. fold len.
    destruct (Z.ltb_spec index len); [|lia]. apply IH. lia.
  - intros Hn -> Hfuel. unfold split_input, ceil_div.
    destruct (Z.eqb_spec n 0); [lia|]. by destruct fuel; [lia|].
Qed.

(** The loop over the indices from [k] on: it ends when there is a chunk
    for each of them, and raises otherwise, once every chunk from [k] on
    has been given to a process. *)
Lemma main_loop_range (sam_chunks : list (list A)) (m : nat) :
  forall (k : nat) (processes : list (list A)),
    (k <= length sam_chunks)%nat ->
    main_loop sam_chunks (seq k m) processes
    = if decide (k + m <= length sam_chunks)%nat
      then (Some tt, processes ++ take m (drop k sam_chunks))
      else (None, processes ++ drop k sam_chunks).
Proof.
  induction m as [|m IH]; intros k processes Hk.
  - cbn [seq main_loop]. rewrite decide_True by lia.
    by rewrite take_0, app_nil_r.
  - cbn [seq main_loop].
    destruct (sam_chunks !! k) as [chunk|] eqn:Hchunk.
    + pose proof (lookup_lt_Some _ _ _ Hchunk).
      rewrite IH by lia. rewrite (drop_S _ _ _ Hchunk).
      cbn [take]. rewrite <- !app_assoc. cbn [app].
      destruct (decide (S k + m <= length sam_chunks)%nat);
        [rewrite decide_True by lia|rewrite decide_False by lia]; done.
    + apply lookup_ge_None in Hchunk.
      rewrite decide_False by lia. rewrite drop_ge by lia.
      by rewrite app_nil_r.
Qed.

(** X23. The processes that [main] starts. With [n_cpus] processors,
    [main] asks [split_input] for [n_cpus] chunks and gives chunk [i] to
    process [i]. Every chunk is given to a process, so every transcript
    line is handed over exactly once; but the loop then ends without an
    [IndexError] only when [split_input] made [n_cpus] chunks, which is
    when [(n_cpus - 1) * ceil(len / n_cpus) < len]. With no transcript
    line at all it raises before a process is started. *)
Theorem main_start_needs_all_chunks (sam_lines : list A) (n_cpus : Z)
    (fuel : nat) :
  0 < n_cpus ->
  (length sam_lines < fuel)%nat ->
  exists batch_size,
    ceil_div (Z.of_nat (length sam_lines)) n_cpus = Some batch_size
    /\ concat (snd (main_start fuel sam_lines n_cpus)) = sam_lines
    /\ (fst (main_start fuel sam_lines n_cpus) = Returned tt
        <-> (n_cpus - 1) * batch_size < Z.of_nat (length sam_lines))
    /\ (fst (main_start fuel sam_lines n_cpus) <> Returned tt ->
        fst (main_start fuel sam_lines n_cpus) = Raised)
    /\ (sam_lines = [] -> main_start fuel sam_lines n_cpus = (Raised, [])).
Proof.
  intros Hn Hfuel.
  destruct (split_input_chunks sam_lines n_cpus fuel Hn Hfuel)
    as (batch & chunks & Hbatch & Hrun & Hcat & Hall & Hmost & Hnil & Hcount).
  exists batch. split; [done|]. unfold main_start. rewrite Hrun.
  rewrite main_loop_range by lia. cbn [app Nat.add]. rewrite drop_0.
  assert (0 <= batch) as Hnn.
  { unfold ceil_div in Hbatch. destruct (Z.eqb_spec n_cpus 0); [lia|].
    injection Hbatch as <-.
    pose proof (Z.div_mod (- Z.of_nat (length sam_lines)) n_cpus ltac:(lia)).
    pose proof (Z.mod_pos_bound (- Z.of_nat (length sam_lines)) n_cpus Hn).
    nia. }
  destruct (decide (Z.to_nat n_cpus <= length chunks)%nat) as [Hle|Hgt];
    cbn [fst snd].
  - rewrite take_ge by lia. split; [done|]. split; [|split; [done|]].
    + split; [intros _|done].
      destruct sam_lines as [|x l].
      { rewrite Hnil in Hle by done. cbn in Hle. lia. }
      destruct Hcount as [Hlow _]; [done|].
      replace (Z.of_nat (length chunks)) with n_cpus in Hlow by lia. done.
    + intros ->. rewrite Hnil in Hle by done. cbn in Hle. lia.
  - split; [done|]. split; [|split; [done|]].
    + split; [done|]. intros Hlt. exfalso.
      destruct sam_lines as [|x l]; [cbn in Hlt; nia|].
      destruct Hcount as [_ Hhigh]; [done|].
      clear -Hhigh Hlt Hgt Hn Hnn.
      generalize dependent (Z.of_nat (length (x :: l))). intros len Hhigh Hlt.
      assert (Z.of_nat (length chunks) <= n_cpus - 1) by lia. nia.
    + intros ->. by rewrite Hnil.
Qed.

End SplitInput.

(** ** Batches *)

Section Batches.
Context {methods : Methods} {printing : Printing}.

Lemma batch_turn_counter (options : Options) (primaryOnly : option bool)
    (refs : Refs) (b b' : Batch) (line : string) :
  batch_turn options primaryOnly refs b line = Some b' ->
  counter b' = counter b
  /\ length (log_lines b') = S (length (log_lines b)).
Proof.
  unfold batch_turn.
  destruct (correct_transcript line options refs) as [[[t TE] w]|]; [|done].
  cbn [mbind option_bind]. destruct t as [t|].
  - destruct (printableSAM _ _); [|done]. destruct (printableFa _ _); [|done].
    cbn [mbind option_bind]. intros [= <-]. cbn. rewrite length_app. cbn.
    split; [done|lia].
  - intros [= <-]. cbn. rewrite length_app. cbn. split; [done|lia].
Qed.

Lemma batch_loop_raises (options : Options) (primaryOnly : option bool)
    (refs : Refs) (n : Z) (lines : list string) :
  forall (b : Batch) (o : Outfiles),
    counter b <= n + 1 ->
    n + 1 < counter b + Z.of_nat (length lines) ->
    fst (batch_loop options primaryOnly refs n lines b o) = None
    /\ tE (snd (batch_loop options primaryOnly refs n lines b o)) = tE o.
Proof.
  induction lines as [|line lines IH]; intros b o Hc Hlen; [cbn in Hlen; lia|].
  cbn [batch_loop].
  destruct (batch_turn options primaryOnly refs b line) as [b'|] eqn:Hturn;
    [|done].
  apply batch_turn_counter in Hturn as [Hcount _].
  destruct (Z.ltb_spec n (counter b')); [done|].
  apply IH; cbn [counter length] in *; lia.
Qed.

(** X24. A batch that is longer than [n + 1] lines never comes back from
    [batch_correct]: either a record makes [correct_transcript] or a
    printing method raise, or the counter passes [n], the three first
    buffers are written out and the unbound name [curr_TE] is looked up.
    Nothing is written to the transcript error log. With the [n] that
    [run_chunk] passes, a hundredth of the number of lines, this is so for
    every chunk of two lines or more. *)
Theorem batch_correct_raises_past_n (sam_transcripts : list string)
    (options : Options) (primaryOnly : option bool) (refs : Refs)
    (outfiles : Outfiles) (n : Z) :
  (0 <= n -> n + 1 < Z.of_nat (length sam_transcripts) ->
   fst (batch_correct sam_transcripts options primaryOnly refs outfiles n)
   = None
   /\ tE (snd (batch_correct sam_transcripts options primaryOnly refs
                 outfiles n)) = tE outfiles)
  /\ ((2 <= length sam_transcripts)%nat ->
      fst (run_chunk_batch sam_transcripts options primaryOnly refs outfiles)
      = None).
Proof.
  assert (forall n, 0 <= n -> n + 1 < Z.of_nat (length sam_transcripts) ->
            fst (batch_correct sam_transcripts options primaryOnly refs
                   outfiles n) = None
            /\ tE (snd (batch_correct sam_transcripts options primaryOnly refs
                          outfiles n)) = tE outfiles) as Hraise.
  { intros m Hm Hlen. unfold batch_correct.
    match goal with
    | |- context [batch_loop _ _ _ _ _ ?b0 _] =>
        destruct (batch_loop_raises options primaryOnly refs m sam_transcripts
                    b0 outfiles) as [Hnone Hte]; [cbn; lia|cbn; lia|]
    end.
    destruct (batch_loop _ _ _ _ _ _ _) as [[b|] o]; [done|].
    by cbn [fst snd] in *. }
  split; [apply Hraise|].
  intros Hlen. unfold run_chunk_batch. apply Hraise.
  - apply Z.div_pos; lia.
  - pose proof (Z.div_le_upper_bound (Z.of_nat (length sam_transcripts)) 100
                  (Z.of_nat (length sam_transcripts) - 2)).
    assert (Z.of_nat (length sam_transcripts) / 100
            <= Z.of_nat (length sam_transcripts) - 2); [|lia].
    destruct (Z.le_gt_cases 100 (Z.of_nat (length sam_transcripts))).
    + apply Z.div_le_upper_bound; lia.
    + rewrite Z.div_small by lia. lia.
Qed.

Lemma batch_turn_lines (options : Options) (primaryOnly : option bool)
    (refs : Refs) (b b' : Batch) (line : string) :
  batch_turn options primaryOnly refs b line = Some b' ->
  (length (fasta_lines b') <= S (length (fasta_lines b)))%nat
  /\ (primaryOnly <> Some false ->
      Z.of_nat (length (sam_lines b')) - Z.of_nat (length (fasta_lines b'))
      = Z.of_nat (length (sam_lines b)) - Z.of_nat (length (fasta_lines b))).
Proof.
  unfold batch_turn.
  destruct (correct_transcript line options refs) as [[[t TE] w]|]; [|done].
  cbn [mbind option_bind]. destruct t as [t|].
  - destruct (printableSAM _ _); [|done]. destruct (printableFa _ _); [|done].
    cbn [mbind option_bind]. intros [= <-]. cbn. rewrite !length_app. cbn.
    split; [lia|]. intros _. lia.
  - intros [= <-]. cbn. split; [lia|]. intros Hp.
    case_bool_decide; [done|]. lia.
Qed.

Lemma batch_loop_returns (options : Options) (primaryOnly : option bool)
    (refs : Refs) (n : Z) (lines : list string) :
  forall (b b' : Batch) (o o' : Outfiles),
    batch_loop options primaryOnly refs n lines b o = (Some b', o') ->
    o' = o
    /\ length (log_lines b') = (length (log_lines b) + length lines)%nat
    /\ (length (fasta_lines b') <= length (fasta_lines b) + length lines)%nat
    /\ (primaryOnly <> Some false ->
        Z.of_nat (length (sam_lines b')) - Z.of_nat (length (fasta_lines b'))
        = Z.of_nat (length (sam_lines b)) - Z.of_nat (length (fasta_lines b))).
Proof.
  induction lines as [|line lines IH]; intros b b' o o' Hrun.
  - injection Hrun as <- <-. cbn. repeat split; try done; lia.
  - cbn [batch_loop] in Hrun.
    destruct (batch_turn options primaryOnly refs b line) as [b1|] eqn:Hturn;
      [|done].
    destruct (n <? counter b1); [done|].
    apply IH in Hrun as (-> & Hlog & Hfa & Hsam).
    cbn [log_lines fasta_lines sam_lines length] in *.
    pose proof (batch_turn_counter _ _ _ _ _ _ Hturn) as [_ Hlog1].
    destruct (batch_turn_lines _ _ _ _ _ _ Hturn) as [Hfa1 Hsam1].
    repeat split; try done; try lia.
    intros Hp. specialize (Hsam Hp). specialize (Hsam1 Hp). lia.
Qed.

(** X25. A batch of at most [n + 1] lines. When [batch_correct] returns,
    it has written once to each of the four files; the transcript log holds
    one line per record of the batch; and unless [primaryOnly] is [False]
    (a value the option parser does not produce: the flag gives [True], its
    absence [None]) the SAM and the FASTA output hold the same number of
    entries, so that a record without a transcript object is in neither.
    And it does return when no record makes [correct_transcript] or a
    printing method raise. *)
Theorem batch_correct_small_batch (sam_transcripts : list string)
    (options : Options) (primaryOnly : option bool) (refs : Refs)
    (outfiles : Outfiles) (n : Z) :
  Z.of_nat (length sam_transcripts) <= n + 1 ->
  (forall o',
     batch_correct sam_transcripts options primaryOnly refs outfiles n
     = (Some tt, o') ->
     exists b,
       outSam o' = outSam outfiles ++ [Py.join newline (sam_lines b)]
       /\ outFa o' = outFa outfiles ++ [Py.join newline (fasta_lines b)]
       /\ tL o' = tL outfiles ++ [Py.join newline (log_lines b)]
       /\ tE o' = tE outfiles ++ [Py.join newline (TE_log_lines b)]
       /\ length (log_lines b) = length sam_transcripts
       /\ (length (fasta_lines b) <= length sam_transcripts)%nat
       /\ (primaryOnly <> Some false ->
           length (sam_lines b) = length (fasta_lines b)))
  /\ (Forall (fun line => forall b,
                is_Some (batch_turn options primaryOnly refs b line))
        sam_transcripts ->
      exists o',
        batch_correct sam_transcripts options primaryOnly refs outfiles n
        = (Some tt, o')).
Proof.
  intros Hlen. split.
  - intros o'. unfold batch_correct.
    destruct (batch_loop _ _ _ _ _ _ _) as [[b|] o] eqn:Hrun; [|done].
    intros [= <-]. exists b.
    apply batch_loop_returns in Hrun as (-> & Hlog & Hfa & Hsam).
    cbn [outSam outFa tL tE log_lines fasta_lines sam_lines length] in *.
    repeat split; try done. intros Hp. specialize (Hsam Hp). lia.
  - intros Hall. unfold batch_correct.
    match goal with
    | |- context [batch_loop _ _ _ _ _ ?b0 _] =>
        assert (forall b, counter b + Z.of_nat (length sam_transcripts) <= n + 1 ->
                  exists b', batch_loop options primaryOnly refs n
                               sam_transcripts b outfiles = (Some b', outfiles))
          as Hloop;
        [|destruct (Hloop b0) as [b' ->]; [cbn; lia|by eexists]]
    end.
    clear Hlen. induction Hall as [|line lines Hline Hall IH]; intros b Hb.
    + by exists b.
    + cbn [batch_loop]. destruct (Hline b) as [b1 Hturn]. rewrite Hturn.
      apply batch_turn_counter in Hturn as [Hcount _].
      cbn [length] in Hb.
      destruct (Z.ltb_spec n (counter b1)); [lia|].
      apply IH. cbn [counter]. lia.
Qed.

End Batches.

(** ** The SAM file *)

Section SamFile.

Local Abbreviation tab := (ascii_of_nat 9).
Local Abbreviation is_header := (fun line : string => startswith line "@").

Lemma split_SAM_fold (samFile : list string) (header lines : list string) :
  fold_left
    (fun '(header, transcript_lines) line =>
       let line := Py.strip line in
       if startswith line "@" then (header ++ [line], transcript_lines)
       else (header, transcript_lines ++ [line]))
    samFile (header, lines)
  = (header ++ List.filter is_header (map Py.strip samFile),
     lines ++ List.filter (fun l => negb (is_header l)) (map Py.strip samFile)).
Proof.
  revert header lines. induction samFile as [|line samFile IH];
    intros header lines.
  - cbn. by rewrite !app_nil_r.
  - cbn [fold_left map List.filter]. destruct (startswith (Py.strip line) "@");
      rewrite IH; cbn [negb]; by rewrite <- ?app_assoc.
Qed.

Local Abbreviation transcripts samFile :=
  (List.filter (fun l => negb (is_header l)) (map Py.strip samFile)).

(** The two lists of [split_SAM], in the order of the file. *)
Lemma split_SAM_lines (samFile : list string) :
  split_SAM samFile
  = (List.filter is_header (map Py.strip samFile), transcripts samFile).
Proof. unfold split_SAM. by rewrite split_SAM_fold. Qed.

(** X26. [split_SAM] loses no line and keeps the order: the header is made
    of the stripped lines that start with [@], the transcript lines of all
    the others (an empty line among them), each list in the order of the
    file, and together they are as many as the file has lines. *)
Theorem split_SAM_partition (samFile : list string) :
  split_SAM samFile
  = (List.filter is_header (map Py.strip samFile), transcripts samFile)
  /\ (length (fst (split_SAM samFile)) + length (snd (split_SAM samFile))
      = length samFile)%nat
  /\ (In "" (map Py.strip samFile) -> In "" (snd (split_SAM samFile))).
Proof.
  rewrite split_SAM_lines. cbn [fst snd]. split; [done|]. split.
  - rewrite <- (length_map Py.strip samFile).
    induction (map Py.strip samFile) as [|l ls IH]; [done|].
    cbn [List.filter]. destruct (startswith l "@"); cbn [negb length]; lia.
  - intros Hin. apply filter_In. by split.
Qed.

Lemma sam_chromosomes_spec (lines : list string) (seen : gset string) :
  match sam_chromosomes lines seen with
  | Some sam_chroms =>
      Forall (fun l => is_Some (Py.split_on tab l !! 2%nat)) (transcripts lines)
      /\ forall c, c ∈ sam_chroms
                   <-> c ∈ seen
                       \/ exists l, In l (transcripts lines)
                                    /\ Py.split_on tab l !! 2%nat = Some c
  | None =>
      ~ Forall (fun l => is_Some (Py.split_on tab l !! 2%nat))
          (transcripts lines)
  end.
Proof.
  revert seen. induction lines as [|line lines IH]; intros seen.
  - cbn. split; [constructor|]. intros c. split; [by left|].
    by intros [?|(l & [] & _)].
  - cbn [sam_chromosomes map List.filter].
    destruct (startswith (Py.strip line) "@"); cbn [negb]; [apply IH|].
    destruct (Py.split_on tab (Py.strip line) !! 2%nat) as [chrom|] eqn:Hc;
      cbn [mbind option_bind].
    + specialize (IH (seen ∪ {[chrom]})).
      destruct (sam_chromosomes lines (seen ∪ {[chrom]})) as [sam_chroms|].
      * destruct IH as [Hall Hin]. split; [constructor; [by eexists|done]|].
        intros c. rewrite Hin, elem_of_union, elem_of_singleton.
        split.
        -- intros [[?| ->]|(l & Hl & Hlc)]; [by left| |].
           ++ right. exists (Py.strip line). split; [by left|done].
           ++ right. exists l. split; [by right|done].
        -- intros [?|(l & [<-|Hl] & Hlc)]; [by left; left| |].
           ++ left. right. congruence.
           ++ right. by exists l.
      * intros Hall. apply IH. by inversion Hall.
    + intros Hall. inversion Hall as [|? ? [? Hsome] _]; subst. congruence.
Qed.

(** What [validate_chroms] accepts, in terms of the stripped lines that
    are no header lines. *)
Lemma validate_chroms_lines (fasta_chroms : gset string)
    (samFile : list string) :
  validate_chroms fasta_chroms samFile = ChromsOk
  <-> Forall (fun line =>
                exists chrom,
                  Py.split_on tab line !! 2%nat = Some chrom
                  /\ (chrom = "*" \/ chrom ∈ fasta_chroms))
        (transcripts samFile).
Proof.
  unfold validate_chroms.
  pose proof (sam_chromosomes_spec samFile ∅) as Hspec.
  destruct (sam_chromosomes samFile ∅) as [sam_chroms|].
  - destruct Hspec as [Hall Hin].
    assert ((if bool_decide ("*" ∈ sam_chroms) then sam_chroms ∖ {["*"]}
             else sam_chroms) ⊆ fasta_chroms
            <-> forall c, c ∈ sam_chroms -> c = "*" \/ c ∈ fasta_chroms)
      as Hsub.
    { case_bool_decide as Hstar.
      - split.
        + intros Hs c Hc. destruct (decide (c = "*")) as [->|Hne];
            [by left|right]. apply Hs, elem_of_difference.
          split; [done|]. by intros ?%elem_of_singleton.
        + intros Hs c [Hc Hne]%elem_of_difference.
          destruct (Hs c Hc) as [->|?]; [|done].
          by destruct Hne; apply elem_of_singleton.
      - split.
        + intros Hs c Hc. right. by apply Hs.
        + intros Hs c Hc. destruct (Hs c Hc) as [->|?]; done. }
    set (known := if bool_decide ("*" ∈ sam_chroms)
                  then sam_chroms ∖ {["*"]} else sam_chroms) in *.
    clearbody known.
    case_bool_decide as Hdec; split; try done.
    + intros _. apply Forall_forall. intros l Hl.
      rewrite Forall_forall in Hall. destruct (Hall l Hl) as [c Hc].
      apply list_elem_of_In in Hl.
      exists c. split; [done|]. apply (proj1 Hsub Hdec c).
      apply (proj2 (Hin c)). right. by exists l.
    + intros Hlines. exfalso. apply Hdec, (proj2 Hsub). intros c Hc.
      destruct (proj1 (Hin c) Hc) as [Hc0|(l & Hl & Hlc)]; [set_solver|].
      rewrite Forall_forall in Hlines.
      destruct (Hlines l) as (c' & Hc' & Hok); [by apply list_elem_of_In|].
      congruence.
  - split; [done|]. intros Hlines. exfalso. apply Hspec.
    eapply Forall_impl; [exact Hlines|]. intros l (c & Hc & _). by eexists.
Qed.

(** X27. [validate_chroms] accepts a SAM file exactly when every transcript
    line that [split_SAM] hands on has a third tab-separated field and that
    field is [*] or a name of the reference. An unmapped read never makes
    the check fail; a line with fewer than three fields, such as an empty
    line, makes it raise. *)
Theorem validate_chroms_accepts_iff (fasta_chroms : gset string)
    (samFile : list string) :
  validate_chroms fasta_chroms samFile = ChromsOk
  <-> Forall (fun line =>
                exists chrom,
                  Py.split_on tab line !! 2%nat = Some chrom
                  /\ (chrom = "*" \/ chrom ∈ fasta_chroms))
        (snd (split_SAM samFile)).
Proof. rewrite split_SAM_lines. apply validate_chroms_lines. Qed.

(** The loop of [create_tmp_sam] on transcripts that all have a third
    field. *)
Lemma create_tmp_sam_loop_returns (transcripts : list string) :
  Forall (fun l => is_Some (Py.split_on tab l !! 2%nat)) transcripts ->
  forall (f : list string) (chroms : gset string),
    exists chroms',
      create_tmp_sam_loop transcripts f chroms
      = (Some chroms', f ++ map (fun l => l +:+ newline) transcripts)
      /\ forall c, c ∈ chroms'
                   <-> c ∈ chroms
                       \/ exists l, In l transcripts
                                    /\ Py.split_on tab l !! 2%nat = Some c.
Proof.
  induction 1 as [|l ls [chrom Hl] _ IH]; intros f chroms.
  - exists chroms. cbn. rewrite app_nil_r. split; [done|].
    intros c. split; [by left|]. by intros [?|(l & [] & _)].
  - cbn [create_tmp_sam_loop map]. rewrite Hl.
    destruct (IH (f ++ [l +:+ newline]) (chroms ∪ {[chrom]}))
      as (chroms' & -> & Hin).
    exists chroms'. rewrite <- app_assoc. split; [done|].
    intros c. rewrite Hin, elem_of_union, elem_of_singleton. split.
    + intros [[?| ->]|(l' & Hl' & Hc)]; [by left| |].
      * right. exists l. split; [by left|done].
      * right. exists l'. split; [by right|done].
    + intros [?|(l' & [<-|Hl'] & Hc)]; [by left; left| |].
      * left. right. congruence.
      * right. by exists l'.
Qed.

(** X28. Once [validate_chroms] has accepted the SAM file,
    [create_tmp_sam] does not raise on any selection of the transcript
    lines that [split_SAM] hands on, a chunk of [split_input] for one: it
    writes the header lines and then the transcripts, one per line, and the
    chromosomes it returns are the third fields of the transcripts, each of
    them [*] or a name of the reference. *)
Theorem create_tmp_sam_after_validate (fasta_chroms : gset string)
    (samFile sam_header chunk : list string) (tmp_dir process : string) :
  validate_chroms fasta_chroms samFile = ChromsOk ->
  (forall line, In line chunk -> In line (snd (split_SAM samFile))) ->
  exists chroms,
    create_tmp_sam sam_header chunk tmp_dir process
    = (Some ((tmp_dir +:+ "split_uncorr_sams/") +:+ process +:+ ".sam",
             chroms),
       map (fun l => l +:+ newline) (sam_header ++ chunk))
    /\ (forall c, c ∈ chroms
                  <-> exists line, In line chunk
                                   /\ Py.split_on tab line !! 2%nat = Some c)
    /\ (forall c, c ∈ chroms -> c = "*" \/ c ∈ fasta_chroms).
Proof.
  intros Hok Hchunk. apply validate_chroms_lines in Hok.
  rewrite split_SAM_lines in Hchunk. cbn [snd] in Hchunk.
  rewrite Forall_forall in Hok.
  assert (Forall (fun l => is_Some (Py.split_on tab l !! 2%nat)) chunk)
    as Hall.
  { apply Forall_forall. intros l Hl%list_elem_of_In.
    destruct (Hok l) as (c & Hc & _); [by apply list_elem_of_In, Hchunk|].
    by exists c. }
  unfold create_tmp_sam.
  destruct (create_tmp_sam_loop_returns chunk Hall
              (map (fun item => item +:+ newline) sam_header) ∅)
    as (chroms & -> & Hin).
  exists chroms. rewrite map_app. split; [done|].
  assert (forall c, c ∈ chroms
                    <-> exists line, In line chunk
                                     /\ Py.split_on tab line !! 2%nat = Some c)
    as Hin'.
  { intros c. rewrite Hin. split; [intros [Hc|?]; [|done]|by right].
    by apply elem_of_empty in Hc. }
  split; [done|]. intros c (l & Hl & Hc)%Hin'.
  destruct (Hok l) as (c' & Hc' & Hcase); [by apply list_elem_of_In, Hchunk|].
  congruence.
Qed.

End SamFile.

(** ** The splice junction file *)

Section SpliceFile.

Local Abbreviation tab := (ascii_of_nat 9).
Local Abbreviation fields line := (Py.split_on tab (Py.strip line)).

(** The lines whose chromosome is among those of the reads. *)
Local Abbreviation on_chroms read_chroms lines :=
  (List.filter
     (fun line => match fields line !! 0%nat with
                  | Some chrom => bool_decide (chrom ∈ read_chroms)
                  | None => false
                  end) lines).

(** A line that can be read: it has a ninth field, and numbers in the
    second, third, fifth and sixth. *)
Local Abbreviation readable line :=
  (is_Some (fields line !! 1%nat ≫= Py.int)
   /\ is_Some (fields line !! 2%nat ≫= Py.int)
   /\ is_Some (fields line !! 4%nat ≫= Py.int)
   /\ is_Some (fields line !! 5%nat ≫= Py.int)
   /\ is_Some (fields line !! 8%nat)).

Local Abbreviation stranded line :=
  (fields line !! 3%nat = Some "1" \/ fields line !! 3%nat = Some "2").

(** The chromosome, the two ends and the strand field of a line. *)
Local Abbreviation junction_of line chrom start end_ f3 :=
  (fields line !! 0%nat = Some chrom
   /\ fields line !! 1%nat ≫= Py.int = Some start
   /\ fields line !! 2%nat ≫= Py.int = Some end_
   /\ fields line !! 3%nat = Some f3).

Local Abbreviation first_stranded lines :=
  (match lines with
   | [] => True
   | line :: _ => stranded line
   end).

Lemma fields_first (line : string) : is_Some (fields line !! 0%nat).
Proof.
  unfold Py.split_on. generalize (@nil ascii).
  induction (Py.strip line) as [|c s IH]; intros tok; cbn; [by eexists|].
  destruct (Ascii.eqb c tab); [by eexists|apply IH].
Qed.

(** A line on another chromosome is passed over. *)
Lemma processSpliceAnnotation_line_off (read_chroms : gset string)
    (a : SpliceAnnotation) (line : string) :
  on_chroms read_chroms [line] = [] ->
  processSpliceAnnotation_line read_chroms a line = Some a.
Proof.
  unfold processSpliceAnnotation_line. cbn [List.filter].
  destruct (fields_first line) as [chrom ->]. cbn [mbind option_bind].
  case_bool_decide; [done|]. by rewrite bool_decide_true.
Qed.

(** A line on a chromosome of the reads, when [file1] and [file2] are
    unbound or bound to the two files. *)
Lemma processSpliceAnnotation_line_on (read_chroms : gset string)
    (a : SpliceAnnotation) (line : string) :
  on_chroms read_chroms [line] = [line] ->
  file2 a = other <$> file1 a ->
  match processSpliceAnnotation_line read_chroms a line with
  | Some a' =>
      readable line /\ (stranded line \/ is_Some (file1 a))
      /\ exists chrom start end_ f3 f,
           fields line !! 0%nat = Some chrom
           /\ fields line !! 1%nat ≫= Py.int = Some start
           /\ fields line !! 2%nat ≫= Py.int = Some end_
           /\ fields line !! 3%nat = Some f3
           /\ file1 a' = Some f /\ file2 a' = Some (other f)
           /\ (f3 = "1" -> f = Donors) /\ (f3 = "2" -> f = Acceptors)
           /\ file_of f a'
              = file_of f a
                ++ [bed_entry chrom start (strand_of f3) +:+ newline]
           /\ file_of (other f) a'
              = file_of (other f) a
                ++ [bed_entry chrom end_ (strand_of f3) +:+ newline]
           /\ annot a'
              = annot a ∪ {[junction_key chrom start end_ (strand_of f3)]}
  | None => ~ (readable line /\ (stranded line \/ is_Some (file1 a)))
  end.
Proof.
  unfold processSpliceAnnotation_line. cbn [List.filter].
  destruct (fields_first line) as [chrom Hchrom]. rewrite Hchrom.
  cbn [mbind option_bind].
  case_bool_decide as Hin; [|done]. intros _ Hfiles.
  rewrite bool_decide_false by (by intros []).
  destruct (fields line !! 1%nat ≫= Py.int) as [start|] eqn:H1;
    cbn [mbind option_bind]; [|by intros [[[] ?] ?]].
  destruct (fields line !! 2%nat ≫= Py.int) as [end_|] eqn:H2;
    cbn [mbind option_bind]; [|by intros [(_ & [] & ?) ?]].
  destruct (fields line !! 3%nat) as [f3|] eqn:H3;
    cbn [fmap option_fmap option_map mbind option_bind].
  2: { intros [(_ & _ & _ & _ & Hlen%lookup_lt_is_Some) _].
       apply lookup_ge_None in H3. lia. }
  destruct (fields line !! 4%nat ≫= Py.int) as [motif|] eqn:H4;
    cbn [mbind option_bind]; [|by intros [(_ & _ & [] & ?) ?]].
  destruct (fields line !! 5%nat ≫= Py.int) as [annotated|] eqn:H5;
    cbn [mbind option_bind]; [|by intros [(_ & _ & _ & [] & ?) ?]].
  destruct (fields line !! 6%nat) as [f6|] eqn:H6; cbn [mbind option_bind].
  2: { intros [(_ & _ & _ & _ & Hlen%lookup_lt_is_Some) _].
       apply lookup_ge_None in H6. lia. }
  destruct (fields line !! 7%nat) as [f7|] eqn:H7; cbn [mbind option_bind].
  2: { intros [(_ & _ & _ & _ & Hlen%lookup_lt_is_Some) _].
       apply lookup_ge_None in H7. lia. }
  destruct (fields line !! 8%nat) as [f8|] eqn:H8; cbn [mbind option_bind].
  2: { by intros [(_ & _ & _ & _ & []) _]. }
  assert (readable line) as Hreadable.
  { rewrite H1, H2, H4, H5, H8. repeat split; by eexists. }
  rewrite H1, H2, H4, H5, H8 in Hreadable.
  destruct (String.eqb_spec f3 "2") as [->|Hne2].
  { change (strand_of "2") with "-"%string.
    cbn [String.eqb Ascii.eqb Bool.eqb set_files file1 file2 write_bed
         mbind option_bind].
    split; [done|]. split; [left; by right|].
    exists chrom, start, end_, "2"%string, Acceptors.
    cbn [file_of other add_junction o_donor o_acceptor annot file1 file2
         strand_of String.eqb Ascii.eqb Bool.eqb].
    repeat split; try done. }
  destruct (String.eqb_spec f3 "1") as [->|Hne1].
  { change (strand_of "1") with "+"%string.
    cbn [String.eqb Ascii.eqb Bool.eqb set_files file1 file2 write_bed
         mbind option_bind].
    split; [done|]. split; [left; by left|].
    exists chrom, start, end_, "1"%string, Donors.
    cbn [file_of other add_junction o_donor o_acceptor annot file1 file2
         strand_of String.eqb Ascii.eqb Bool.eqb].
    repeat split; try done. }
  assert (strand_of f3 = ".") as Hstrand.
  { unfold strand_of. destruct (String.eqb_spec f3 "2"); [done|].
    by destruct (String.eqb_spec f3 "1"). }
  rewrite Hstrand. cbn [String.eqb Ascii.eqb Bool.eqb].
  destruct (file1 a) as [f|] eqn:Hf1; cbn [mbind option_bind].
  2: { intros [_ [[?| ?]|[? ?]]]; congruence. }
  cbn [fmap option_fmap option_map] in Hfiles.
  destruct f; cbn [write_bed file1 file2]; rewrite Hfiles;
    cbn [mbind option_bind other write_bed];
    (split; [done|]); (split; [right; by eexists|]);
    [exists chrom, start, end_, f3, Donors
    |exists chrom, start, end_, f3, Acceptors];
    cbn [file_of other add_junction o_donor o_acceptor annot file1 file2];
    rewrite ?Hf1, ?Hfiles, ?Hstrand; repeat split; done.
Qed.

(** When the loop returns: every line on a chromosome of the reads must be
    readable, and the first of them must have a strand unless [file1] and
    [file2] are bound already. *)
Lemma processSpliceAnnotation_lines_returns (read_chroms : gset string)
    (lines : list string) :
  forall a : SpliceAnnotation,
    file2 a = other <$> file1 a ->
    is_Some (processSpliceAnnotation_lines read_chroms a lines)
    <-> Forall (fun line => readable line) (on_chroms read_chroms lines)
        /\ (is_Some (file1 a) \/ first_stranded (on_chroms read_chroms lines)).
Proof.
  induction lines as [|line lines IH]; intros a Hinv.
  { cbn. split; [intros _; split; [constructor|by right]|by eexists]. }
  cbn [processSpliceAnnotation_lines List.filter].
  destruct (match fields line !! 0%nat with
            | Some chrom => bool_decide (chrom ∈ read_chroms)
            | None => false
            end) eqn:Hon.
  - pose proof (processSpliceAnnotation_line_on read_chroms a line) as Hline.
    cbn [List.filter] in Hline. rewrite Hon in Hline.
    specialize (Hline eq_refl Hinv).
    destruct (processSpliceAnnotation_line read_chroms a line) as [a1|];
      cbn [mbind option_bind].
    + destruct Hline as (Hr & Hs & chrom & start & end_ & f3 & f & _ & _ & _
                         & _ & Hf1 & Hf2 & _).
      rewrite IH by (by rewrite Hf1, Hf2). rewrite Hf1. split.
      * intros [Hall _]. split; [by constructor|].
        destruct Hs as [?|?]; [by right|by left].
      * intros [Hall _]. inversion Hall; subst. split; [done|by left].
    + split; [by intros []|]. intros [Hall Hor]. exfalso. apply Hline.
      inversion Hall; subst. split; [done|].
      destruct Hor as [?|?]; [by right|by left].
  - pose proof (processSpliceAnnotation_line_off read_chroms a line) as Hline.
    cbn [List.filter] in Hline. rewrite Hon in Hline. rewrite Hline by done.
    cbn [mbind option_bind]. by apply IH.
Qed.

(** What the loop has added when it returns: one line to each file for
    each line on a chromosome of the reads, in the order of the file, and
    the names of these junctions to the set. *)
Lemma processSpliceAnnotation_lines_adds (read_chroms : gset string)
    (lines : list string) :
  forall a a' : SpliceAnnotation,
    file2 a = other <$> file1 a ->
    processSpliceAnnotation_lines read_chroms a lines = Some a' ->
    exists d c : list string,
      o_donor a' = o_donor a ++ d /\ o_acceptor a' = o_acceptor a ++ c
      /\ length d = length (on_chroms read_chroms lines)
      /\ length c = length (on_chroms read_chroms lines)
      /\ (forall key,
            key ∈ annot a'
            <-> key ∈ annot a
                \/ exists line chrom start end_ f3,
                     In line (on_chroms read_chroms lines)
                     /\ junction_of line chrom start end_ f3
                     /\ key = junction_key chrom start end_ (strand_of f3))
      /\ (forall (i : nat) line,
            on_chroms read_chroms lines !! i = Some line ->
            exists chrom start end_ f3,
              junction_of line chrom start end_ f3
              /\ let bed1 :=
                   bed_entry chrom start (strand_of f3) +:+ newline in
                 let bed2 :=
                   bed_entry chrom end_ (strand_of f3) +:+ newline in
                 (d !! i = Some bed1 /\ c !! i = Some bed2 /\ f3 <> "2")
                 \/ (c !! i = Some bed1 /\ d !! i = Some bed2 /\ f3 <> "1")).
Proof.
  induction lines as [|line lines IH]; intros a a' Hinv Hrun.
  { injection Hrun as <-. exists [], []. rewrite !app_nil_r.
    do 4 (split; [done|]). split.
    - intros key. split; [by left|].
      by intros [?|(? & ? & ? & ? & ? & [] & _)].
    - by intros i line. }
  cbn [processSpliceAnnotation_lines List.filter] in *.
  destruct (match fields line !! 0%nat with
            | Some chrom => bool_decide (chrom ∈ read_chroms)
            | None => false
            end) eqn:Hon.
  - pose proof (processSpliceAnnotation_line_on read_chroms a line) as Hline.
    cbn [List.filter] in Hline. rewrite Hon in Hline.
    specialize (Hline eq_refl Hinv).
    destruct (processSpliceAnnotation_line read_chroms a line) as [a1|];
      cbn [mbind option_bind] in Hrun; [|done].
    destruct Hline as (_ & _ & chrom & start & end_ & f3 & f & H0 & H1 & H2
                       & H3 & Hf1 & Hf2 & Hone & Htwo & Hbed1 & Hbed2 & Hkey).
    destruct (IH a1 a') as (d & c & Hd & Hc & Hld & Hlc & Hannot & Hentries);
      [by rewrite Hf1, Hf2|done|].
    set (bed1 := bed_entry chrom start (strand_of f3) +:+ newline) in *.
    set (bed2 := bed_entry chrom end_ (strand_of f3) +:+ newline) in *.
    assert (forall key,
              key ∈ annot a'
              <-> key ∈ annot a
                  \/ exists line' chrom start end_ f3,
                       In line' (line :: on_chroms read_chroms lines)
                       /\ junction_of line' chrom start end_ f3
                       /\ key = junction_key chrom start end_ (strand_of f3))
      as Hannot'.
    { intros key. rewrite Hannot, Hkey, elem_of_union, elem_of_singleton.
      split.
      - intros [[?| ->]|(l & ch & st & en & fd & Hl & Hj & ->)]; [by left| |].
        + right. exists line, chrom, start, end_, f3.
          split; [by left|done].
        + right. exists l, ch, st, en, fd. split; [by right|done].
      - intros [?|(l & ch & st & en & fd & [<-|Hl] & Hj & ->)];
          [by left; left| |].
        + left. right. destruct Hj as (J0 & J1 & J2 & J3).
          congruence.
        + right. by exists l, ch, st, en, fd. }
    destruct f; cbn [file_of other] in Hbed1, Hbed2.
    + exists (bed1 :: d), (bed2 :: c).
      rewrite Hd, Hc, Hbed1, Hbed2, <- !app_assoc. cbn [app length].
      repeat split; try done; try lia; try apply Hannot'.
      intros [|i] l Hl; cbn [lookup list_lookup] in *.
      * injection Hl as <-. exists chrom, start, end_, f3.
        split; [done|]. left. repeat split; try done.
        intros ->. by specialize (Htwo eq_refl).
      * by apply Hentries.
    + exists (bed2 :: d), (bed1 :: c).
      rewrite Hd, Hc, Hbed1, Hbed2, <- !app_assoc. cbn [app length].
      repeat split; try done; try lia; try apply Hannot'.
      intros [|i] l Hl; cbn [lookup list_lookup] in *.
      * injection Hl as <-. exists chrom, start, end_, f3.
        split; [done|]. right. repeat split; try done.
        intros ->. by specialize (Hone eq_refl).
      * by apply Hentries.
  - pose proof (processSpliceAnnotation_line_off read_chroms a line) as Hline.
    cbn [List.filter] in Hline. rewrite Hon in Hline.
    rewrite Hline in Hrun by done. cbn [mbind option_bind] in Hrun.
    by apply IH.
Qed.

(** X29. [processSpliceAnnotation] returns exactly when every line of the
    junction file whose chromosome is among those of the reads has a ninth
    field and numbers in its second, third, fifth and sixth field, and the
    first of these lines has 1 or 2 as its strand field. A line without a
    strand is accepted after another line on a chromosome of the reads,
    since the names of the two files stay bound from one line to the next;
    as the first such line it finds them unbound and the function raises.
    Lines on other chromosomes are not looked at beyond their first
    field. *)
Theorem processSpliceAnnotation_returns_iff (annotFile : list string)
    (read_chroms : gset string) :
  is_Some (processSpliceAnnotation annotFile read_chroms)
  <-> Forall (fun line => readable line) (on_chroms read_chroms annotFile)
      /\ first_stranded (on_chroms read_chroms annotFile).
Proof.
  unfold processSpliceAnnotation.
  match goal with
  | |- context [processSpliceAnnotation_lines _ ?a0 _] =>
      pose proof (processSpliceAnnotation_lines_returns read_chroms annotFile
                    a0 eq_refl) as Hiff;
      destruct (processSpliceAnnotation_lines read_chroms a0 annotFile)
        as [a|]
  end; cbn [mbind option_bind file1] in *.
  - split; [intros _|by eexists].
    destruct (proj1 Hiff) as [Hall [[? [=]]|Hfirst]]; [by eexists|done].
  - split; [by intros []|]. intros [Hall Hfirst].
    destruct (proj2 Hiff) as [? [=]]. split; [done|by right].
Qed.

(** X30. What [processSpliceAnnotation] returns. Each line on a chromosome
    of the reads gives one line in the donor file and one in the acceptor
    file, at the place it has among these lines: with strand field 1 the
    start of the junction is the donor and its end the acceptor, with 2 it
    is the other way round, and without a strand it is one of the two. The
    set of annotated junctions holds the names of these junctions and
    nothing else. The warning is given exactly when no line of the file is
    on a chromosome of the reads. *)
Theorem processSpliceAnnotation_entries (annotFile : list string)
    (read_chroms : gset string) (a : SpliceAnnotation) (warned : bool) :
  processSpliceAnnotation annotFile read_chroms = Some (a, warned) ->
  length (o_donor a) = length (on_chroms read_chroms annotFile)
  /\ length (o_acceptor a) = length (on_chroms read_chroms annotFile)
  /\ (warned = true <-> on_chroms read_chroms annotFile = [])
  /\ (forall key,
        key ∈ annot a
        <-> exists line chrom start end_ f3,
              In line (on_chroms read_chroms annotFile)
              /\ junction_of line chrom start end_ f3
              /\ key = junction_key chrom start end_ (strand_of f3))
  /\ (forall (i : nat) line,
        on_chroms read_chroms annotFile !! i = Some line ->
        exists chrom start end_ f3,
          junction_of line chrom start end_ f3
          /\ let bed1 := bed_entry chrom start (strand_of f3) +:+ newline in
             let bed2 := bed_entry chrom end_ (strand_of f3) +:+ newline in
             (f3 = "1" ->
              o_donor a !! i = Some bed1 /\ o_acceptor a !! i = Some bed2)
             /\ (f3 = "2" ->
                 o_acceptor a !! i = Some bed1 /\ o_donor a !! i = Some bed2)
             /\ (o_donor a !! i = Some bed1 /\ o_acceptor a !! i = Some bed2
                 \/ o_acceptor a !! i = Some bed1
                    /\ o_donor a !! i = Some bed2)).
Proof.
  unfold processSpliceAnnotation.
  match goal with
  | |- context [processSpliceAnnotation_lines _ ?a0 _] =>
      pose proof (processSpliceAnnotation_lines_adds read_chroms annotFile
                    a0) as Hadds;
      destruct (processSpliceAnnotation_lines read_chroms a0 annotFile)
        as [a1|]
  end; cbn [mbind option_bind]; [|done].
  intros [= <- <-].
  destruct (Hadds a1 eq_refl eq_refl)
    as (d & c & Hd & Hc & Hld & Hlc & Hannot & Hentries).
  cbn [o_donor o_acceptor annot app] in Hd, Hc, Hannot. subst d c.
  split; [done|]. split; [done|]. split; [|split].
  - rewrite Hld, Hlc.
    destruct (on_chroms read_chroms annotFile); cbn [length]; [done|].
    rewrite !bool_decide_false by done. done.
  - intros key. rewrite Hannot. split; [|by right].
    intros [Hkey|?]; [|done]. by apply elem_of_empty in Hkey.
  - intros i line Hline.
    destruct (Hentries i line Hline)
      as (chrom & start & end_ & f3 & Hj & Hcase).
    exists chrom, start, end_, f3. split; [done|]. cbn zeta in *.
    destruct Hcase as [(H1 & H2 & Hne)|(H1 & H2 & Hne)].
    + split; [done|]. split; [done|by left].
    + split; [done|]. split; [done|by right].
Qed.

End SpliceFile.

(** ** Instances on the samples *)

Lemma create_log_string_columns_witness :
  let l0 :=
    {| LogInfo.TranscriptID := "r8"; LogInfo.Mapping := "primary";
       LogInfo.corrected_deletions := None;
       LogInfo.uncorrected_deletions := None;
       LogInfo.variant_deletions := None;
       LogInfo.corrected_insertions := None;
       LogInfo.uncorrected_insertions := None;
       LogInfo.variant_insertions := None;
       LogInfo.corrected_mismatches := None;
       LogInfo.uncorrected_mismatches := None;
       LogInfo.corrected_NC_SJs := None;
       LogInfo.uncorrected_NC_SJs := None |} in
  init_log_info (Py.split_on (ascii_of_nat 9) Sample.spliced_right) = Some l0
  /\ Py.split_on (ascii_of_nat 9)
       (create_log_string (LogInfo.set LogInfo.CorrectedNCSJs (Some 2) l0))
     = ["r8"; "primary"; "NA"; "NA"; "NA"; "NA"; "NA"; "NA"; "NA"; "NA";
        "2"; "NA"].
Proof.
  intros l0. split; [reflexivity|].
  exact (create_log_string_columns Sample.spliced_right l0
           (LogInfo.set LogInfo.CorrectedNCSJs (Some 2) l0) eq_refl eq_refl
           eq_refl).
Defined.

Lemma split_input_partitions_witness :
  exists chunks,
    split_input 10 ["a"; "b"; "c"; "d"; "e"; "f"; "g"; "h"; "i"] 4
    = Returned chunks
    /\ concat chunks = ["a"; "b"; "c"; "d"; "e"; "f"; "g"; "h"; "i"]
    /\ length chunks = 3%nat.
Proof.
  destruct (split_input_partitions
              ["a"; "b"; "c"; "d"; "e"; "f"; "g"; "h"; "i"] 4 10
              ltac:(lia) ltac:(cbn; lia))
    as (batch & chunks & Hbatch & Hrun & Hcat & _ & _ & _ & Hcount).
  exists chunks. split; [exact Hrun|]. split; [exact Hcat|].
  assert (batch = 3) as -> by (vm_compute in Hbatch; congruence).
  destruct (Hcount ltac:(discriminate)) as [Hlow Hhigh].
  cbn [length] in Hlow, Hhigh. lia.
Defined.

Lemma split_input_bad_parts_witness :
  split_input 5 ["a"; "b"] 0 = Raised
  /\ split_input 5 ["a"; "b"] (-2) = Unfinished.
Proof.
  destruct (split_input_bad_parts ["a"; "b"] 0 5) as (Hzero & _).
  destruct (split_input_bad_parts ["a"; "b"] (-2) 5) as (_ & Hneg & _).
  split; [exact (Hzero eq_refl)|]. apply Hneg; [lia|discriminate].
Defined.

Lemma batch_correct_raises_past_n_witness :
  fst (batch_correct (methods := Sample.methods)
         (printing := SamplePrinting.printing)
         [Sample.spliced_right; SamplePrinting.secondary] Sample.options None
         Sample.refs SamplePrinting.no_files 0) = None
  /\ fst (run_chunk_batch (methods := Sample.methods)
            (printing := SamplePrinting.printing)
            [Sample.spliced_right; SamplePrinting.secondary] Sample.options
            None Sample.refs SamplePrinting.no_files) = None.
Proof.
  destruct (batch_correct_raises_past_n (methods := Sample.methods)
              (printing := SamplePrinting.printing)
              [Sample.spliced_right; SamplePrinting.secondary] Sample.options
              None Sample.refs SamplePrinting.no_files 0) as [Hn Hchunk].
  split; [apply Hn; cbn; lia|apply Hchunk; cbn; lia].
Defined.

Lemma batch_correct_small_batch_witness :
  exists o',
    batch_correct (methods := Sample.methods)
      (printing := SamplePrinting.printing)
      [Sample.spliced_right; SamplePrinting.secondary] Sample.options None
      Sample.refs SamplePrinting.no_files 1 = (Some tt, o')
    /\ exists b,
         tL o' = [Py.join newline (log_lines b)]
         /\ length (log_lines b) = 2%nat
         /\ length (sam_lines b) = length (fasta_lines b).
Proof.
  destruct (batch_correct_small_batch (methods := Sample.methods)
              (printing := SamplePrinting.printing)
              [Sample.spliced_right; SamplePrinting.secondary] Sample.options
              None Sample.refs SamplePrinting.no_files 1)
    as [Hlines Hreturns]; [cbn; lia|].
  destruct Hreturns as [o' Hrun].
  - repeat constructor; intros b; eexists; vm_compute; reflexivity.
  - exists o'. split; [exact Hrun|].
    destruct (Hlines o' Hrun) as (b & _ & _ & Hlog & _ & Hn & _ & Hsame).
    exists b. split; [exact Hlog|]. split; [exact Hn|].
    apply Hsame. discriminate.
Defined.

Lemma split_SAM_partition_witness :
  split_SAM ["@HD"; Sample.spliced_right; ""]
  = (["@HD"], [Sample.spliced_right; ""]).
Proof.
  rewrite (proj1 (split_SAM_partition ["@HD"; Sample.spliced_right; ""])).
  reflexivity.
Defined.

Lemma validate_chroms_accepts_iff_witness :
  validate_chroms {["chr1"]}
    ["@HD"; Sample.spliced_right;
     Sample.sam_line "r14" "4" "*" "0" "*" "ACGT" "MD:Z:4"]
  = ChromsOk.
Proof.
  apply (proj2 (validate_chroms_accepts_iff {["chr1"]}
                  ["@HD"; Sample.spliced_right;
                   Sample.sam_line "r14" "4" "*" "0" "*" "ACGT" "MD:Z:4"])).
  repeat constructor.
  - exists "chr1". split; [reflexivity|]. right. by apply elem_of_singleton.
  - exists "*". split; [reflexivity|]. by left.
Defined.

Lemma main_start_needs_all_chunks_witness :
  fst (main_start 10 ["a"; "b"; "c"; "d"; "e"] 4) = Raised
  /\ concat (snd (main_start 10 ["a"; "b"; "c"; "d"; "e"] 4))
     = ["a"; "b"; "c"; "d"; "e"]
  /\ fst (main_start 10 ["a"; "b"; "c"; "d"] 2) = Returned tt.
Proof.
  destruct (main_start_needs_all_chunks ["a"; "b"; "c"; "d"; "e"] 4 10
              ltac:(lia) ltac:(cbn; lia))
    as (batch & Hbatch & Hcat & Hiff & Hraise & _).
  assert (batch = 2) as -> by (vm_compute in Hbatch; congruence).
  destruct (main_start_needs_all_chunks ["a"; "b"; "c"; "d"] 2 10
              ltac:(lia) ltac:(cbn; lia))
    as (batch & Hbatch' & _ & Hiff' & _).
  assert (batch = 2) as -> by (vm_compute in Hbatch'; congruence).
  split; [|split; [exact Hcat|]].
  - apply Hraise. intros Hret. apply Hiff in Hret. cbn in Hret. lia.
  - apply Hiff'. cbn. lia.
Defined.

Lemma create_tmp_sam_after_validate_witness :
  exists chroms,
    create_tmp_sam ["@HD"] [Sample.spliced_right] "TC_tmp/" "7"
    = (Some ("TC_tmp/split_uncorr_sams/7.sam", chroms),
       ["@HD" +:+ newline; Sample.spliced_right +:+ newline])
    /\ forall c, c ∈ chroms -> c = "*" \/ c ∈ ({["chr1"]} : gset string).
Proof.
  destruct (create_tmp_sam_after_validate {["chr1"]}
              ["@HD"; Sample.spliced_right;
               Sample.sam_line "r14" "4" "*" "0" "*" "ACGT" "MD:Z:4"]
              ["@HD"] [Sample.spliced_right] "TC_tmp/" "7")
    as (chroms & Hrun & _ & Hin).
  - apply (proj2 (validate_chroms_lines {["chr1"]}
                    ["@HD"; Sample.spliced_right;
                     Sample.sam_line "r14" "4" "*" "0" "*" "ACGT" "MD:Z:4"])).
    repeat constructor.
    + exists "chr1". split; [reflexivity|]. right. by apply elem_of_singleton.
    + exists "*". split; [reflexivity|]. by left.
  - intros line [<-|[]]. vm_compute. by left.
  - exists chroms. split; [exact Hrun|exact Hin].
Defined.

Lemma processSpliceAnnotation_returns_iff_witness :
  is_Some (processSpliceAnnotation SampleJunctions.file {["chr1"]})
  /\ processSpliceAnnotation
       [SampleJunctions.elsewhere; SampleJunctions.unstranded;
        SampleJunctions.forward] {["chr1"]} = None.
Proof.
  split.
  - apply (proj2 (processSpliceAnnotation_returns_iff SampleJunctions.file
                    {["chr1"]})).
    match goal with
    | |- context [List.filter ?p ?l] =>
        change (List.filter p l)
          with [SampleJunctions.reverse; SampleJunctions.unstranded;
                SampleJunctions.forward]
    end.
    split; [|right; reflexivity].
    repeat (constructor; [split; [|split; [|split; [|split]]];
                          eexists; reflexivity|]).
    constructor.
  - destruct (processSpliceAnnotation _ _) eqn:Hrun; [exfalso|reflexivity].
    destruct (proj1 (processSpliceAnnotation_returns_iff
                       [SampleJunctions.elsewhere; SampleJunctions.unstranded;
                        SampleJunctions.forward] {["chr1"]}))
      as [_ Hfirst]; [by rewrite Hrun|].
    match type of Hfirst with
    | context [List.filter ?p ?l] =>
        change (List.filter p l)
          with [SampleJunctions.unstranded; SampleJunctions.forward]
          in Hfirst
    end.
    destruct Hfirst as [Hfirst|Hfirst]; vm_compute in Hfirst; discriminate.
Defined.

Lemma processSpliceAnnotation_entries_witness :
  exists a,
    processSpliceAnnotation SampleJunctions.file {["chr1"]} = Some (a, false)
    /\ length (o_donor a) = 3%nat
    /\ o_acceptor a !! 0%nat = Some (bed_entry "chr1" 23 "-" +:+ newline)
    /\ o_donor a !! 0%nat = Some (bed_entry "chr1" 32 "-" +:+ newline).
Proof.
  destruct (processSpliceAnnotation SampleJunctions.file {["chr1"]})
    as [[a warned]|] eqn:Hrun; [|by vm_compute in Hrun].
  assert (warned = false) as -> by (vm_compute in Hrun; congruence).
  exists a. split; [reflexivity|].
  destruct (processSpliceAnnotation_entries SampleJunctions.file {["chr1"]}
              a false Hrun) as (Hd & _ & _ & _ & Hentries).
  split; [exact Hd|].
  destruct (Hentries 0%nat SampleJunctions.reverse eq_refl)
    as (chrom & start & end_ & f3 & (H0 & H1 & H2 & H3) & _ & Hrev & _).
  vm_compute in H0, H1, H2, H3.
  injection H0 as <-. injection H1 as <-. injection H2 as <-.
  injection H3 as <-. exact (Hrev eq_refl).
Defined.
